(** * EzStylist: the edit-history state machine of the [App] component

    A shallow embedding of the state cells and event handlers of the
    [App] React component (the virtual try-on screen) together with the
    constants of [types.ts].

    - JavaScript numbers used as indices are [Z]; array reads and
      [slice] spell out what JavaScript does out of range and for a
      negative argument.
    - The objects used as maps from pose instruction to image URL
      ([poseImages], [backgroundModifiedImages], [lightingModifiedImages])
      are mutable and shared by reference between the live state and the
      snapshots kept on the undo and redo stacks.  They live in an
      explicit [store]; a layer holds references into it.
    - An asynchronous handler is split at its single [await]: the part
      before it yields an [Outcome], the part after it is [resume].

    Two neighbours of the component are embedded as well: the pose arrows
    of the [Canvas] component ([Canvas.handlePreviousPose],
    [Canvas.handleNextPose]), which decide the index [handlePoseSelect] is
    called with, and the helpers of the generation service that turn a
    model response into the data URL the component stores and a data URL
    back into a request part ([geminiService.handleApiResponse],
    [geminiService.dataUrlToParts]). *)

From Stdlib Require Import ZArith Lia.
From stdpp Require Import base list strings.

Local Open Scope string_scope.
Local Open Scope list_scope.
Local Open Scope Z_scope.

(** ** JavaScript values *)

(** Truthiness of a [string | undefined] value. *)
Definition truthy (v : option string) : bool :=
  match v with
  | Some s => negb (String.eqb s "")
  | None => false
  end.

(** [arr[i]] for a number [i]. *)
Definition js_index {A} (arr : list A) (i : Z) : option A :=
  if 0 <=? i then arr !! Z.to_nat i else None.

(** [arr.slice(0, e)]: a negative [e] counts from the end. *)
Definition js_slice0 {A} (arr : list A) (e : Z) : list A :=
  if e <? 0
  then take (Z.to_nat (Z.of_nat (length arr) + e)) arr
  else take (Z.to_nat e) arr.

(** [arr[arr.length - 1]]. *)
Definition js_last {A} (arr : list A) : option A := last arr.

(** ** Objects used as maps, in insertion order *)

Abbreviation PoseMap := (list (string * string)).

Fixpoint obj_get (k : string) (m : PoseMap) : option string :=
  match m with
  | [] => None
  | (k', v) :: m' => if String.eqb k k' then Some v else obj_get k m'
  end.

(** [m[k] = v]: an existing key keeps its position, a new one goes last. *)
Fixpoint obj_set (k v : string) (m : PoseMap) : PoseMap :=
  match m with
  | [] => [(k, v)]
  | (k', v') :: m' =>
      if String.eqb k k' then (k', v) :: m' else (k', v') :: obj_set k v m'
  end.

Definition Object_values (m : PoseMap) : list string := snd <$> m.
Definition Object_keys (m : PoseMap) : list string := fst <$> m.

(** ** The store of map objects *)

Abbreviation Ref := nat.
Abbreviation Store := (list PoseMap).

(** References are created by [alloc] only, so a live reference always
    denotes an object; the default is never read on such a reference. *)
Definition deref (h : Store) (r : Ref) : PoseMap := default [] (h !! r).

Definition alloc (m : PoseMap) (h : Store) : Ref * Store :=
  (length h, h ++ [m]).

(** [obj[k] = v] on the object that [r] refers to. *)
Definition assign (r : Ref) (k v : string) (h : Store) : Store :=
  <[r := obj_set k v (deref h r)]> h.

(** ** types.ts *)

Definition POSE_INSTRUCTIONS : list string :=
  [ "Full frontal view, hands on hips";
    "Slightly turned, 3/4 view";
    "Side profile view";
    "Jumping in the air, mid-action shot";
    "Walking towards camera";
    "Leaning against a wall" ].

Definition BACKGROUND_OPTIONS : list string :=
  [ "Default";
    "Studio Background";
    "A Parisian street cafe";
    "A futuristic neon-lit alley";
    "A serene beach at sunset";
    "An elegant library with wooden shelves";
    "A lush botanical garden" ].

Definition LIGHTING_OPTIONS : list string :=
  [ "Default";
    "Bright studio lighting";
    "Warm, golden hour lighting";
    "Dramatic, cinematic lighting";
    "Soft, diffused lighting" ].

(** [POSE_INSTRUCTIONS[i]] used as a property key or inside a template
    string: out of range it is [undefined], which reads "undefined". *)
Definition pose_at (i : Z) : string :=
  default "undefined" (js_index POSE_INSTRUCTIONS i).

Inductive Category := top | accessory.

Record WardrobeItem := mkWardrobeItem {
  id : string;
  name : string;
  url : string;
  category : Category
}.

Record OutfitLayer := mkLayer {
  garment : option WardrobeItem;           (* null is the base model layer *)
  poseImages : Ref;
  backgroundModifiedImages : option Ref;   (* optional property *)
  lightingModifiedImages : option Ref      (* optional property *)
}.

Record AppStateSnapshot := mkSnapshot {
  outfitHistory : list OutfitLayer;
  currentOutfitIndex : Z;
  currentPoseIndex : Z;
  activeBackground : string;
  activeLighting : string
}.

(** wardrobe.ts *)
Definition defaultWardrobe : list WardrobeItem := [].

(** ** Messages

    The translation table [t] and [getFriendlyErrorMessage] are not part
    of the state machine; messages are kept symbolic. *)
Inductive Msg :=
| MsgEmpty
| MsgT (key : string)
| MsgTWith (key arg : string)
| MsgFriendly (err key : string).

(** ** The state cells of [App] *)

Record App := mkApp {
  modelImageUrl : option string;
  state : AppStateSnapshot;   (* the five cells read by getCurrentStateSnapshot *)
  isLoading : bool;
  loadingMessage : Msg;
  error : option Msg;
  isSheetCollapsed : bool;
  wardrobe : list WardrobeItem;
  isLookbookModalOpen : bool;
  lookbookUrl : option string;
  undoStack : list AppStateSnapshot;
  redoStack : list AppStateSnapshot;
  isLookbookTemplateModalOpen : bool;
  isCropModalOpen : bool;
  store : Store
}.

Definition setModelImageUrl v a := mkApp v (state a) (isLoading a) (loadingMessage a) (error a) (isSheetCollapsed a) (wardrobe a) (isLookbookModalOpen a) (lookbookUrl a) (undoStack a) (redoStack a) (isLookbookTemplateModalOpen a) (isCropModalOpen a) (store a).
Definition applyStateSnapshot v a := mkApp (modelImageUrl a) v (isLoading a) (loadingMessage a) (error a) (isSheetCollapsed a) (wardrobe a) (isLookbookModalOpen a) (lookbookUrl a) (undoStack a) (redoStack a) (isLookbookTemplateModalOpen a) (isCropModalOpen a) (store a).
Definition setIsLoading v a := mkApp (modelImageUrl a) (state a) v (loadingMessage a) (error a) (isSheetCollapsed a) (wardrobe a) (isLookbookModalOpen a) (lookbookUrl a) (undoStack a) (redoStack a) (isLookbookTemplateModalOpen a) (isCropModalOpen a) (store a).
Definition setLoadingMessage v a := mkApp (modelImageUrl a) (state a) (isLoading a) v (error a) (isSheetCollapsed a) (wardrobe a) (isLookbookModalOpen a) (lookbookUrl a) (undoStack a) (redoStack a) (isLookbookTemplateModalOpen a) (isCropModalOpen a) (store a).
Definition setError v a := mkApp (modelImageUrl a) (state a) (isLoading a) (loadingMessage a) v (isSheetCollapsed a) (wardrobe a) (isLookbookModalOpen a) (lookbookUrl a) (undoStack a) (redoStack a) (isLookbookTemplateModalOpen a) (isCropModalOpen a) (store a).
Definition setIsSheetCollapsed v a := mkApp (modelImageUrl a) (state a) (isLoading a) (loadingMessage a) (error a) v (wardrobe a) (isLookbookModalOpen a) (lookbookUrl a) (undoStack a) (redoStack a) (isLookbookTemplateModalOpen a) (isCropModalOpen a) (store a).
Definition setWardrobe v a := mkApp (modelImageUrl a) (state a) (isLoading a) (loadingMessage a) (error a) (isSheetCollapsed a) v (isLookbookModalOpen a) (lookbookUrl a) (undoStack a) (redoStack a) (isLookbookTemplateModalOpen a) (isCropModalOpen a) (store a).
Definition setIsLookbookModalOpen v a := mkApp (modelImageUrl a) (state a) (isLoading a) (loadingMessage a) (error a) (isSheetCollapsed a) (wardrobe a) v (lookbookUrl a) (undoStack a) (redoStack a) (isLookbookTemplateModalOpen a) (isCropModalOpen a) (store a).
Definition setLookbookUrl v a := mkApp (modelImageUrl a) (state a) (isLoading a) (loadingMessage a) (error a) (isSheetCollapsed a) (wardrobe a) (isLookbookModalOpen a) v (undoStack a) (redoStack a) (isLookbookTemplateModalOpen a) (isCropModalOpen a) (store a).
Definition setUndoStack v a := mkApp (modelImageUrl a) (state a) (isLoading a) (loadingMessage a) (error a) (isSheetCollapsed a) (wardrobe a) (isLookbookModalOpen a) (lookbookUrl a) v (redoStack a) (isLookbookTemplateModalOpen a) (isCropModalOpen a) (store a).
Definition setRedoStack v a := mkApp (modelImageUrl a) (state a) (isLoading a) (loadingMessage a) (error a) (isSheetCollapsed a) (wardrobe a) (isLookbookModalOpen a) (lookbookUrl a) (undoStack a) v (isLookbookTemplateModalOpen a) (isCropModalOpen a) (store a).
Definition setIsLookbookTemplateModalOpen v a := mkApp (modelImageUrl a) (state a) (isLoading a) (loadingMessage a) (error a) (isSheetCollapsed a) (wardrobe a) (isLookbookModalOpen a) (lookbookUrl a) (undoStack a) (redoStack a) v (isCropModalOpen a) (store a).
Definition setIsCropModalOpen v a := mkApp (modelImageUrl a) (state a) (isLoading a) (loadingMessage a) (error a) (isSheetCollapsed a) (wardrobe a) (isLookbookModalOpen a) (lookbookUrl a) (undoStack a) (redoStack a) (isLookbookTemplateModalOpen a) v (store a).
Definition setStore v a := mkApp (modelImageUrl a) (state a) (isLoading a) (loadingMessage a) (error a) (isSheetCollapsed a) (wardrobe a) (isLookbookModalOpen a) (lookbookUrl a) (undoStack a) (redoStack a) (isLookbookTemplateModalOpen a) (isCropModalOpen a) v.

Definition setCurrentPoseIndex (i : Z) (a : App) : App :=
  let s := state a in
  applyStateSnapshot
    (mkSnapshot (outfitHistory s) (currentOutfitIndex s) i
                (activeBackground s) (activeLighting s)) a.

(** The state of a freshly mounted component. *)
Definition initialApp : App :=
  {| modelImageUrl := None;
     state := mkSnapshot [] 0 0 "Default" "Default";
     isLoading := false;
     loadingMessage := MsgEmpty;
     error := None;
     isSheetCollapsed := true;
     wardrobe := defaultWardrobe;
     isLookbookModalOpen := false;
     lookbookUrl := None;
     undoStack := [];
     redoStack := [];
     isLookbookTemplateModalOpen := false;
     isCropModalOpen := false;
     store := [] |}.

(** ** Derived values (the [useMemo] cells) *)

Definition activeOutfitLayers (s : AppStateSnapshot) : list OutfitLayer :=
  js_slice0 (outfitHistory s) (currentOutfitIndex s + 1).

(** [activeOutfitLayers.map(layer => layer.garment?.id).filter(Boolean)]:
    the entry of a layer without garment and an empty id are both falsy
    and dropped; what is left is read as [string[]]. *)
Definition activeGarmentIds (s : AppStateSnapshot) : list string :=
  omap (fun v => v)
       (List.filter truthy ((fun layer => id <$> garment layer) <$> activeOutfitLayers s)).

(** [layer.cache?.[key]] for one of the two optional caches. *)
Definition cache_get (h : Store) (cache : option Ref) (key : string) : option string :=
  match cache with
  | Some r => obj_get key (deref h r)
  | None => None
  end.

(** [m[key] ?? Object.values(m)[0]] *)
Definition pose_or_first (m : PoseMap) (key : string) : option string :=
  match obj_get key m with
  | Some v => Some v
  | None => head (Object_values m)
  end.

Definition displayImageUrl (a : App) : option string :=
  let s := state a in
  if (length (outfitHistory s) =? 0)%nat then modelImageUrl a else
  match js_index (outfitHistory s) (currentOutfitIndex s) with
  | None => modelImageUrl a
  | Some currentLayer =>
      let poseInstruction := pose_at (currentPoseIndex s) in
      let lit := cache_get (store a) (lightingModifiedImages currentLayer) poseInstruction in
      let bg := cache_get (store a) (backgroundModifiedImages currentLayer) poseInstruction in
      if negb (String.eqb (activeLighting s) "Default") && truthy lit then lit
      else if negb (String.eqb (activeBackground s) "Default") && truthy bg then bg
      else pose_or_first (deref (store a) (poseImages currentLayer)) poseInstruction
  end.

Definition availablePoseKeys (a : App) : list string :=
  let s := state a in
  if (length (outfitHistory s) =? 0)%nat then [] else
  match js_index (outfitHistory s) (currentOutfitIndex s) with
  | Some currentLayer => Object_keys (deref (store a) (poseImages currentLayer))
  | None => []
  end.

Definition getCurrentStateSnapshot (a : App) : AppStateSnapshot := state a.

(** ** The snapshot manager *)

(** An updater computes the next snapshot from the previous one; it may
    create objects and assign into existing ones. *)
Definition Updater := AppStateSnapshot -> Store -> AppStateSnapshot * Store.

(** [currentState] is the snapshot of the render whose closure runs the
    call; the two stack updates are functional updates of the live cells. *)
Definition updateStateWithHistory
    (currentState : AppStateSnapshot) (updater : Updater) (a : App) : App :=
  let '(nextState, h) := updater currentState (store a) in
  applyStateSnapshot nextState
    (setRedoStack []
      (setUndoStack (undoStack a ++ [currentState])
        (setStore h a))).

Definition handleUndo (a : App) : App :=
  if (length (undoStack a) =? 0)%nat then a else
  match js_last (undoStack a) with
  | None => a
  | Some lastState =>
      let currentState := getCurrentStateSnapshot a in
      applyStateSnapshot lastState
        (setUndoStack (removelast (undoStack a))
          (setRedoStack (redoStack a ++ [currentState]) a))
  end.

Definition handleRedo (a : App) : App :=
  if (length (redoStack a) =? 0)%nat then a else
  match js_last (redoStack a) with
  | None => a
  | Some nextState =>
      let currentState := getCurrentStateSnapshot a in
      applyStateSnapshot nextState
        (setRedoStack (removelast (redoStack a))
          (setUndoStack (undoStack a ++ [currentState]) a))
  end.

(** ** Layer construction *)

(** [{ garment: g, poseImages: { [key]: image },
       backgroundModifiedImages: {}, lightingModifiedImages: {} }] *)
Definition freshLayer (g : option WardrobeItem) (key image : string) (h : Store)
  : OutfitLayer * Store :=
  let '(p, h1) := alloc [(key, image)] h in
  let '(b, h2) := alloc [] h1 in
  let '(l, h3) := alloc [] h2 in
  (mkLayer g p (Some b) (Some l), h3).

(** [{ ...original, poseImages: { [key]: image },
       backgroundModifiedImages: {}, lightingModifiedImages: {} }];
    spreading [undefined] contributes no property, so the garment of the
    result is then absent. *)
Definition replacedBaseLayer (original : option OutfitLayer) (key image : string)
    (h : Store) : OutfitLayer * Store :=
  freshLayer (original ≫= garment) key image h.

Definition handleModelFinalized (url : string) (a : App) : App :=
  let '(base, h) := freshLayer None (pose_at 0) url (store a) in
  let s := state a in
  setRedoStack []
    (setUndoStack []
      (applyStateSnapshot
         (mkSnapshot [base] 0 (currentPoseIndex s) (activeBackground s) (activeLighting s))
         (setModelImageUrl (Some url) (setStore h a)))).

Definition handleStartOver (a : App) : App :=
  {| modelImageUrl := None;
     state := mkSnapshot [] 0 0 "Default" "Default";
     isLoading := false;
     loadingMessage := MsgEmpty;
     error := None;
     isSheetCollapsed := true;
     wardrobe := defaultWardrobe;
     isLookbookModalOpen := false;
     lookbookUrl := None;
     undoStack := [];
     redoStack := [];
     isLookbookTemplateModalOpen := false;
     isCropModalOpen := isCropModalOpen a;
     store := store a |}.

(** ** The remote generator (services/geminiService.ts), at its interface *)

Definition File := string.

Inductive RemoteCall :=
| generateVirtualTryOnImage (modelImage : string) (garmentImage : File) (garmentInfo : WardrobeItem)
| generatePoseVariation (tryOnImage poseInstruction : string)
| changeGarmentColor (image newColor : string)
| changeBackground (image backgroundPrompt : string)
| changeLighting (image lightingPrompt : string)
| generateLookbook (images : list string) (templatePrompt : string)
| magicWandEdit (image instruction : string).

(** How the awaited promise settles. *)
Inductive RemoteResult :=
| Resolved (image : string)
| Rejected (err : string).

(** What is left of a handler after its [await]. *)
Inductive Continuation :=
| AfterTryOn (garmentInfo : WardrobeItem)
| AfterPose (newIndex : Z)
| AfterColor (index : Z)
| AfterBackground (backgroundPrompt : string)
| AfterLighting (lightingPrompt : string)
| AfterMagicWand (index : Z)
| AfterLookbook.

(** A suspended handler: the snapshot cells its closure captured when the
    handler was invoked, and the code after the [await]. *)
Record Pending := mkPending {
  captured : AppStateSnapshot;
  rest : Continuation
}.

Inductive Outcome :=
| Returned (a : App)                                   (* ran to its end *)
| Threw (a : App)                                      (* uncaught TypeError *)
| Awaiting (a : App) (call : RemoteCall) (k : Pending) (* suspended at await *).

(** [setError(null); setIsLoading(true); setLoadingMessage(msg)] *)
Definition beginLoading (msg : Msg) (a : App) : App :=
  setLoadingMessage msg (setIsLoading true (setError None a)).

(** The [finally] block shared by the asynchronous handlers. *)
Definition endLoading (a : App) : App :=
  setLoadingMessage MsgEmpty (setIsLoading false a).

(** ** Updaters *)

Definition reselectGarment : Updater := fun prevState h =>
  (mkSnapshot (outfitHistory prevState) (currentOutfitIndex prevState + 1) 0
              "Default" "Default", h).

Definition appendGarment (garmentInfo : WardrobeItem) (newImageUrl : string) : Updater :=
  fun prevState h =>
  let '(newLayer, h') := freshLayer (Some garmentInfo) (pose_at 0) newImageUrl h in
  let newHistory := js_slice0 (outfitHistory prevState) (currentOutfitIndex prevState + 1) in
  (mkSnapshot (newHistory ++ [newLayer]) (Z.of_nat (length newHistory)) 0
              "Default" "Default", h').

Definition revertTo (index : Z) : Updater := fun prevState h =>
  let newHistory := js_slice0 (outfitHistory prevState) index in
  (mkSnapshot newHistory (index - 1) 0 "Default" "Default", h).

Definition switchPose (newIndex : Z) : Updater := fun prevState h =>
  (mkSnapshot (outfitHistory prevState) (currentOutfitIndex prevState) newIndex
              "Default" "Default", h).

(** The success updater of pose selection.  [updatedLayer] is a shallow
    copy of the current layer, so [updatedLayer.poseImages] is the object
    the current layer refers to, and the assignment writes into it.  The
    updater is only run on a snapshot whose current layer exists (see
    [resume]). *)
Definition storePose (newIndex : Z) (newImageUrl : string) : Updater :=
  fun prevState h =>
  let newHistory := outfitHistory prevState in
  match js_index newHistory (currentOutfitIndex prevState) with
  | Some layer =>
      let updatedLayer :=
        mkLayer (garment layer) (poseImages layer)
                (backgroundModifiedImages layer) (lightingModifiedImages layer) in
      let h' := assign (poseImages updatedLayer) (pose_at newIndex) newImageUrl h in
      (mkSnapshot (<[Z.to_nat (currentOutfitIndex prevState) := updatedLayer]> newHistory)
                  (currentOutfitIndex prevState) newIndex "Default" "Default", h')
  | None => (prevState, h)
  end.

(** Truncate after [index] and replace the layer at [index]
    (colour change and magic wand). *)
Definition replaceBaseAt (index : Z) (newImageUrl : string) : Updater :=
  fun prevState h =>
  let historyBeforeEdit := js_slice0 (outfitHistory prevState) index in
  let '(editedLayer, h') :=
    replacedBaseLayer (js_index (outfitHistory prevState) index) (pose_at 0) newImageUrl h in
  (mkSnapshot (historyBeforeEdit ++ [editedLayer]) index 0 "Default" "Default", h').

Definition resetBackground : Updater := fun prevState h =>
  (mkSnapshot (outfitHistory prevState) (currentOutfitIndex prevState)
              (currentPoseIndex prevState) "Default" (activeLighting prevState), h).

Definition resetLighting : Updater := fun prevState h =>
  (mkSnapshot (outfitHistory prevState) (currentOutfitIndex prevState)
              (currentPoseIndex prevState) (activeBackground prevState) "Default", h).

(** The success updater of a background change.  [layerToUpdate] is a
    shallow copy: an existing [backgroundModifiedImages] object is shared
    with the current layer and written in place, a missing one is created.
    [currentPoseKey] is the key the handler computed from its closure.
    The updater runs only after the handler found the current layer (see
    [awaiting_layer_present]); without one it is left as the identity. *)
Definition storeBackground (currentPoseKey backgroundPrompt newImageUrl : string) : Updater :=
  fun prevState h =>
  let newHistory := outfitHistory prevState in
  match js_index newHistory (currentOutfitIndex prevState) with
  | Some layer =>
      let '(cache, h1) :=
        match backgroundModifiedImages layer with
        | Some r => (r, h)
        | None => alloc [] h
        end in
      let layerToUpdate :=
        mkLayer (garment layer) (poseImages layer) (Some cache)
                (lightingModifiedImages layer) in
      let h2 := assign cache currentPoseKey newImageUrl h1 in
      (mkSnapshot (<[Z.to_nat (currentOutfitIndex prevState) := layerToUpdate]> newHistory)
                  (currentOutfitIndex prevState) (currentPoseIndex prevState)
                  backgroundPrompt "Default", h2)
  | None => (prevState, h)
  end.

(** The success updater of a lighting change, symmetric to the above. *)
Definition storeLighting (currentPoseKey lightingPrompt newImageUrl : string) : Updater :=
  fun prevState h =>
  let newHistory := outfitHistory prevState in
  match js_index newHistory (currentOutfitIndex prevState) with
  | Some layer =>
      let '(cache, h1) :=
        match lightingModifiedImages layer with
        | Some r => (r, h)
        | None => alloc [] h
        end in
      let layerToUpdate :=
        mkLayer (garment layer) (poseImages layer)
                (backgroundModifiedImages layer) (Some cache) in
      let h2 := assign cache currentPoseKey newImageUrl h1 in
      (mkSnapshot (<[Z.to_nat (currentOutfitIndex prevState) := layerToUpdate]> newHistory)
                  (currentOutfitIndex prevState) (currentPoseIndex prevState)
                  "Default" lightingPrompt, h2)
  | None => (prevState, h)
  end.

Definition cropCurrent (croppedImageUrl : string) : Updater := fun prevState h =>
  let indexToEdit := currentOutfitIndex prevState in
  let historyBeforeEdit := js_slice0 (outfitHistory prevState) indexToEdit in
  let originalLayer := js_index (outfitHistory prevState) indexToEdit in
  let '(croppedLayer, h') :=
    replacedBaseLayer originalLayer (pose_at (currentPoseIndex prevState))
                      croppedImageUrl h in
  (mkSnapshot (historyBeforeEdit ++ [croppedLayer]) indexToEdit
              (currentPoseIndex prevState) "Default" "Default", h').

(** ** Event handlers *)

Definition sameGarment (nextLayer : option OutfitLayer) (garmentInfo : WardrobeItem) : bool :=
  match nextLayer with
  | Some layer =>
      match garment layer with
      | Some g => String.eqb (id g) (id garmentInfo)
      | None => false
      end
  | None => false
  end.

Definition handleGarmentSelect (garmentFile : File) (garmentInfo : WardrobeItem)
    (a : App) : Outcome :=
  if negb (truthy (displayImageUrl a)) || isLoading a then Returned a else
  let s := state a in
  let nextLayer := js_index (outfitHistory s) (currentOutfitIndex s + 1) in
  if sameGarment nextLayer garmentInfo then
    Returned (updateStateWithHistory (getCurrentStateSnapshot a) reselectGarment a)
  else
    Awaiting
      (beginLoading (MsgTWith "app.loading.adding" (name garmentInfo)) a)
      (generateVirtualTryOnImage (default "" (displayImageUrl a)) garmentFile garmentInfo)
      (mkPending (getCurrentStateSnapshot a) (AfterTryOn garmentInfo)).

Definition handleRevertToLayer (index : Z) (a : App) : App :=
  updateStateWithHistory (getCurrentStateSnapshot a) (revertTo index) a.

Definition handlePoseSelect (newIndex : Z) (a : App) : Outcome :=
  let s := state a in
  if isLoading a || (length (outfitHistory s) =? 0)%nat
     || (newIndex =? currentPoseIndex s) then Returned a else
  let poseInstruction := pose_at newIndex in
  match js_index (outfitHistory s) (currentOutfitIndex s) with
  | None => Threw a     (* currentLayer.poseImages on undefined *)
  | Some currentLayer =>
      let images := deref (store a) (poseImages currentLayer) in
      if truthy (obj_get poseInstruction images) then
        Returned (updateStateWithHistory (getCurrentStateSnapshot a) (switchPose newIndex) a)
      else
        let baseImageForPoseChange := head (Object_values images) in
        if negb (truthy baseImageForPoseChange) then Returned a else
        Awaiting
          (setCurrentPoseIndex newIndex (beginLoading (MsgT "app.loading.posing") a))
          (generatePoseVariation (default "" baseImageForPoseChange) poseInstruction)
          (mkPending (getCurrentStateSnapshot a) (AfterPose newIndex))
  end.

(** The guard shared by colour change and magic wand: the layer's
    default-pose image, else its first image. *)
Definition editBaseImage (a : App) (index : Z) : option (option string) :=
  match js_index (outfitHistory (state a)) index with
  | None => None        (* layerToEdit.poseImages on undefined *)
  | Some layerToEdit =>
      Some (pose_or_first (deref (store a) (poseImages layerToEdit)) (pose_at 0))
  end.

Definition handleColorChangeAtIndex (index : Z) (newColor : string) (a : App) : Outcome :=
  match editBaseImage a index with
  | None => Threw a
  | Some baseImage =>
      if negb (truthy baseImage) || isLoading a then Returned a else
      Awaiting
        (beginLoading (MsgTWith "app.loading.coloring" newColor) a)
        (changeGarmentColor (default "" baseImage) newColor)
        (mkPending (getCurrentStateSnapshot a) (AfterColor index))
  end.

Definition handleMagicWandEditAtIndex (index : Z) (instruction : string) (a : App) : Outcome :=
  match editBaseImage a index with
  | None => Threw a
  | Some baseImage =>
      if negb (truthy baseImage) || isLoading a then Returned a else
      Awaiting
        (beginLoading (MsgT "magicWand.label") a)
        (magicWandEdit (default "" baseImage) instruction)
        (mkPending (getCurrentStateSnapshot a) (AfterMagicWand index))
  end.

(** [currentLayer?.poseImages?.[currentPoseKey]]: exact pose, no fallback. *)
Definition baseImageForModification (a : App) : option string :=
  let s := state a in
  match js_index (outfitHistory s) (currentOutfitIndex s) with
  | Some currentLayer =>
      obj_get (pose_at (currentPoseIndex s)) (deref (store a) (poseImages currentLayer))
  | None => None
  end.

Definition handleBackgroundChange (backgroundPrompt : string) (a : App) : Outcome :=
  if isLoading a then Returned a else
  if String.eqb backgroundPrompt "Default" then
    Returned (updateStateWithHistory (getCurrentStateSnapshot a) resetBackground a)
  else
  let base := baseImageForModification a in
  if negb (truthy base) then
    Returned (setError (Some (MsgFriendly "Base image for pose not found."
                                          "app.error.changeBackground")) a)
  else
  let promptForAPI :=
    if String.eqb backgroundPrompt "Studio Background"
    then "a clean, neutral studio backdrop (light gray, #f0f0f0)"
    else backgroundPrompt in
  Awaiting
    (beginLoading (MsgT "app.loading.background") a)
    (changeBackground (default "" base) promptForAPI)
    (mkPending (getCurrentStateSnapshot a) (AfterBackground backgroundPrompt)).

Definition handleLightingChange (lightingPrompt : string) (a : App) : Outcome :=
  if isLoading a then Returned a else
  if String.eqb lightingPrompt "Default" then
    Returned (updateStateWithHistory (getCurrentStateSnapshot a) resetLighting a)
  else
  let base := baseImageForModification a in
  if negb (truthy base) then
    Returned (setError (Some (MsgFriendly "Base image for pose not found."
                                          "app.error.changeLighting")) a)
  else
  Awaiting
    (beginLoading (MsgT "app.loading.lighting") a)
    (changeLighting (default "" base) lightingPrompt)
    (mkPending (getCurrentStateSnapshot a) (AfterLighting lightingPrompt)).

(** [activeOutfitLayers.map(l => Object.values(l.poseImages)[0]).filter(url => !!url)] *)
Definition lookbookImages (a : App) : list string :=
  omap (fun layer =>
          let first := head (Object_values (deref (store a) (poseImages layer))) in
          if truthy first then first else None)
       (activeOutfitLayers (state a)).

Definition handleGenerateLookbook (templatePrompt : string) (a : App) : Outcome :=
  let a0 := setIsLookbookTemplateModalOpen false a in
  if isLoading a || (length (activeOutfitLayers (state a)) <=? 1)%nat then
    Returned (setError (Some (MsgT "app.error.lookbook.addGarment")) a0)
  else
  let a1 := beginLoading (MsgT "app.loading.lookbook") a0 in
  let imageUrls := lookbookImages a in
  if (1 <? length imageUrls)%nat then
    Awaiting a1 (generateLookbook imageUrls templatePrompt)
             (mkPending (getCurrentStateSnapshot a) AfterLookbook)
  else
    Returned (endLoading (setError (Some (MsgT "app.error.lookbook.notEnough")) a1)).

Definition handleOpenLookbookTemplates (a : App) : App :=
  setIsLookbookTemplateModalOpen true a.

Definition handleOpenCropModal (a : App) : App :=
  if truthy (displayImageUrl a) then setIsCropModalOpen true a else a.

Definition handleImageCrop (croppedImageUrl : string) (a : App) : App :=
  let a0 := setIsCropModalOpen false a in
  if String.eqb croppedImageUrl "" then a0 else
  updateStateWithHistory (getCurrentStateSnapshot a) (cropCurrent croppedImageUrl) a0.

(** [setWardrobe(prev => prev.find(item => item.id === garmentInfo.id)
                          ? prev : [...prev, garmentInfo])] *)
Definition mergeWardrobe (garmentInfo : WardrobeItem) (prev : list WardrobeItem)
  : list WardrobeItem :=
  if existsb (fun item => String.eqb (id item) (id garmentInfo)) prev
  then prev else prev ++ [garmentInfo].

(** ** After the await

    [resume k r a] runs the rest of a suspended handler on the live state
    [a] once the remote call has settled with [r]: the [try] body on
    success, the [catch] block on failure, then the [finally] block. *)
Definition resume (k : Pending) (r : RemoteResult) (a : App) : App :=
  let capt := captured k in
  match rest k, r with
  | AfterTryOn garmentInfo, Resolved newImageUrl =>
      let a1 := updateStateWithHistory capt (appendGarment garmentInfo newImageUrl) a in
      endLoading (setWardrobe (mergeWardrobe garmentInfo (wardrobe a1)) a1)
  | AfterTryOn _, Rejected err =>
      endLoading (setError (Some (MsgFriendly err "app.error.applyGarment")) a)
  | AfterPose newIndex, Resolved newImageUrl =>
      match js_index (outfitHistory capt) (currentOutfitIndex capt) with
      | Some _ =>
          endLoading (updateStateWithHistory capt (storePose newIndex newImageUrl) a)
      | None =>
          (* the updater throws a TypeError, which the catch block handles *)
          endLoading
            (setCurrentPoseIndex (currentPoseIndex capt)
               (setError (Some (MsgFriendly "TypeError" "app.error.changePose")) a))
      end
  | AfterPose _, Rejected err =>
      endLoading
        (setCurrentPoseIndex (currentPoseIndex capt)
           (setError (Some (MsgFriendly err "app.error.changePose")) a))
  | AfterColor index, Resolved newImageUrl =>
      endLoading (updateStateWithHistory capt (replaceBaseAt index newImageUrl) a)
  | AfterColor _, Rejected err =>
      endLoading (setError (Some (MsgFriendly err "app.error.changeColor")) a)
  | AfterBackground backgroundPrompt, Resolved newImageUrl =>
      endLoading
        (updateStateWithHistory capt
           (storeBackground (pose_at (currentPoseIndex capt)) backgroundPrompt newImageUrl) a)
  | AfterBackground _, Rejected err =>
      endLoading (setError (Some (MsgFriendly err "app.error.changeBackground")) a)
  | AfterLighting lightingPrompt, Resolved newImageUrl =>
      endLoading
        (updateStateWithHistory capt
           (storeLighting (pose_at (currentPoseIndex capt)) lightingPrompt newImageUrl) a)
  | AfterLighting _, Rejected err =>
      endLoading (setError (Some (MsgFriendly err "app.error.changeLighting")) a)
  | AfterMagicWand index, Resolved newImageUrl =>
      endLoading (updateStateWithHistory capt (replaceBaseAt index newImageUrl) a)
  | AfterMagicWand _, Rejected err =>
      endLoading (setError (Some (MsgFriendly err "magicWand.error")) a)
  | AfterLookbook, Resolved resultUrl =>
      endLoading (setIsLookbookModalOpen true (setLookbookUrl (Some resultUrl) a))
  | AfterLookbook, Rejected err =>
      endLoading (setError (Some (MsgFriendly err "app.error.lookbook.generate")) a)
  end.

(** ** The component as a transition system *)

(** What the user can trigger: one constructor per handler wired into the
    rendered tree. *)
Inductive Event :=
| ModelFinalized (url : string)
| StartOver
| GarmentSelect (garmentFile : File) (garmentInfo : WardrobeItem)
| RevertToLayer (index : Z)
| PoseSelect (newIndex : Z)
| ColorChangeAtIndex (index : Z) (newColor : string)
| BackgroundChange (backgroundPrompt : string)
| LightingChange (lightingPrompt : string)
| MagicWandEditAtIndex (index : Z) (instruction : string)
| GenerateLookbook (templatePrompt : string)
| OpenLookbookTemplates
| OpenCropModal
| ImageCrop (croppedImageUrl : string)
| Undo
| Redo.

Definition handle (e : Event) (a : App) : Outcome :=
  match e with
  | ModelFinalized url => Returned (handleModelFinalized url a)
  | StartOver => Returned (handleStartOver a)
  | GarmentSelect garmentFile garmentInfo => handleGarmentSelect garmentFile garmentInfo a
  | RevertToLayer index => Returned (handleRevertToLayer index a)
  | PoseSelect newIndex => handlePoseSelect newIndex a
  | ColorChangeAtIndex index newColor => handleColorChangeAtIndex index newColor a
  | BackgroundChange backgroundPrompt => handleBackgroundChange backgroundPrompt a
  | LightingChange lightingPrompt => handleLightingChange lightingPrompt a
  | MagicWandEditAtIndex index instruction => handleMagicWandEditAtIndex index instruction a
  | GenerateLookbook templatePrompt => handleGenerateLookbook templatePrompt a
  | OpenLookbookTemplates => Returned (handleOpenLookbookTemplates a)
  | OpenCropModal => Returned (handleOpenCropModal a)
  | ImageCrop croppedImageUrl => Returned (handleImageCrop croppedImageUrl a)
  | Undo => Returned (handleUndo a)
  | Redo => Returned (handleRedo a)
  end.

(** The live cells together with the handlers suspended at an [await]. *)
Record Config := mkConfig {
  app : App;
  inflight : list Pending
}.

Inductive Input :=
| User (e : Event)                       (* the user triggers a handler *)
| Settle (n : nat) (r : RemoteResult)    (* the n-th outstanding call settles *).

Definition step (c : Config) (i : Input) : Config :=
  match i with
  | User e =>
      match handle e (app c) with
      | Returned a | Threw a => mkConfig a (inflight c)
      | Awaiting a _ k => mkConfig a (inflight c ++ [k])
      end
  | Settle n r =>
      match inflight c !! n with
      | Some k => mkConfig (resume k r (app c)) (delete n (inflight c))
      | None => c
      end
  end.

Definition run (c : Config) (inputs : list Input) : Config := foldl step c inputs.

Definition initialConfig : Config := mkConfig initialApp [].

(** *** Revert requests

    [handleRevertToLayer] does not check its index.  A request reverts
    *to* the layer [index - 1], which has to exist. *)
Definition revertTargetExists (a : App) (index : Z) : bool :=
  (0 <? index) && (index <=? Z.of_nat (length (outfitHistory (state a)))).

(** OutfitStack maps over [activeOutfitLayers] and renders the remove
    button of a row only when [canEdit = index > 0], so the index it
    passes lies strictly between 0 and the number of active layers. *)
Definition revertOffered (a : App) (index : Z) : bool :=
  (0 <? index) && (index <? Z.of_nat (length (activeOutfitLayers (state a)))).

(** Apply-garment and revert only, the latter to an existing layer. *)
Inductive WearInput :=
| Apply (garmentFile : File) (garmentInfo : WardrobeItem)
| ApplySettles (n : nat) (r : RemoteResult)
| Revert (index : Z).

Definition wearStep (c : Config) (i : WearInput) : option Config :=
  match i with
  | Apply garmentFile garmentInfo => Some (step c (User (GarmentSelect garmentFile garmentInfo)))
  | ApplySettles n r => Some (step c (Settle n r))
  | Revert index =>
      if revertTargetExists (app c) index
      then Some (step c (User (RevertToLayer index)))
      else None
  end.

Fixpoint wearRun (c : Config) (inputs : list WearInput) : option Config :=
  match inputs with
  | [] => Some c
  | i :: inputs' =>
      match wearStep c i with
      | Some c' => wearRun c' inputs'
      | None => None
      end
  end.

(** *** Runs in which every revert goes to an existing layer *)

Definition offered (a : App) (e : Event) : bool :=
  match e with
  | RevertToLayer index => revertTargetExists a index
  | _ => true
  end.

Fixpoint uiRun (c : Config) (inputs : list Input) : option Config :=
  match inputs with
  | [] => Some c
  | User e :: inputs' =>
      if offered (app c) e then uiRun (step c (User e)) inputs' else None
  | Settle n r :: inputs' => uiRun (step c (Settle n r)) inputs'
  end.

(** ** Snapshots by content

    What a snapshot denotes once every reference is replaced by the
    object it refers to in a given store. *)
Record LayerView := mkLayerView {
  viewGarment : option WardrobeItem;
  viewPoseImages : PoseMap;
  viewBackgroundModifiedImages : option PoseMap;
  viewLightingModifiedImages : option PoseMap
}.

Definition viewLayer (h : Store) (layer : OutfitLayer) : LayerView :=
  mkLayerView (garment layer)
              (deref h (poseImages layer))
              (deref h <$> backgroundModifiedImages layer)
              (deref h <$> lightingModifiedImages layer).

Record SnapshotView := mkSnapshotView {
  viewHistory : list LayerView;
  viewOutfitIndex : Z;
  viewPoseIndex : Z;
  viewBackground : string;
  viewLighting : string
}.

Definition viewSnapshot (h : Store) (s : AppStateSnapshot) : SnapshotView :=
  mkSnapshotView (viewLayer h <$> outfitHistory s)
                 (currentOutfitIndex s) (currentPoseIndex s)
                 (activeBackground s) (activeLighting s).

(** The snapshot the user sees in state [a]. *)
Definition currentView (a : App) : SnapshotView := viewSnapshot (store a) (state a).

(** ** Predicates used by the statements *)

Definition modifiersExclusive (s : AppStateSnapshot) : Prop :=
  activeBackground s = "Default" ∨ activeLighting s = "Default".

(** The display precedence, as the specification words it: lighting
    entry, else background entry, else the pose image with the
    first-inserted image as fallback. *)
Definition displayPrecedence (h : Store) (layer : OutfitLayer) (key : string)
    (background lighting : string) : option string :=
  match (if String.eqb lighting "Default" then None
         else cache_get h (lightingModifiedImages layer) key) with
  | Some image => Some image
  | None =>
      match (if String.eqb background "Default" then None
             else cache_get h (backgroundModifiedImages layer) key) with
      | Some image => Some image
      | None =>
          match obj_get key (deref h (poseImages layer)) with
          | Some image => Some image
          | None => head (Object_values (deref h (poseImages layer)))
          end
      end
  end.

(** Every image held in a cache under [key] is a non-empty reference. *)
Definition entryNonEmpty (h : Store) (cache : option Ref) (key : string) : Prop :=
  ∀ image, cache_get h cache key = Some image → image ≠ "".

(** A request is ignored: nothing changes and no call is issued. *)
Definition ignored (o : Outcome) (a : App) : Prop :=
  o = Returned a ∨ o = Threw a.

(** The layer [layer] of store [h] shows the single image [image] under
    [key] and has two empty modifier caches. *)
Definition singleImageLayer (h : Store) (layer : OutfitLayer) (key image : string) : Prop :=
  deref h (poseImages layer) = [(key, image)]
  ∧ deref h <$> backgroundModifiedImages layer = Some []
  ∧ deref h <$> lightingModifiedImages layer = Some [].

(** State [a] is what an edit of layer [i] with result [image] commits:
    [i + 1] layers, the last one showing [image] under the default pose,
    cursor on it, first pose, no modifier. *)
Definition editCommitted (i : Z) (image : string) (a : App) : Prop :=
  Z.of_nat (length (outfitHistory (state a))) = i + 1
  ∧ (∃ edited, js_index (outfitHistory (state a)) i = Some edited
               ∧ singleImageLayer (store a) edited (pose_at 0) image)
  ∧ currentOutfitIndex (state a) = i
  ∧ currentPoseIndex (state a) = 0
  ∧ activeBackground (state a) = "Default"
  ∧ activeLighting (state a) = "Default".

(** Cropping [image] in state [a] leaves the layers beyond the cursor as
    they are. *)
Definition cropKeepsLaterLayers (a : App) (image : string) : Prop :=
  ∀ j, currentOutfitIndex (state a) < j →
       js_index (outfitHistory (state (handleImageCrop image a))) j
       = js_index (outfitHistory (state a)) j.

(** While a generation is in flight the request [e] is ignored. *)
Definition busyGate (e : Event) (a : App) : Prop :=
  isLoading a = true → ignored (handle e a) a.

(** [P] holds of the live snapshot and of every snapshot kept on a stack. *)
Definition appAll (P : AppStateSnapshot → Prop) (a : App) : Prop :=
  P (state a) ∧ Forall P (undoStack a) ∧ Forall P (redoStack a).

(** The modifiers are exclusive in the live snapshot and in every
    snapshot kept on a stack. *)
Definition appExclusive (a : App) : Prop := appAll modifiersExclusive a.

Definition configExclusive (c : Config) : Prop :=
  appExclusive (app c)
  ∧ Forall (fun k => modifiersExclusive (captured k)) (inflight c).

(** The history of [s] starts with [base] and the cursor addresses one of
    its layers. *)
Definition wornFrom (base : OutfitLayer) (s : AppStateSnapshot) : Prop :=
  head (outfitHistory s) = Some base
  ∧ 0 ≤ currentOutfitIndex s < Z.of_nat (length (outfitHistory s)).

Definition wearInvariant (base : OutfitLayer) (c : Config) : Prop :=
  wornFrom base (state (app c))
  ∧ Forall (fun k => wornFrom base (captured k) ∧ ∃ g, rest k = AfterTryOn g)
           (inflight c).

(** The cursor is on the last layer (or the history is still empty). *)
Definition cursorOnLast (s : AppStateSnapshot) : Prop :=
  (0 ≤ currentOutfitIndex s
   ∧ Z.of_nat (length (outfitHistory s)) = currentOutfitIndex s + 1)
  ∨ (outfitHistory s = [] ∧ currentOutfitIndex s = 0).

(** A suspended colour or magic-wand edit targets an existing layer. *)
Definition pendingOnLast (k : Pending) : Prop :=
  cursorOnLast (captured k)
  ∧ match rest k with
    | AfterColor index | AfterMagicWand index =>
        is_Some (js_index (outfitHistory (captured k)) index)
    | _ => True
    end.

Definition configOnLast (c : Config) : Prop :=
  appAll cursorOnLast (app c) ∧ Forall pendingOnLast (inflight c).

(** Every reference of [layer] denotes an object of [h]. *)
Definition layerClosed (h : Store) (layer : OutfitLayer) : Prop :=
  (poseImages layer < length h)%nat
  ∧ (∀ r, backgroundModifiedImages layer = Some r → (r < length h)%nat)
  ∧ (∀ r, lightingModifiedImages layer = Some r → (r < length h)%nat).

Definition snapshotClosed (h : Store) (s : AppStateSnapshot) : Prop :=
  Forall (layerClosed h) (outfitHistory s).

(** ** Vocabulary for the behaviour of the handlers *)

(** The state a handler leaves, however it ended. *)
Definition outcomeApp (o : Outcome) : App :=
  match o with
  | Returned a | Threw a | Awaiting a _ _ => a
  end.

(** Both stacks as they were. *)
Definition stacksKept (a a' : App) : Prop :=
  undoStack a' = undoStack a ∧ redoStack a' = redoStack a.

(** The snapshot [s] pushed on the undo stack, the redo stack emptied. *)
Definition stacksPushed (s : AppStateSnapshot) (a a' : App) : Prop :=
  undoStack a' = undoStack a ++ [s] ∧ redoStack a' = [].

Definition stacksCleared (a' : App) : Prop :=
  undoStack a' = [] ∧ redoStack a' = [].

(** A sequence of commits, each from the snapshot then current. *)
Definition commits (us : list Updater) (a : App) : App :=
  foldl (fun a u => updateStateWithHistory (getCurrentStateSnapshot a) u a) a us.

(** Nothing of the edit history, the stacks, the store or the wardrobe
    differs between [a] and [a']. *)
Definition historyUntouched (a a' : App) : Prop :=
  state a' = state a ∧ undoStack a' = undoStack a ∧ redoStack a' = redoStack a
  ∧ store a' = store a ∧ wardrobe a' = wardrobe a.

(** The image arguments of a remote call. *)
Definition callImages (c : RemoteCall) : list string :=
  match c with
  | generateVirtualTryOnImage modelImage _ _ => [modelImage]
  | generatePoseVariation image _ | changeGarmentColor image _
  | changeBackground image _ | changeLighting image _
  | magicWandEdit image _ => [image]
  | generateLookbook images _ => images
  end.

(** Every image held by an object of the store is a non-empty string. *)
Definition storeNonEmpty (h : Store) : Prop :=
  Forall (Forall (fun entry : string * string => entry.2 ≠ "")) h.

(** The images that enter the component from outside are non-empty: the
    accepted model image and the results of the remote calls. *)
Definition imageInput (i : Input) : Prop :=
  match i with
  | User (ModelFinalized url) => url ≠ ""
  | Settle _ (Resolved image) => image ≠ ""
  | _ => True
  end.

(** At most one remote call is outstanding, and exactly when busy. *)
Definition singleFlight (c : Config) : Prop :=
  (isLoading (app c) = true ∧ length (inflight c) = 1%nat)
  ∨ (isLoading (app c) = false ∧ inflight c = []).

(** ** The canvas: the two pose arrows *)

(** [arr.indexOf(x)], by strict equality, counting from [i]. *)
Fixpoint indexOf_from (arr : list string) (x : string) (i : Z) : Z :=
  match arr with
  | [] => -1
  | y :: arr' => if String.eqb y x then i else indexOf_from arr' x (i + 1)
  end.

(** [arr.indexOf(x)] where [x] was read from an array and may be
    undefined, which no string equals. *)
Definition js_indexOf (arr : list string) (x : option string) : Z :=
  match x with
  | Some s => indexOf_from arr s 0
  | None => -1
  end.

Module Canvas.

(** The props the arrows read. *)
Record Props := mkProps {
  isLoading : bool;
  poseInstructions : list string;
  currentPoseIndex : Z;
  availablePoseKeys : list string
}.

(** Each arrow calls [onSelectPose] at most once: the result is the index
    it is called with, [None] when it is not called.  [%] is the
    remainder with the sign of the dividend. *)
Definition handlePreviousPose (p : Props) : option Z :=
  let available := Z.of_nat (length (availablePoseKeys p)) in
  let instructions := Z.of_nat (length (poseInstructions p)) in
  if isLoading p || (available <=? 1) then None else
  let currentPoseInstruction := js_index (poseInstructions p) (currentPoseIndex p) in
  let currentIndexInAvailable := js_indexOf (availablePoseKeys p) currentPoseInstruction in
  if currentIndexInAvailable =? -1 then
    Some (Z.rem (currentPoseIndex p - 1 + instructions) instructions)
  else
    let prevIndexInAvailable := Z.rem (currentIndexInAvailable - 1 + available) available in
    let prevPoseInstruction := js_index (availablePoseKeys p) prevIndexInAvailable in
    let newGlobalPoseIndex := js_indexOf (poseInstructions p) prevPoseInstruction in
    if negb (newGlobalPoseIndex =? -1) then Some newGlobalPoseIndex else None.

Definition handleNextPose (p : Props) : option Z :=
  let available := Z.of_nat (length (availablePoseKeys p)) in
  let instructions := Z.of_nat (length (poseInstructions p)) in
  if isLoading p then None else
  let currentPoseInstruction := js_index (poseInstructions p) (currentPoseIndex p) in
  let currentIndexInAvailable := js_indexOf (availablePoseKeys p) currentPoseInstruction in
  if (currentIndexInAvailable =? -1) || (available =? 0) then
    Some (Z.rem (currentPoseIndex p + 1) instructions)
  else
    let nextIndexInAvailable := currentIndexInAvailable + 1 in
    if nextIndexInAvailable <? available then
      let nextPoseInstruction := js_index (availablePoseKeys p) nextIndexInAvailable in
      let newGlobalPoseIndex := js_indexOf (poseInstructions p) nextPoseInstruction in
      if negb (newGlobalPoseIndex =? -1) then Some newGlobalPoseIndex else None
    else
      Some (Z.rem (currentPoseIndex p + 1) instructions).

(** The pose with index [g] has an image in the current layer. *)
Definition cached (p : Props) (g : Z) : Prop :=
  ∃ key, js_index (poseInstructions p) g = Some key ∧ key ∈ availablePoseKeys p.

End Canvas.

(** The props the component passes to its canvas. *)
Definition canvasProps (a : App) : Canvas.Props :=
  Canvas.mkProps (isLoading a) POSE_INSTRUCTIONS (currentPoseIndex (state a))
                 (availablePoseKeys a).


(** ** The generation service: data URLs and model responses *)

Module geminiService.

(** A string of the service is the sequence of its UTF-16 code units. *)
Abbreviation jsString := (list N).

(** A literal of the source; all of them are ASCII. *)
Definition lit (s : string) : jsString :=
  Ascii.N_of_ascii <$> String.list_ascii_of_string s.

(** A template slot filled with a [string | undefined] value. *)
Definition interpolate (v : option jsString) : jsString :=
  default (lit "undefined") v.

Definition truthyString (v : option jsString) : bool :=
  match v with
  | Some (_ :: _) => true
  | _ => false
  end.

(** [s === t] on strings. *)
Fixpoint strictEquals (s t : jsString) : bool :=
  match s, t with
  | [], [] => true
  | c :: s', d :: t' => (c =? d)%N && strictEquals s' t'
  | _, _ => false
  end.

(** A function body either returns a value or throws [new Error(message)]. *)
Inductive Completion (A : Type) :=
  | Return (value : A)
  | Throw (message : jsString).
Arguments Return {A} value.
Arguments Throw {A} message.

(** [s.split(separator)] for a separator of one code unit. *)
Fixpoint split (separator : N) (s : jsString) : list jsString :=
  match s with
  | [] => [[]]
  | c :: s' =>
      if (c =? separator)%N then [] :: split separator s'
      else match split separator s' with
           | piece :: pieces => (c :: piece) :: pieces
           | [] => [[c]]
           end
  end.

(** The code units [.] does not match. *)
Definition lineTerminator (c : N) : bool :=
  existsb (N.eqb c) [10; 13; 8232; 8233]%N.

(** [(.*?);] tried at the start of [s]: the code units before the first
    [;], unless a line terminator or the end of [s] comes first. *)
Fixpoint lazyUpToSemicolon (s : jsString) : option jsString :=
  match s with
  | [] => None
  | c :: s' =>
      if (c =? 59)%N then Some []
      else if lineTerminator c then None
      else cons c <$> lazyUpToSemicolon s'
  end.

(** [s.match(/:(.*?);/)]: the capture group of the leftmost match, [None]
    when there is no match. *)
Fixpoint matchMimeType (s : jsString) : option jsString :=
  match s with
  | [] => None
  | c :: s' =>
      match (if (c =? 58)%N then lazyUpToSemicolon s' else None) with
      | Some capture => Some capture
      | None => matchMimeType s'
      end
  end.

Definition dataUrlToParts (dataUrl : jsString) : Completion (jsString * jsString) :=
  let arr := split 44 dataUrl in
  if (length arr <? 2)%nat then Throw (lit "Invalid data URL") else
  match matchMimeType (default [] (arr !! 0%nat)) with
  | Some (c :: capture) => Return (c :: capture, default [] (arr !! 1%nat))
  | _ => Throw (lit "Could not parse MIME type from data URL")
  end.

(** The part of a model response the service reads. *)
Record InlineData := mkInlineData {
  mimeType : option jsString;
  data : option jsString
}.

Record Part := mkPart { inlineData : option InlineData }.

Record Content := mkContent { parts : option (list Part) }.

Record Candidate := mkCandidate {
  content : option Content;
  finishReason : option jsString
}.

Record PromptFeedback := mkPromptFeedback {
  blockReason : option jsString;
  blockReasonMessage : option jsString
}.

(** [text] is the value of the response's [text] accessor. *)
Record GenerateContentResponse := mkResponse {
  promptFeedback : option PromptFeedback;
  candidates : option (list Candidate);
  text : option jsString
}.

Definition dataUrlToPart (dataUrl : jsString) : Completion InlineData :=
  match dataUrlToParts dataUrl with
  | Return (mime, payload) => Return (mkInlineData (Some mime) (Some payload))
  | Throw message => Throw message
  end.

(** [candidate.content?.parts?.find(part => part.inlineData)] *)
Definition imagePartOf (candidate : Candidate) : option Part :=
  match content candidate with
  | Some c =>
      match parts c with
      | Some ps => List.find (fun part => bool_decide (is_Some (inlineData part))) ps
      | None => None
      end
  | None => None
  end.

(** The loop over the candidates: the inline data it returns from. *)
Fixpoint firstInlineData (cs : list Candidate) : option InlineData :=
  match cs with
  | [] => None
  | candidate :: cs' =>
      match imagePartOf candidate ≫= inlineData with
      | Some image => Some image
      | None => firstInlineData cs'
      end
  end.

(** White space and line terminators, which [trim] removes. *)
Definition whiteSpace (c : N) : bool :=
  existsb (N.eqb c)
    [9; 10; 11; 12; 13; 32; 160; 5760;
     8192; 8193; 8194; 8195; 8196; 8197; 8198; 8199; 8200; 8201; 8202;
     8232; 8233; 8239; 8287; 12288; 65279]%N.

Fixpoint trimStart (s : jsString) : jsString :=
  match s with
  | c :: s' => if whiteSpace c then trimStart s' else s
  | [] => []
  end.

Definition trim (s : jsString) : jsString :=
  reverse (trimStart (reverse (trimStart s))).

Definition quote : jsString := [34%N].

Definition handleApiResponse (response : GenerateContentResponse) : Completion jsString :=
  let blocked :=
    match promptFeedback response with
    | Some feedback =>
        if truthyString (blockReason feedback) then Some feedback else None
    | None => None
    end in
  match blocked with
  | Some feedback =>
      Throw (lit "Request was blocked. Reason: " ++ interpolate (blockReason feedback)
             ++ lit ". "
             ++ (if truthyString (blockReasonMessage feedback)
                 then interpolate (blockReasonMessage feedback) else []))
  | None =>
      match firstInlineData (default [] (candidates response)) with
      | Some image =>
          Return (lit "data:" ++ interpolate (mimeType image)
                  ++ lit ";base64," ++ interpolate (data image))
      | None =>
          let finishReason := (candidates response ≫= head) ≫= finishReason in
          if truthyString finishReason
             && negb (strictEquals (interpolate finishReason) (lit "STOP"))
          then
            Throw (lit "Image generation stopped unexpectedly. Reason: "
                   ++ interpolate finishReason
                   ++ lit ". This often relates to safety settings.")
          else
            let textFeedback := trim <$> text response in
            Throw (lit "The AI model did not return an image. "
                   ++ (if truthyString textFeedback
                       then lit "The model responded with text: "
                            ++ quote ++ interpolate textFeedback ++ quote
                       else lit "This can happen due to safety filters or if the request is too complex. Please try a different image."))
      end
  end.

(** *** Vocabulary for the properties of the service *)

(** What the capture group of the MIME pattern can hold. *)
Definition capturable (c : N) : Prop := c ≠ 59%N ∧ lineTerminator c = false.

(** The response reports a blocked prompt. *)
Definition blocked (response : GenerateContentResponse) : bool :=
  match promptFeedback response with
  | Some feedback => truthyString (blockReason feedback)
  | None => false
  end.

(** [image] is the inline data of the first part that has some, in the
    first candidate that has such a part. *)
Definition firstImage (cs : list Candidate) (image : InlineData) : Prop :=
  ∃ cs1 candidate cs2 c ps1 part ps2,
    cs = cs1 ++ candidate :: cs2
    ∧ Forall (λ earlier, ∀ c' ps, content earlier = Some c' → parts c' = Some ps →
                         Forall (λ p, inlineData p = None) ps) cs1
    ∧ content candidate = Some c
    ∧ parts c = Some (ps1 ++ part :: ps2)
    ∧ Forall (λ p, inlineData p = None) ps1
    ∧ inlineData part = Some image.

End geminiService.


(** ** Sample sessions *)

Definition shirt : WardrobeItem := mkWardrobeItem "shirt-1" "Shirt" "blob:shirt" top.
Definition scarf : WardrobeItem := mkWardrobeItem "scarf-7" "Scarf" "blob:scarf" accessory.

(** The model image "A" has been accepted. *)
Definition afterModel : Config := run initialConfig [User (ModelFinalized "A")].

(** ... then the shirt was applied, the generator answering "B". *)
Definition afterShirt : Config :=
  run afterModel [User (GarmentSelect "shirt.png" shirt); Settle 0 (Resolved "B")].

(** ... then the scarf on top, the generator answering "D". *)
Definition afterScarf : Config :=
  run afterShirt [User (GarmentSelect "scarf.png" scarf); Settle 0 (Resolved "D")].

(** ... then a second pose was requested and is still being generated. *)
Definition posing : Config := run afterShirt [User (PoseSelect 1)].

(** ... or a lighting was applied, the generator answering "L". *)
Definition litUp : Config :=
  run afterShirt [User (LightingChange "Bright studio lighting"); Settle 0 (Resolved "L")].

(** The history of [afterShirt] with the cursor put back on the base
    layer, so that the shirt layer lies beyond the cursor.  The state is
    written down directly: the handlers never leave the cursor short of
    the last layer (see [no_layer_beyond_cursor]). *)
Definition shirtAhead : App :=
  applyStateSnapshot
    (mkSnapshot (outfitHistory (state (app afterShirt))) 0 0 "Default" "Default")
    (app afterShirt).

(** * Properties *)

(** ** Array and object helpers *)

Lemma js_index_Some {A} (arr : list A) (i : Z) (x : A) :
  js_index arr i = Some x ↔ 0 ≤ i ∧ arr !! Z.to_nat i = Some x.
Proof.
  unfold js_index. destruct (Z.leb_spec 0 i); split.
  - auto.
  - intros [_ H']. exact H'.
  - discriminate.
  - intros [Hi _]. lia.
Qed.

Lemma js_index_lt {A} (arr : list A) (i : Z) (x : A) :
  js_index arr i = Some x → 0 ≤ i < Z.of_nat (length arr).
Proof.
  intros [Hi Hx]%js_index_Some. apply lookup_lt_Some in Hx. lia.
Qed.

Lemma js_index_None_ge {A} (arr : list A) (i : Z) :
  Z.of_nat (length arr) ≤ i → js_index arr i = None.
Proof.
  intros Hi. unfold js_index. destruct (Z.leb_spec 0 i); [|reflexivity].
  apply lookup_ge_None. lia.
Qed.

Lemma js_slice0_nonneg {A} (arr : list A) (e : Z) :
  0 ≤ e → js_slice0 arr e = take (Z.to_nat e) arr.
Proof.
  intros He. unfold js_slice0. destruct (Z.ltb_spec e 0); [lia | reflexivity].
Qed.

Lemma js_slice0_length {A} (arr : list A) (e : Z) :
  0 ≤ e ≤ Z.of_nat (length arr) → Z.of_nat (length (js_slice0 arr e)) = e.
Proof.
  intros He. rewrite js_slice0_nonneg by lia. rewrite length_take. lia.
Qed.

Lemma js_index_app_end {A} (l1 : list A) (x : A) :
  js_index (l1 ++ [x]) (Z.of_nat (length l1)) = Some x.
Proof.
  apply js_index_Some. split; [lia|].
  rewrite Nat2Z.id. rewrite lookup_app_r by lia.
  replace (length l1 - length l1)%nat with 0%nat by lia. reflexivity.
Qed.

Lemma deref_app_old (h fresh : Store) (r : Ref) :
  (r < length h)%nat → deref (h ++ fresh) r = deref h r.
Proof.
  intros Hr. unfold deref. rewrite lookup_app_l by exact Hr. reflexivity.
Qed.

(** A fresh layer only appends objects to the store. *)
Lemma freshLayer_spec (g : option WardrobeItem) (key image : string) (h : Store) :
  freshLayer g key image h =
    (mkLayer g (length h) (Some (S (length h))) (Some (S (S (length h)))),
     h ++ [[(key, image)]; []; []]).
Proof.
  unfold freshLayer, alloc. simpl. rewrite !length_app. simpl.
  rewrite <- !app_assoc. simpl.
  repeat f_equal; lia.
Qed.

Lemma truthy_Some_nonempty (v : string) : v ≠ "" → truthy (Some v) = true.
Proof.
  intros Hv. simpl. destruct (String.eqb_spec v ""); [contradiction | reflexivity].
Qed.

(** ** The snapshot manager *)

Lemma updateStateWithHistory_state (s : AppStateSnapshot) (u : Updater) (a : App) :
  state (updateStateWithHistory s u a) = (u s (store a)).1.
Proof. unfold updateStateWithHistory. destruct (u s (store a)). reflexivity. Qed.

Lemma updateStateWithHistory_store (s : AppStateSnapshot) (u : Updater) (a : App) :
  store (updateStateWithHistory s u a) = (u s (store a)).2.
Proof. unfold updateStateWithHistory. destruct (u s (store a)). reflexivity. Qed.

Lemma updateStateWithHistory_undoStack (s : AppStateSnapshot) (u : Updater) (a : App) :
  undoStack (updateStateWithHistory s u a) = undoStack a ++ [s].
Proof. unfold updateStateWithHistory. destruct (u s (store a)). reflexivity. Qed.

Lemma updateStateWithHistory_redoStack (s : AppStateSnapshot) (u : Updater) (a : App) :
  redoStack (updateStateWithHistory s u a) = [].
Proof. unfold updateStateWithHistory. destruct (u s (store a)). reflexivity. Qed.

Lemma updateStateWithHistory_wardrobe (s : AppStateSnapshot) (u : Updater) (a : App) :
  wardrobe (updateStateWithHistory s u a) = wardrobe a.
Proof. unfold updateStateWithHistory. destruct (u s (store a)). reflexivity. Qed.

Lemma handleUndo_push (a : App) (s : AppStateSnapshot) (stack : list AppStateSnapshot) :
  undoStack a = stack ++ [s] →
  handleUndo a =
    applyStateSnapshot s
      (setUndoStack stack (setRedoStack (redoStack a ++ [state a]) a)).
Proof.
  intros H. unfold handleUndo, js_last, getCurrentStateSnapshot. rewrite H.
  rewrite length_app, Nat.add_comm. simpl.
  rewrite last_snoc, removelast_last. reflexivity.
Qed.

Lemma handleRedo_push (a : App) (s : AppStateSnapshot) (stack : list AppStateSnapshot) :
  redoStack a = stack ++ [s] →
  handleRedo a =
    applyStateSnapshot s
      (setRedoStack stack (setUndoStack (undoStack a ++ [state a]) a)).
Proof.
  intros H. unfold handleRedo, js_last, getCurrentStateSnapshot. rewrite H.
  rewrite length_app, Nat.add_comm. simpl.
  rewrite last_snoc, removelast_last. reflexivity.
Qed.

(** Undo followed by redo gives back the snapshot cells and both stacks. *)
Lemma handleRedo_handleUndo (a : App) :
  undoStack a ≠ [] →
  state (handleRedo (handleUndo a)) = state a
  ∧ undoStack (handleRedo (handleUndo a)) = undoStack a
  ∧ redoStack (handleRedo (handleUndo a)) = redoStack a
  ∧ store (handleRedo (handleUndo a)) = store a.
Proof.
  intros Hne.
  destruct (undoStack a) as [|x l] eqn:E using rev_ind; [contradiction|].
  clear IHl. rewrite (handleUndo_push a x l E).
  erewrite handleRedo_push by reflexivity. simpl. auto.
Qed.

(** ** Display precedence *)

(** C9: for a history whose cursor addresses a layer, the displayed image
    is the lighting-cache entry of the current pose when lighting is not
    "Default" and the entry exists; else the background-cache entry when
    background is not "Default" and the entry exists; else the pose image
    of the current pose, falling back to the first-inserted pose image.
    Cached images are non-empty references. *)
Theorem displayImageUrl_precedence (a : App) (layer : OutfitLayer) :
  js_index (outfitHistory (state a)) (currentOutfitIndex (state a)) = Some layer →
  entryNonEmpty (store a) (lightingModifiedImages layer)
                (pose_at (currentPoseIndex (state a))) →
  entryNonEmpty (store a) (backgroundModifiedImages layer)
                (pose_at (currentPoseIndex (state a))) →
  displayImageUrl a =
    displayPrecedence (store a) layer (pose_at (currentPoseIndex (state a)))
                      (activeBackground (state a)) (activeLighting (state a)).
Proof.
  intros Hlayer Hlit Hbg. unfold displayImageUrl, displayPrecedence, pose_or_first.
  pose proof (js_index_lt _ _ _ Hlayer) as Hrange.
  destruct (Nat.eqb_spec (length (outfitHistory (state a))) 0); [lia|].
  rewrite Hlayer.
  set (key := pose_at (currentPoseIndex (state a))) in *.
  assert (Hcase : ∀ cache, entryNonEmpty (store a) cache key →
            truthy (cache_get (store a) cache key) = true
              ∧ (∃ v, cache_get (store a) cache key = Some v)
            ∨ truthy (cache_get (store a) cache key) = false
              ∧ cache_get (store a) cache key = None).
  { intros cache Hne. destruct (cache_get (store a) cache key) as [v|] eqn:E.
    - left. split; [apply truthy_Some_nonempty, (Hne v E) | eauto].
    - right. auto. }
  destruct (String.eqb (activeLighting (state a)) "Default"); simpl.
  - destruct (String.eqb (activeBackground (state a)) "Default"); simpl; [reflexivity|].
    destruct (Hcase _ Hbg) as [[-> [v ->]] | [-> ->]]; reflexivity.
  - destruct (Hcase _ Hlit) as [[-> [v ->]] | [-> ->]]; [reflexivity|].
    destruct (String.eqb (activeBackground (state a)) "Default"); simpl; [reflexivity|].
    destruct (Hcase _ Hbg) as [[-> [v ->]] | [-> ->]]; reflexivity.
Qed.

Lemma displayImageUrl_precedence_witness :
  displayImageUrl (app litUp) = Some "L".
Proof.
  rewrite (displayImageUrl_precedence (app litUp)
             (mkLayer (Some shirt) 3%nat (Some 4%nat) (Some 5%nat))).
  - reflexivity.
  - reflexivity.
  - intros image H. vm_compute in H. injection H as <-. discriminate.
  - intros image H. vm_compute in H. discriminate.
Defined.

(** ** Redo by reselection *)

(** C5: when the layer right after the cursor exists and carries the
    selected garment's id, apply-garment returns without a remote call;
    the history is unchanged, the cursor advances by one, the pose index
    is 0 and both modifiers are "Default".  (The handler runs: an image is
    displayed and no generation is in flight.) *)
Theorem handleGarmentSelect_reselect
    (garmentFile : File) (garmentInfo : WardrobeItem) (a : App)
    (nextLayer : OutfitLayer) (g : WardrobeItem) :
  isLoading a = false →
  truthy (displayImageUrl a) = true →
  js_index (outfitHistory (state a)) (currentOutfitIndex (state a) + 1) = Some nextLayer →
  garment nextLayer = Some g →
  id g = id garmentInfo →
  ∃ a', handleGarmentSelect garmentFile garmentInfo a = Returned a'
    ∧ outfitHistory (state a') = outfitHistory (state a)
    ∧ store a' = store a
    ∧ currentOutfitIndex (state a') = currentOutfitIndex (state a) + 1
    ∧ currentPoseIndex (state a') = 0
    ∧ activeBackground (state a') = "Default"
    ∧ activeLighting (state a') = "Default".
Proof.
  intros Hbusy Hshown Hnext Hg Hid.
  unfold handleGarmentSelect. rewrite Hshown, Hbusy. simpl.
  rewrite Hnext. unfold sameGarment. rewrite Hg, Hid, String.eqb_refl.
  eexists. split; [reflexivity|]. repeat split.
Qed.

Lemma handleGarmentSelect_reselect_witness :
  ∃ a', handleGarmentSelect "shirt.png" shirt shirtAhead = Returned a'
    ∧ outfitHistory (state a') = outfitHistory (state shirtAhead)
    ∧ store a' = store shirtAhead
    ∧ currentOutfitIndex (state a') = currentOutfitIndex (state shirtAhead) + 1
    ∧ currentPoseIndex (state a') = 0
    ∧ activeBackground (state a') = "Default"
    ∧ activeLighting (state a') = "Default".
Proof.
  apply (handleGarmentSelect_reselect "shirt.png" shirt shirtAhead
           (mkLayer (Some shirt) 3%nat (Some 4%nat) (Some 5%nat)) shirt);
    reflexivity.
Defined.

(** ** Edits that replace a layer's base image *)

Lemma replacedBaseLayer_single (original : option OutfitLayer) (key image : string)
    (h : Store) :
  singleImageLayer (replacedBaseLayer original key image h).2
                   (replacedBaseLayer original key image h).1 key image
  ∧ garment (replacedBaseLayer original key image h).1 = original ≫= garment
  ∧ (replacedBaseLayer original key image h).2 = h ++ [[(key, image)]; []; []].
Proof.
  unfold replacedBaseLayer, singleImageLayer. rewrite freshLayer_spec.
  cbn [fst snd poseImages backgroundModifiedImages lightingModifiedImages garment
       fmap option_fmap option_map].
  unfold deref. rewrite !lookup_app_r by lia.
  replace (length h - length h)%nat with 0%nat by lia.
  replace (S (length h) - length h)%nat with 1%nat by lia.
  replace (S (S (length h)) - length h)%nat with 2%nat by lia.
  repeat split.
Qed.

Lemma replaceBaseAt_committed (i : Z) (image : string) (s : AppStateSnapshot)
    (a : App) (layer : OutfitLayer) :
  js_index (outfitHistory s) i = Some layer →
  editCommitted i image (endLoading (updateStateWithHistory s (replaceBaseAt i image) a)).
Proof.
  intros Hlayer. pose proof (js_index_lt _ _ _ Hlayer) as Hi.
  unfold editCommitted, endLoading. cbn [state store setLoadingMessage setIsLoading].
  rewrite updateStateWithHistory_state, updateStateWithHistory_store.
  unfold replaceBaseAt.
  destruct (replacedBaseLayer_single (js_index (outfitHistory s) i) (pose_at 0) image (store a))
    as (Hsingle & _ & _).
  destruct (replacedBaseLayer (js_index (outfitHistory s) i) (pose_at 0) image (store a))
    as [edited h'] eqn:E.
  cbn [fst snd outfitHistory currentOutfitIndex currentPoseIndex activeBackground
       activeLighting] in *.
  assert (Hlen : Z.of_nat (length (js_slice0 (outfitHistory s) i)) = i)
    by (apply js_slice0_length; lia).
  repeat split.
  - rewrite length_app. simpl. lia.
  - exists edited. split; [|exact Hsingle].
    rewrite <- Hlen at 2. apply js_index_app_end.
Qed.

(** C3: in a history of length n, a colour change or a magic-wand edit at
    an index i with i + 1 < n whose remote call succeeds leaves a history
    of length i + 1 whose layer i has the single pose image
    {default pose: new image} and empty background and lighting caches,
    with the cursor on i, pose index 0 and both modifiers "Default".
    (The handler runs: layer i has a base image and nothing is in flight.) *)
Theorem edit_at_index_truncates
    (a : App) (i : Z) (arg newImage : string) (layer : OutfitLayer) :
  isLoading a = false →
  js_index (outfitHistory (state a)) i = Some layer →
  truthy (pose_or_first (deref (store a) (poseImages layer)) (pose_at 0)) = true →
  i + 1 < Z.of_nat (length (outfitHistory (state a))) →
  (∃ a1 call k,
      handleColorChangeAtIndex i arg a = Awaiting a1 call k
      ∧ editCommitted i newImage (resume k (Resolved newImage) a1))
  ∧ (∃ a1 call k,
      handleMagicWandEditAtIndex i arg a = Awaiting a1 call k
      ∧ editCommitted i newImage (resume k (Resolved newImage) a1)).
Proof.
  intros Hbusy Hlayer Hbase _.
  unfold handleColorChangeAtIndex, handleMagicWandEditAtIndex, editBaseImage.
  rewrite Hlayer, Hbase, Hbusy. cbn [negb orb].
  split; do 3 eexists; (split; [reflexivity|]);
    unfold resume; cbn [rest captured];
    eapply replaceBaseAt_committed; exact Hlayer.
Qed.

Lemma edit_at_index_truncates_witness :
  (∃ a1 call k,
      handleColorChangeAtIndex 1 "#EF4444" (app afterScarf) = Awaiting a1 call k
      ∧ editCommitted 1 "R" (resume k (Resolved "R") a1))
  ∧ (∃ a1 call k,
      handleMagicWandEditAtIndex 1 "#EF4444" (app afterScarf) = Awaiting a1 call k
      ∧ editCommitted 1 "R" (resume k (Resolved "R") a1)).
Proof.
  apply (edit_at_index_truncates (app afterScarf) 1 "#EF4444" "R"
           (mkLayer (Some shirt) 3%nat (Some 4%nat) (Some 5%nat)));
    [reflexivity | reflexivity | reflexivity | vm_compute; reflexivity].
Defined.

(** ** Crop *)

(** C2, as the code has it: for a non-empty cropped image and a cursor
    that addresses a layer, crop replaces that layer by one with the same
    garment whose only pose image is {current pose: cropped image} and
    whose background and lighting caches are empty; the layers before the
    cursor, the cursor and the pose index are unchanged, both modifiers
    become "Default", and every layer after the cursor is dropped: the
    history ends at the cursor, as after a colour change or a magic-wand
    edit. *)
Theorem handleImageCrop_replaces_and_truncates
    (a : App) (croppedImageUrl : string) (layer : OutfitLayer) :
  croppedImageUrl ≠ "" →
  js_index (outfitHistory (state a)) (currentOutfitIndex (state a)) = Some layer →
  let a' := handleImageCrop croppedImageUrl a in
  (∃ cropped,
      outfitHistory (state a') =
        take (Z.to_nat (currentOutfitIndex (state a))) (outfitHistory (state a)) ++ [cropped]
      ∧ garment cropped = garment layer
      ∧ singleImageLayer (store a') cropped
                         (pose_at (currentPoseIndex (state a))) croppedImageUrl)
  ∧ Z.of_nat (length (outfitHistory (state a'))) = currentOutfitIndex (state a) + 1
  ∧ (∀ j, currentOutfitIndex (state a) < j → js_index (outfitHistory (state a')) j = None)
  ∧ currentOutfitIndex (state a') = currentOutfitIndex (state a)
  ∧ currentPoseIndex (state a') = currentPoseIndex (state a)
  ∧ activeBackground (state a') = "Default"
  ∧ activeLighting (state a') = "Default".
Proof.
  intros Hurl Hlayer a'. subst a'.
  pose proof (js_index_lt _ _ _ Hlayer) as Hcur.
  unfold handleImageCrop. destruct (String.eqb_spec croppedImageUrl ""); [contradiction|].
  rewrite updateStateWithHistory_state, updateStateWithHistory_store.
  unfold getCurrentStateSnapshot. cbn [store setIsCropModalOpen].
  unfold cropCurrent. rewrite Hlayer.
  destruct (replacedBaseLayer_single (Some layer)
              (pose_at (currentPoseIndex (state a))) croppedImageUrl (store a))
    as (Hsingle & Hgarment & _).
  destruct (replacedBaseLayer (Some layer) (pose_at (currentPoseIndex (state a)))
              croppedImageUrl (store a)) as [cropped h'].
  cbn [fst snd outfitHistory currentOutfitIndex currentPoseIndex activeBackground
       activeLighting] in *.
  rewrite js_slice0_nonneg by lia.
  assert (Hlen : Z.of_nat (length (take (Z.to_nat (currentOutfitIndex (state a)))
                                        (outfitHistory (state a)) ++ [cropped]))
                 = currentOutfitIndex (state a) + 1).
  { rewrite length_app, length_take. simpl. lia. }
  repeat split; try exact Hlen.
  - exists cropped. auto.
  - intros j Hj. apply js_index_None_ge. lia.
Qed.

Lemma handleImageCrop_replaces_and_truncates_witness :
  let a' := handleImageCrop "X" shirtAhead in
  (∃ cropped,
      outfitHistory (state a') =
        take (Z.to_nat (currentOutfitIndex (state shirtAhead)))
             (outfitHistory (state shirtAhead)) ++ [cropped]
      ∧ garment cropped = garment (mkLayer None 0%nat (Some 1%nat) (Some 2%nat))
      ∧ singleImageLayer (store a') cropped
                         (pose_at (currentPoseIndex (state shirtAhead))) "X")
  ∧ Z.of_nat (length (outfitHistory (state a'))) = currentOutfitIndex (state shirtAhead) + 1
  ∧ (∀ j, currentOutfitIndex (state shirtAhead) < j
          → js_index (outfitHistory (state a')) j = None)
  ∧ currentOutfitIndex (state a') = currentOutfitIndex (state shirtAhead)
  ∧ currentPoseIndex (state a') = currentPoseIndex (state shirtAhead)
  ∧ activeBackground (state a') = "Default"
  ∧ activeLighting (state a') = "Default".
Proof.
  apply (handleImageCrop_replaces_and_truncates shirtAhead "X"
           (mkLayer None 0%nat (Some 1%nat) (Some 2%nat)));
    [discriminate | reflexivity].
Defined.

(** C2 as stated fails: with the shirt layer lying beyond the cursor,
    cropping the base layer removes the shirt layer from the history. *)
Lemma handleImageCrop_drops_later_layers : ¬ cropKeepsLaterLayers shirtAhead "X".
Proof.
  intros H. specialize (H 1 ltac:(vm_compute; reflexivity)).
  vm_compute in H. discriminate H.
Qed.

(** ** Background and lighting exclude each other *)

(** Snapshot invariants and the snapshot manager. *)
Section StackInvariant.
Variable P : AppStateSnapshot → Prop.

Lemma appAll_commit (s : AppStateSnapshot) (u : Updater) (a : App) :
  appAll P a → P s → (∀ h, P (u s h).1) → appAll P (updateStateWithHistory s u a).
Proof.
  intros (_ & Hundo & _) Hs Hnext. unfold appAll.
  rewrite updateStateWithHistory_state, updateStateWithHistory_undoStack,
          updateStateWithHistory_redoStack.
  split; [apply Hnext | split; [|constructor]].
  apply Forall_app. split; [exact Hundo | apply Forall_singleton; exact Hs].
Qed.

Lemma appAll_undo (a : App) : appAll P a → appAll P (handleUndo a).
Proof.
  intros Ha. pose proof Ha as (Hs & Hundo & Hredo).
  destruct (undoStack a) as [|x l _] eqn:E using rev_ind.
  - unfold handleUndo. rewrite E. exact Ha.
  - rewrite (handleUndo_push a x l E).
    apply Forall_app in Hundo as [Hl Hx]. apply Forall_inv in Hx.
    split; [exact Hx | split; [exact Hl |]]. cbn.
    apply Forall_app. split; [exact Hredo | apply Forall_singleton; exact Hs].
Qed.

Lemma appAll_redo (a : App) : appAll P a → appAll P (handleRedo a).
Proof.
  intros Ha. pose proof Ha as (Hs & Hundo & Hredo).
  destruct (redoStack a) as [|x l _] eqn:E using rev_ind.
  - unfold handleRedo. rewrite E. exact Ha.
  - rewrite (handleRedo_push a x l E).
    apply Forall_app in Hredo as [Hl Hx]. apply Forall_inv in Hx.
    split; [exact Hx | split; [| exact Hl]]. cbn.
    apply Forall_app. split; [exact Hundo | apply Forall_singleton; exact Hs].
Qed.

(** Setting a cell outside the snapshot and the stacks keeps the invariant. *)
Lemma appAll_frame (a b : App) :
  state b = state a → undoStack b = undoStack a → redoStack b = redoStack a →
  appAll P a → appAll P b.
Proof. unfold appAll. intros -> -> ->. auto. Qed.

Lemma appAll_endLoading (a : App) : appAll P a → appAll P (endLoading a).
Proof. apply appAll_frame; reflexivity. Qed.

(** The invariant does not look at the pose index. *)
Hypothesis P_pose : ∀ s i,
  P s → P (mkSnapshot (outfitHistory s) (currentOutfitIndex s) i
                      (activeBackground s) (activeLighting s)).

Lemma appAll_pose (a b : App) (i : Z) :
  state b = state a → undoStack b = undoStack a → redoStack b = redoStack a →
  appAll P a → appAll P (setCurrentPoseIndex i b).
Proof.
  unfold appAll, setCurrentPoseIndex. cbn. intros -> -> -> (Hs & Hundo & Hredo).
  auto.
Qed.
End StackInvariant.

Lemma modifiersExclusive_pose (s : AppStateSnapshot) (i : Z) :
  modifiersExclusive s →
  modifiersExclusive (mkSnapshot (outfitHistory s) (currentOutfitIndex s) i
                                 (activeBackground s) (activeLighting s)).
Proof. auto. Qed.

Ltac case_updater :=
  repeat match goal with
         | |- context [match ?x with _ => _ end] => destruct x
         end.

(** Every updater that sets the modifiers yields an exclusive pair. *)
Lemma updaters_exclusive (s : AppStateSnapshot) (h : Store) :
  modifiersExclusive s →
  modifiersExclusive (reselectGarment s h).1
  ∧ (∀ g image, modifiersExclusive (appendGarment g image s h).1)
  ∧ (∀ index, modifiersExclusive (revertTo index s h).1)
  ∧ (∀ newIndex, modifiersExclusive (switchPose newIndex s h).1)
  ∧ (∀ newIndex image, modifiersExclusive (storePose newIndex image s h).1)
  ∧ (∀ index image, modifiersExclusive (replaceBaseAt index image s h).1)
  ∧ modifiersExclusive (resetBackground s h).1
  ∧ modifiersExclusive (resetLighting s h).1
  ∧ (∀ key prompt image, modifiersExclusive (storeBackground key prompt image s h).1)
  ∧ (∀ key prompt image, modifiersExclusive (storeLighting key prompt image s h).1)
  ∧ (∀ image, modifiersExclusive (cropCurrent image s h).1).
Proof.
  intros Hs.
  repeat split; intros;
    unfold reselectGarment, appendGarment, revertTo, switchPose, storePose,
           replaceBaseAt, resetBackground, resetLighting, storeBackground,
           storeLighting, cropCurrent, modifiersExclusive;
    case_updater; cbn; auto.
Qed.

Lemma handle_exclusive (e : Event) (a : App) :
  appExclusive a →
  match handle e a with
  | Returned a' | Threw a' => appExclusive a'
  | Awaiting a' _ k => appExclusive a' ∧ modifiersExclusive (captured k)
  end.
Proof.
  intros Ha. pose proof Ha as (Hs & Hundo & Hredo).
  pose proof (fun h => updaters_exclusive (state a) h Hs) as Hu.
  destruct e; cbn [handle].
  - (* model finalized *)
    unfold handleModelFinalized. destruct (freshLayer _ _ _ _).
    split; [exact Hs | split; constructor].
  - split; [left; reflexivity | split; constructor].
  - unfold handleGarmentSelect, getCurrentStateSnapshot.
    destruct (_ || _); [exact Ha|].
    destruct (sameGarment _ _).
    + apply (appAll_commit modifiersExclusive); auto. intros h. apply Hu.
    + split; [|exact Hs]. eapply (appAll_frame modifiersExclusive); eauto.
  - apply (appAll_commit modifiersExclusive); auto. intros h. apply Hu.
  - unfold handlePoseSelect, getCurrentStateSnapshot.
    destruct (_ || _); [exact Ha|].
    destruct (js_index _ _); [|exact Ha].
    destruct (truthy (obj_get _ _)).
    + apply (appAll_commit modifiersExclusive); auto. intros h. apply Hu.
    + destruct (negb _); [exact Ha|].
      split; [|exact Hs]. eapply (appAll_pose modifiersExclusive modifiersExclusive_pose); eauto.
  - unfold handleColorChangeAtIndex, getCurrentStateSnapshot.
    destruct (editBaseImage _ _); [|exact Ha].
    destruct (_ || _); [exact Ha|].
    split; [|exact Hs]. eapply (appAll_frame modifiersExclusive); eauto.
  - unfold handleBackgroundChange, getCurrentStateSnapshot.
    destruct (isLoading a); [exact Ha|].
    destruct (String.eqb _ _).
    + apply (appAll_commit modifiersExclusive); auto. intros h. apply Hu.
    + destruct (negb _).
      * eapply (appAll_frame modifiersExclusive); eauto.
      * split; [|exact Hs]. eapply (appAll_frame modifiersExclusive); eauto.
  - unfold handleLightingChange, getCurrentStateSnapshot.
    destruct (isLoading a); [exact Ha|].
    destruct (String.eqb _ _).
    + apply (appAll_commit modifiersExclusive); auto. intros h. apply Hu.
    + destruct (negb _).
      * eapply (appAll_frame modifiersExclusive); eauto.
      * split; [|exact Hs]. eapply (appAll_frame modifiersExclusive); eauto.
  - unfold handleMagicWandEditAtIndex, getCurrentStateSnapshot.
    destruct (editBaseImage _ _); [|exact Ha].
    destruct (_ || _); [exact Ha|].
    split; [|exact Hs]. eapply (appAll_frame modifiersExclusive); eauto.
  - unfold handleGenerateLookbook, getCurrentStateSnapshot.
    destruct (_ || _); [eapply (appAll_frame modifiersExclusive); eauto|].
    destruct (_ <? _)%nat.
    + split; [|exact Hs]. eapply (appAll_frame modifiersExclusive); eauto.
    + eapply (appAll_frame modifiersExclusive); eauto.
  - eapply (appAll_frame modifiersExclusive); eauto.
  - unfold handleOpenCropModal. destruct (truthy _); [|exact Ha].
    eapply (appAll_frame modifiersExclusive); eauto.
  - unfold handleImageCrop, getCurrentStateSnapshot.
    destruct (String.eqb _ _); [eapply (appAll_frame modifiersExclusive); eauto|].
    apply (appAll_commit modifiersExclusive); auto. intros h. apply Hu.
  - apply appAll_undo, Ha.
  - apply appAll_redo, Ha.
Qed.

Lemma resume_exclusive (k : Pending) (r : RemoteResult) (a : App) :
  appExclusive a → modifiersExclusive (captured k) → appExclusive (resume k r a).
Proof.
  intros Ha Hk.
  pose proof (fun h => updaters_exclusive (captured k) h Hk) as Hu.
  unfold resume. cbv zeta.
  destruct (rest k) as [g | newIndex | index | prompt | prompt | index | ];
    destruct r as [image | err];
    try destruct (js_index _ _);
    apply appAll_endLoading;
    first
      [ apply (appAll_commit modifiersExclusive); [exact Ha | exact Hk | intros h; apply Hu]
      | apply (appAll_frame modifiersExclusive a); [reflexivity | reflexivity | reflexivity | exact Ha]
      | apply (appAll_pose modifiersExclusive modifiersExclusive_pose a); [reflexivity | reflexivity | reflexivity | exact Ha]
      | (* garment applied: the wardrobe is merged after the commit *)
        eapply (appAll_frame modifiersExclusive);
        [| | | apply ((appAll_commit modifiersExclusive) (captured k) (appendGarment g image) a Ha Hk);
               intros h; apply Hu]; reflexivity ].
Qed.

Lemma step_exclusive (c : Config) (i : Input) :
  configExclusive c → configExclusive (step c i).
Proof.
  intros [Ha Hk]. destruct i as [e | n r]; cbn [step].
  - pose proof (handle_exclusive e (app c) Ha) as H.
    destruct (handle e (app c)); split; cbn; try tauto.
    apply Forall_app. split; [exact Hk | apply Forall_singleton; tauto].
  - destruct (inflight c !! n) as [k|] eqn:E; [|split; assumption].
    split; cbn.
    + apply resume_exclusive; [exact Ha|].
      eapply Forall_lookup_1 in Hk; eauto.
    + apply Forall_delete, Hk.
Qed.

Lemma run_exclusive (inputs : list Input) (c : Config) :
  configExclusive c → configExclusive (run c inputs).
Proof.
  revert c. induction inputs as [|i inputs IH]; intros c Hc; [exact Hc|].
  cbn. apply IH, step_exclusive, Hc.
Qed.

Lemma baseImage_layer_present (a : App) :
  truthy (baseImageForModification a) = true →
  ∃ layer, js_index (outfitHistory (state a)) (currentOutfitIndex (state a)) = Some layer.
Proof.
  unfold baseImageForModification.
  destruct (js_index _ _) as [layer|]; [eauto | discriminate].
Qed.

(** C4: in every state reachable from the freshly mounted component by
    user events and settling remote calls, activeBackground and
    activeLighting are not both different from "Default"; a successful
    non-default background change sets activeLighting to "Default", a
    successful non-default lighting change sets activeBackground to
    "Default", and selecting "Default" for one modifier resets that
    modifier and leaves the other as it was. *)
Theorem modifiers_mutually_exclusive :
  (∀ inputs, modifiersExclusive (state (app (run initialConfig inputs))))
  ∧ (∀ a prompt image,
       isLoading a = false → prompt ≠ "Default" →
       truthy (baseImageForModification a) = true →
       ∃ a1 call k,
         handleBackgroundChange prompt a = Awaiting a1 call k
         ∧ activeBackground (state (resume k (Resolved image) a1)) = prompt
         ∧ activeLighting (state (resume k (Resolved image) a1)) = "Default")
  ∧ (∀ a prompt image,
       isLoading a = false → prompt ≠ "Default" →
       truthy (baseImageForModification a) = true →
       ∃ a1 call k,
         handleLightingChange prompt a = Awaiting a1 call k
         ∧ activeLighting (state (resume k (Resolved image) a1)) = prompt
         ∧ activeBackground (state (resume k (Resolved image) a1)) = "Default")
  ∧ (∀ a, isLoading a = false →
       ∃ a', handleBackgroundChange "Default" a = Returned a'
             ∧ activeBackground (state a') = "Default"
             ∧ activeLighting (state a') = activeLighting (state a))
  ∧ (∀ a, isLoading a = false →
       ∃ a', handleLightingChange "Default" a = Returned a'
             ∧ activeLighting (state a') = "Default"
             ∧ activeBackground (state a') = activeBackground (state a)).
Proof.
  split; [|split; [|split; [|split]]].
  - intros inputs.
    assert (Hinit : configExclusive initialConfig).
    { split; [split; [left; reflexivity | split; constructor] | constructor]. }
    apply (run_exclusive inputs) in Hinit. apply Hinit.
  - intros a prompt image Hbusy Hprompt Hbase.
    destruct (baseImage_layer_present a Hbase) as [layer Hlayer].
    unfold handleBackgroundChange. rewrite Hbusy, Hbase.
    destruct (String.eqb_spec prompt "Default"); [contradiction|].
    cbn [negb]. do 3 eexists. split; [reflexivity|].
    unfold resume. cbn [rest captured]. unfold endLoading, getCurrentStateSnapshot.
    cbn [state setLoadingMessage setIsLoading].
    rewrite updateStateWithHistory_state. unfold storeBackground. rewrite Hlayer.
    destruct (backgroundModifiedImages layer); cbn; auto.
  - intros a prompt image Hbusy Hprompt Hbase.
    destruct (baseImage_layer_present a Hbase) as [layer Hlayer].
    unfold handleLightingChange. rewrite Hbusy, Hbase.
    destruct (String.eqb_spec prompt "Default"); [contradiction|].
    cbn [negb]. do 3 eexists. split; [reflexivity|].
    unfold resume. cbn [rest captured]. unfold endLoading, getCurrentStateSnapshot.
    cbn [state setLoadingMessage setIsLoading].
    rewrite updateStateWithHistory_state. unfold storeLighting. rewrite Hlayer.
    destruct (lightingModifiedImages layer); cbn; auto.
  - intros a Hbusy. unfold handleBackgroundChange. rewrite Hbusy. cbn.
    eexists. split; [reflexivity|]. split; reflexivity.
  - intros a Hbusy. unfold handleLightingChange. rewrite Hbusy. cbn.
    eexists. split; [reflexivity|]. split; reflexivity.
Qed.

Lemma modifiers_mutually_exclusive_witness :
  modifiersExclusive
    (state (app (run initialConfig
       [User (ModelFinalized "A");
        User (LightingChange "Bright studio lighting"); Settle 0 (Resolved "L");
        User (BackgroundChange "Studio Background"); Settle 0 (Resolved "S")])))
  ∧ (∃ a1 call k,
       handleBackgroundChange "Studio Background" (app litUp) = Awaiting a1 call k
       ∧ activeBackground (state (resume k (Resolved "S") a1)) = "Studio Background"
       ∧ activeLighting (state (resume k (Resolved "S") a1)) = "Default")
  ∧ (∃ a', handleLightingChange "Default" (app litUp) = Returned a'
           ∧ activeLighting (state a') = "Default"
           ∧ activeBackground (state a') = activeBackground (state (app litUp))).
Proof.
  destruct modifiers_mutually_exclusive as (Hreach & Hbg & _ & _ & Hlit).
  split; [apply Hreach|]. split.
  - apply (Hbg (app litUp) "Studio Background" "S");
      [reflexivity | discriminate | reflexivity].
  - apply (Hlit (app litUp)). reflexivity.
Defined.

(** ** The active layers under apply-garment and revert *)

Lemma head_take_pos {A} (l : list A) (n : nat) :
  (0 < n)%nat → head (take n l) = head l.
Proof. destruct n; [lia|]. destruct l; reflexivity. Qed.

Lemma head_app_nonempty {A} (l1 l2 : list A) :
  l1 ≠ [] → head (l1 ++ l2) = head l1.
Proof. destruct l1; [contradiction | reflexivity]. Qed.

Lemma wornFrom_active (base : OutfitLayer) (s : AppStateSnapshot) :
  wornFrom base s →
  head (activeOutfitLayers s) = Some base
  ∧ Z.of_nat (length (activeOutfitLayers s)) = currentOutfitIndex s + 1.
Proof.
  intros [Hhead Hcur]. unfold activeOutfitLayers.
  rewrite js_slice0_nonneg by lia. split.
  - rewrite head_take_pos by lia. exact Hhead.
  - rewrite length_take. lia.
Qed.

Lemma appendGarment_wornFrom (base : OutfitLayer) (g : WardrobeItem) (image : string)
    (s : AppStateSnapshot) (h : Store) :
  wornFrom base s → wornFrom base (appendGarment g image s h).1.
Proof.
  intros Hs. destruct (wornFrom_active base s Hs) as [Hhead Hlen].
  unfold appendGarment. destruct (freshLayer _ _ _ _) as [newLayer h'].
  fold (activeOutfitLayers s). unfold wornFrom.
  cbn [fst outfitHistory currentOutfitIndex]. split.
  - rewrite head_app_nonempty; [exact Hhead|].
    intros E. rewrite E in Hhead. discriminate.
  - rewrite length_app. simpl. lia.
Qed.

Lemma sameGarment_present (nextLayer : option OutfitLayer) (g : WardrobeItem) :
  sameGarment nextLayer g = true → ∃ layer, nextLayer = Some layer.
Proof. destruct nextLayer; [eauto | discriminate]. Qed.

Lemma wearStep_invariant (base : OutfitLayer) (c c' : Config) (i : WearInput) :
  wearInvariant base c → wearStep c i = Some c' → wearInvariant base c'.
Proof.
  intros [Ha Hk] Hstep. destruct i as [file g | n r | index]; cbn in Hstep.
  - (* apply garment *)
    injection Hstep as <-. unfold handleGarmentSelect, getCurrentStateSnapshot.
    destruct (_ || _); [split; assumption|].
    destruct (sameGarment _ _) eqn:Esame.
    + split; [|exact Hk]. cbn [app].
      rewrite updateStateWithHistory_state. unfold reselectGarment.
      unfold wornFrom. cbn [fst outfitHistory currentOutfitIndex].
      apply sameGarment_present in Esame as [layer Hlayer].
      apply js_index_lt in Hlayer. destruct Ha as [Hhead Hcur].
      split; [exact Hhead | lia].
    + split; [exact Ha|]. cbn [inflight].
      apply Forall_app. split; [exact Hk|].
      apply Forall_singleton. split; [exact Ha | eauto].
  - (* the remote call settles *)
    injection Hstep as <-.
    destruct (inflight c !! n) as [k|] eqn:E; [|split; assumption].
    split; [|apply Forall_delete, Hk].
    eapply Forall_lookup_1 in Hk as [Hcapt [g Hrest]]; [|exact E].
    cbn [app]. unfold resume. rewrite Hrest. destruct r as [image | err].
    + cbn [state endLoading setLoadingMessage setIsLoading setWardrobe].
      rewrite updateStateWithHistory_state. apply appendGarment_wornFrom, Hcapt.
    + exact Ha.
  - (* revert to an existing layer *)
    destruct (revertTargetExists (app c) index) eqn:Etarget; [|discriminate].
    injection Hstep as <-. split; [|exact Hk].
    cbn [step handle app]. unfold handleRevertToLayer, getCurrentStateSnapshot.
    unfold wornFrom. cbn [state applyStateSnapshot outfitHistory currentOutfitIndex].
    unfold revertTargetExists in Etarget.
    apply andb_true_iff in Etarget as [Hpos Hle].
    apply Z.ltb_lt in Hpos. apply Z.leb_le in Hle.
    destruct Ha as [Hhead Hcur].
    rewrite js_slice0_nonneg by lia. split.
    + rewrite head_take_pos by lia. exact Hhead.
    + rewrite length_take. lia.
Qed.

Lemma wearRun_invariant (base : OutfitLayer) (inputs : list WearInput) (c c' : Config) :
  wearInvariant base c → wearRun c inputs = Some c' → wearInvariant base c'.
Proof.
  revert c. induction inputs as [|i inputs IH]; intros c Hc Hrun; cbn in Hrun.
  - injection Hrun as <-. exact Hc.
  - destruct (wearStep c i) as [c1|] eqn:E; [|discriminate].
    eapply IH; [|exact Hrun]. eapply wearStep_invariant; eauto.
Qed.

(** C6: from a state whose history is the base layer alone (garment
    null) with the cursor on it, after any sequence of apply-garment
    requests, settlements of their remote calls and revert-to-layer
    requests that name an existing layer to go back to, the active layers
    history[0..cursor] start with that base layer and number exactly
    cursor + 1. *)
Theorem activeOutfitLayers_prefix
    (a : App) (base : OutfitLayer) (inputs : list WearInput) (c : Config) :
  outfitHistory (state a) = [base] →
  garment base = None →
  currentOutfitIndex (state a) = 0 →
  wearRun (mkConfig a []) inputs = Some c →
  head (activeOutfitLayers (state (app c))) = Some base
  ∧ Z.of_nat (length (activeOutfitLayers (state (app c))))
    = currentOutfitIndex (state (app c)) + 1.
Proof.
  intros Hhist _ Hcur Hrun.
  assert (Hinit : wearInvariant base (mkConfig a [])).
  { split; [|constructor]. split; cbn; rewrite Hhist, ?Hcur; cbn; [reflexivity | lia]. }
  apply (wearRun_invariant base inputs _ c Hinit) in Hrun as [Hworn _].
  apply wornFrom_active, Hworn.
Qed.

Lemma activeOutfitLayers_prefix_witness :
  let c := run afterModel
             [User (GarmentSelect "shirt.png" shirt); Settle 0 (Resolved "B");
              User (GarmentSelect "scarf.png" scarf); Settle 0 (Resolved "D");
              User (RevertToLayer 1)] in
  head (activeOutfitLayers (state (app c)))
    = Some (mkLayer None 0%nat (Some 1%nat) (Some 2%nat))
  ∧ Z.of_nat (length (activeOutfitLayers (state (app c))))
    = currentOutfitIndex (state (app c)) + 1.
Proof.
  intros c.
  apply (activeOutfitLayers_prefix (app afterModel)
           (mkLayer None 0%nat (Some 1%nat) (Some 2%nat))
           [Apply "shirt.png" shirt; ApplySettles 0 (Resolved "B");
            Apply "scarf.png" scarf; ApplySettles 0 (Resolved "D");
            Revert 1] c);
    vm_compute; reflexivity.
Defined.

(** ** Failure of a remote call *)

Ltac split_guards H :=
  repeat match type of H with
         | context [if ?b then _ else _] => destruct b eqn:?
         | context [match ?x with _ => _ end] => destruct x eqn:?
         end;
  try discriminate H.

Lemma snapshot_eta (s : AppStateSnapshot) :
  mkSnapshot (outfitHistory s) (currentOutfitIndex s) (currentPoseIndex s)
             (activeBackground s) (activeLighting s) = s.
Proof. destruct s. reflexivity. Qed.

(** X23: a handler that suspends has captured the snapshot it was invoked
    on, and the layer its updater is going to read exists in that
    snapshot. *)
Lemma awaiting_layer_present
    (e : Event) (a a1 : App) (call : RemoteCall) (k : Pending) :
  handle e a = Awaiting a1 call k →
  captured k = state a
  ∧ match rest k with
    | AfterPose _ | AfterBackground _ | AfterLighting _ =>
        is_Some (js_index (outfitHistory (state a)) (currentOutfitIndex (state a)))
    | AfterColor index | AfterMagicWand index =>
        is_Some (js_index (outfitHistory (state a)) index)
    | AfterTryOn _ | AfterLookbook => True
    end.
Proof.
  intros H.
  destruct e; cbn [handle] in H; try discriminate H;
    unfold handleGarmentSelect, handlePoseSelect, handleColorChangeAtIndex,
           handleBackgroundChange, handleLightingChange,
           handleMagicWandEditAtIndex, handleGenerateLookbook,
           editBaseImage, baseImageForModification in H;
    split_guards H; injection H as <- <- <-; cbn [captured rest];
    split; try reflexivity; try exact I;
    repeat match goal with
           | G : context [match ?x with _ => _ end] |- _ => destruct x eqn:?
           end;
    cbn in *; try discriminate; eauto.
Qed.

(** X24, without interference: when the remote call of an operation fails
    and the failure settles on the state the handler itself left, the snapshot
    cells, their content, the undo stack and the redo stack are what they
    were before the operation started; for pose selection the pose index,
    set to the requested index before the call, is back at its previous
    value. *)
Theorem failed_generation_is_atomic
    (e : Event) (a a1 : App) (call : RemoteCall) (k : Pending) (err : string) :
  handle e a = Awaiting a1 call k →
  state (resume k (Rejected err) a1) = state a
  ∧ currentView (resume k (Rejected err) a1) = currentView a
  ∧ undoStack (resume k (Rejected err) a1) = undoStack a
  ∧ redoStack (resume k (Rejected err) a1) = redoStack a
  ∧ (∀ newIndex, e = PoseSelect newIndex →
       currentPoseIndex (state a1) = newIndex
       ∧ currentPoseIndex (state (resume k (Rejected err) a1))
         = currentPoseIndex (state a)).
Proof.
  intros H.
  assert (Hcore : state (resume k (Rejected err) a1) = state a
                  ∧ store (resume k (Rejected err) a1) = store a
                  ∧ undoStack (resume k (Rejected err) a1) = undoStack a
                  ∧ redoStack (resume k (Rejected err) a1) = redoStack a
                  ∧ (∀ newIndex, e = PoseSelect newIndex →
                       currentPoseIndex (state a1) = newIndex)).
  { destruct e; cbn [handle] in H; try discriminate H;
      unfold handleGarmentSelect, handlePoseSelect, handleColorChangeAtIndex,
             handleBackgroundChange, handleLightingChange,
             handleMagicWandEditAtIndex, handleGenerateLookbook in H;
      split_guards H; injection H as <- <- <-; cbn;
      rewrite ?snapshot_eta; repeat split; try discriminate.
    intros i [= ->]. reflexivity. }
  destruct Hcore as (Hstate & Hstore & Hundo & Hredo & Hpose).
  repeat split; try assumption.
  - unfold currentView. rewrite Hstate, Hstore. reflexivity.
  - apply Hpose. assumption.
  - rewrite Hstate. reflexivity.
Qed.

Lemma failed_generation_is_atomic_witness :
  let k := mkPending (state (app afterShirt)) (AfterPose 1) in
  handle (PoseSelect 1) (app afterShirt)
    = Awaiting (app posing) (generatePoseVariation "B" (pose_at 1)) k
  ∧ state (resume k (Rejected "blocked") (app posing)) = state (app afterShirt)
  ∧ currentView (resume k (Rejected "blocked") (app posing)) = currentView (app afterShirt)
  ∧ undoStack (resume k (Rejected "blocked") (app posing)) = undoStack (app afterShirt)
  ∧ redoStack (resume k (Rejected "blocked") (app posing)) = redoStack (app afterShirt)
  ∧ (∀ newIndex, PoseSelect 1 = PoseSelect newIndex →
       currentPoseIndex (state (app posing)) = newIndex
       ∧ currentPoseIndex (state (resume k (Rejected "blocked") (app posing)))
         = currentPoseIndex (state (app afterShirt))).
Proof.
  intros k. split; [vm_compute; reflexivity|].
  apply (failed_generation_is_atomic (PoseSelect 1) (app afterShirt) (app posing)
           (generatePoseVariation "B" (pose_at 1)) k "blocked").
  vm_compute. reflexivity.
Defined.

(** On whatever live state a failure settles, the rest of the handler
    pushes nothing and leaves the history, the cursor, the modifiers and
    the stored images as they are; every handler but pose selection leaves
    the pose index too, and pose selection writes the index its closure
    captured before the call. *)
Lemma rejection_on_live_state (k : Pending) (err : string) (b : App) :
  outfitHistory (state (resume k (Rejected err) b)) = outfitHistory (state b)
  ∧ currentOutfitIndex (state (resume k (Rejected err) b)) = currentOutfitIndex (state b)
  ∧ activeBackground (state (resume k (Rejected err) b)) = activeBackground (state b)
  ∧ activeLighting (state (resume k (Rejected err) b)) = activeLighting (state b)
  ∧ store (resume k (Rejected err) b) = store b
  ∧ undoStack (resume k (Rejected err) b) = undoStack b
  ∧ redoStack (resume k (Rejected err) b) = redoStack b
  ∧ currentPoseIndex (state (resume k (Rejected err) b))
    = match rest k with
      | AfterPose _ => currentPoseIndex (captured k)
      | _ => currentPoseIndex (state b)
      end.
Proof. unfold resume. destruct (rest k); repeat split. Qed.

(** C8 on a session: the shirt is worn and shown in the pose with index
    1; the pose with index 2 is requested and goes to the generator; while
    the call is outstanding the shirt is removed from the outfit stack,
    whose button stays enabled and whose handler has no busy guard; then
    the call fails.  The revert had committed a one-layer history with
    pose index 0 (pushing the live snapshot, optimistic index 2 included,
    on the undo stack); the catch block of pose selection then writes the
    index 1 it captured before the call into that snapshot.  The snapshot
    after the failure is neither the one from before the operation nor
    the one the failure found. *)
Theorem failed_pose_after_revert_writes_stale_index :
  let before := run afterShirt [User (PoseSelect 1); Settle 0 (Resolved "C")] in
  let requested := step before (User (PoseSelect 2)) in
  let reverted := step requested (User (RevertToLayer 1)) in
  let failed := step reverted (Settle 0 (Rejected "quota")) in
  let base := mkLayer None 0%nat (Some 1%nat) (Some 2%nat) in
  let worn := mkLayer (Some shirt) 3%nat (Some 4%nat) (Some 5%nat) in
  state (app before) = mkSnapshot [base; worn] 1 1 "Default" "Default"
  ∧ isLoading (app requested) = true
  ∧ inflight requested = [mkPending (state (app before)) (AfterPose 2)]
  ∧ state (app requested) = mkSnapshot [base; worn] 1 2 "Default" "Default"
  ∧ revertTargetExists (app requested) 1 = true
  ∧ state (app reverted) = mkSnapshot [base] 0 0 "Default" "Default"
  ∧ undoStack (app reverted) = undoStack (app before) ++ [state (app requested)]
  ∧ state (app failed) = mkSnapshot [base] 0 1 "Default" "Default"
  ∧ undoStack (app failed) = undoStack (app before) ++ [state (app requested)]
  ∧ isLoading (app failed) = false
  ∧ inflight failed = []
  ∧ state (app failed) ≠ state (app before)
  ∧ state (app failed) ≠ state (app reverted).
Proof.
  cbv zeta.
  repeat match goal with
         | |- _ = _ ∧ _ => apply conj; [vm_compute; reflexivity|]
         end.
  apply conj; intros H; vm_compute in H; discriminate H.
Qed.

(** ** Undo, redo and what lies outside the snapshot *)

Lemma viewLayer_app (h fresh : Store) (layer : OutfitLayer) :
  layerClosed h layer → viewLayer (h ++ fresh) layer = viewLayer h layer.
Proof.
  intros (Hp & Hb & Hl). unfold viewLayer.
  rewrite deref_app_old by exact Hp.
  destruct (backgroundModifiedImages layer) as [b|];
    destruct (lightingModifiedImages layer) as [l|]; cbn;
    rewrite ?deref_app_old; auto.
Qed.

Lemma viewSnapshot_app (h fresh : Store) (s : AppStateSnapshot) :
  snapshotClosed h s → viewSnapshot (h ++ fresh) s = viewSnapshot h s.
Proof.
  intros Hclosed. unfold viewSnapshot. f_equal.
  apply Forall_fmap_ext_1. eapply Forall_impl; [exact Hclosed|].
  intros layer. apply viewLayer_app.
Qed.

Lemma handleUndo_wardrobe (a : App) : wardrobe (handleUndo a) = wardrobe a.
Proof.
  unfold handleUndo. destruct (_ =? _)%nat; [reflexivity|].
  destruct (js_last _); reflexivity.
Qed.

Lemma handleRedo_wardrobe (a : App) : wardrobe (handleRedo a) = wardrobe a.
Proof.
  unfold handleRedo. destruct (_ =? _)%nat; [reflexivity|].
  destruct (js_last _); reflexivity.
Qed.

Lemma mergeWardrobe_new (g : WardrobeItem) (items : list WardrobeItem) :
  (∀ item, item ∈ items → id item ≠ id g) → mergeWardrobe g items = items ++ [g].
Proof.
  intros Hnew. unfold mergeWardrobe.
  destruct (existsb _ items) eqn:E; [|reflexivity].
  apply existsb_exists in E as (item & Hin & Heq).
  apply String.eqb_eq in Heq. apply list_elem_of_In in Hin.
  destruct (Hnew item Hin Heq).
Qed.

(** C10: undo and redo never change the wardrobe; after an apply-garment
    whose remote call succeeded, an undo restores the snapshot cells
    (history, cursor, pose index, modifiers) of the state the operation
    started from, with every object of that state untouched, while the
    wardrobe keeps the merged garment. *)
Theorem wardrobe_outside_undo :
  (∀ a, wardrobe (handleUndo a) = wardrobe a ∧ wardrobe (handleRedo a) = wardrobe a)
  ∧ (∀ garmentFile g a a1 call k image,
       handleGarmentSelect garmentFile g a = Awaiting a1 call k →
       let a2 := resume k (Resolved image) a1 in
       let a3 := handleUndo a2 in
       state a3 = state a
       ∧ (∃ fresh, store a3 = store a ++ fresh)
       ∧ (snapshotClosed (store a) (state a) → currentView a3 = currentView a)
       ∧ wardrobe a2 = mergeWardrobe g (wardrobe a)
       ∧ wardrobe a3 = wardrobe a2
       ∧ ((∀ item, item ∈ wardrobe a → id item ≠ id g) →
            wardrobe a3 = wardrobe a ++ [g])).
Proof.
  split.
  - intros a. split; [apply handleUndo_wardrobe | apply handleRedo_wardrobe].
  - intros garmentFile g a a1 call k image H a2 a3.
    unfold handleGarmentSelect, getCurrentStateSnapshot in H. split_guards H.
    injection H as <- <- <-. subst a3 a2.
    unfold resume. cbn [rest captured].
    set (a1 := beginLoading (MsgTWith "app.loading.adding" (name g)) a).
    set (a2 := updateStateWithHistory (state a) (appendGarment g image) a1).
    set (a2' := endLoading (setWardrobe (mergeWardrobe g (wardrobe a2)) a2)).
    assert (Hundo : undoStack a2' = undoStack a ++ [state a]).
    { unfold a2', a2. cbn [undoStack endLoading setLoadingMessage setIsLoading setWardrobe].
      rewrite updateStateWithHistory_undoStack. reflexivity. }
    assert (Hstore : store a2' = store a ++ [[(pose_at 0, image)]; []; []]).
    { unfold a2', a2. cbn [store endLoading setLoadingMessage setIsLoading setWardrobe].
      rewrite updateStateWithHistory_store. unfold appendGarment.
      rewrite freshLayer_spec. reflexivity. }
    assert (Hward : wardrobe a2' = mergeWardrobe g (wardrobe a)).
    { unfold a2', a2. cbn [wardrobe endLoading setLoadingMessage setIsLoading setWardrobe].
      rewrite updateStateWithHistory_wardrobe. reflexivity. }
    rewrite (handleUndo_push a2' (state a) (undoStack a) Hundo).
    cbn [state store wardrobe applyStateSnapshot setUndoStack setRedoStack].
    rewrite Hstore, Hward.
    repeat split; eauto.
    + intros Hclosed. unfold currentView.
      cbn [state store applyStateSnapshot setUndoStack setRedoStack].
      rewrite Hstore. apply viewSnapshot_app, Hclosed.
    + apply mergeWardrobe_new.
Qed.

Lemma wardrobe_outside_undo_witness :
  let k := mkPending (state (app afterShirt)) (AfterTryOn scarf) in
  let a1 := beginLoading (MsgTWith "app.loading.adding" "Scarf") (app afterShirt) in
  let a3 := handleUndo (resume k (Resolved "D") a1) in
  state a3 = state (app afterShirt)
  ∧ currentView a3 = currentView (app afterShirt)
  ∧ wardrobe a3 = [shirt; scarf]
  ∧ wardrobe (handleRedo a3) = wardrobe a3.
Proof.
  intros k a1 a3.
  destruct wardrobe_outside_undo as [Hframe Hmerge].
  destruct (Hmerge "scarf.png" scarf (app afterShirt) a1
              (generateVirtualTryOnImage "B" "scarf.png" scarf) k "D")
    as (Hstate & _ & Hview & _ & _ & Hnew).
  { vm_compute. reflexivity. }
  split; [exact Hstate|]. split.
  - apply Hview. vm_compute.
    repeat (apply Forall_cons_2; [split; [lia | split; intros ? [= <-]; lia] |]).
    apply Forall_nil_2.
  - split; [|apply Hframe]. apply Hnew.
    intros item Hin. vm_compute in Hin.
    apply list_elem_of_In in Hin. destruct Hin as [<- | []]. discriminate.
Defined.

(** Undo right after a commit gives back the snapshot cells that the
    commit pushed; the store stays as the updater left it. *)
Lemma handleUndo_after_commit (s : AppStateSnapshot) (u : Updater) (a : App) :
  state (handleUndo (updateStateWithHistory s u a)) = s
  ∧ store (handleUndo (updateStateWithHistory s u a)) = (u s (store a)).2.
Proof.
  rewrite (handleUndo_push _ s (undoStack a))
    by apply updateStateWithHistory_undoStack.
  cbn [state store applyStateSnapshot setUndoStack setRedoStack].
  rewrite updateStateWithHistory_store. auto.
Qed.

(** C1 on a session: the model image "A" is accepted, the pose with
    index 1 is requested, the generator answers "C", then undo.  The
    snapshot cells are those from before the request, the very same
    references included, yet the base layer's poseImages object now holds
    the generated pose as well: the success updater of pose selection
    assigned into the object that the snapshot on the undo stack refers
    to. *)
Theorem undo_after_pose_generation_keeps_pose :
  let a := app afterModel in
  let k := mkPending (state a) (AfterPose 1) in
  let a1 := setCurrentPoseIndex 1 (beginLoading (MsgT "app.loading.posing") a) in
  let a3 := handleUndo (resume k (Resolved "C") a1) in
  handlePoseSelect 1 a = Awaiting a1 (generatePoseVariation "A" (pose_at 1)) k
  ∧ state a3 = state a
  ∧ viewHistory (currentView a)
    = [mkLayerView None [(pose_at 0, "A")] (Some []) (Some [])]
  ∧ viewHistory (currentView a3)
    = [mkLayerView None [(pose_at 0, "A"); (pose_at 1, "C")] (Some []) (Some [])]
  ∧ currentView a3 ≠ currentView a.
Proof.
  cbv zeta. repeat split; try (vm_compute; reflexivity).
  intros H. vm_compute in H. discriminate H.
Qed.

Lemma obj_get_set_eq (k v : string) (m : PoseMap) :
  obj_get k (obj_set k v m) = Some v.
Proof.
  induction m as [|[k' v'] m IH]; cbn.
  - rewrite String.eqb_refl. reflexivity.
  - destruct (String.eqb k k') eqn:E; cbn; rewrite E; [reflexivity | exact IH].
Qed.

Lemma deref_assign_same (r : Ref) (k v : string) (h : Store) :
  (r < length h)%nat → deref (assign r k v h) r = obj_set k v (deref h r).
Proof.
  intros Hr. unfold assign. unfold deref at 1.
  rewrite list_lookup_insert_eq by exact Hr. reflexivity.
Qed.

Lemma deref_nonempty_valid (h : Store) (r : Ref) :
  deref h r ≠ [] → (r < length h)%nat.
Proof.
  unfold deref. destruct (h !! r) eqn:E; [|contradiction].
  intros _. apply lookup_lt_Some in E. exact E.
Qed.

(** X17, the defect in general: whenever pose selection goes to the
    generator and the call succeeds, an undo restores the snapshot cells,
    but the current layer's poseImages object, which had no usable entry
    for the requested pose, keeps the generated image. *)
Lemma undo_after_pose_generation
    (newIndex : Z) (image : string) (a a1 : App) (call : RemoteCall) (k : Pending) :
  handlePoseSelect newIndex a = Awaiting a1 call k →
  let a3 := handleUndo (resume k (Resolved image) a1) in
  state a3 = state a
  ∧ ∃ layer,
      js_index (outfitHistory (state a)) (currentOutfitIndex (state a)) = Some layer
      ∧ truthy (obj_get (pose_at newIndex) (deref (store a) (poseImages layer))) = false
      ∧ obj_get (pose_at newIndex) (deref (store a3) (poseImages layer)) = Some image.
Proof.
  intros H a3. subst a3.
  unfold handlePoseSelect, getCurrentStateSnapshot in H.
  destruct (_ || _); [discriminate|].
  destruct (js_index _ _) as [layer|] eqn:Hlayer; [|discriminate].
  destruct (truthy (obj_get _ _)) eqn:Hcached; [discriminate|].
  destruct (negb _) eqn:Hbase; [discriminate|].
  injection H as <- <- <-.
  unfold resume. cbn [rest captured]. rewrite Hlayer.
  set (a1 := setCurrentPoseIndex newIndex (beginLoading (MsgT "app.loading.posing") a)).
  set (a2 := endLoading (updateStateWithHistory (state a) (storePose newIndex image) a1)).
  assert (Hundo : undoStack a2 = undoStack a ++ [state a]).
  { unfold a2. cbn [undoStack endLoading setLoadingMessage setIsLoading].
    rewrite updateStateWithHistory_undoStack. reflexivity. }
  assert (Hstore : store a2
                   = assign (poseImages layer) (pose_at newIndex) image (store a)).
  { unfold a2. cbn [store endLoading setLoadingMessage setIsLoading].
    rewrite updateStateWithHistory_store. unfold storePose. rewrite Hlayer.
    reflexivity. }
  rewrite (handleUndo_push a2 (state a) (undoStack a) Hundo).
  cbn [state store applyStateSnapshot setUndoStack setRedoStack].
  split; [reflexivity|]. exists layer. split; [reflexivity|]. split; [exact Hcached|].
  rewrite Hstore, deref_assign_same; [apply obj_get_set_eq|].
  apply deref_nonempty_valid. intros E. rewrite E in Hbase. discriminate Hbase.
Qed.

(** The same sharing on the background cache: after a background change
    and an undo, the shirt layer's backgroundModifiedImages still holds
    the generated image. *)
Lemma undo_after_background_keeps_entry :
  let a3 := app (run afterShirt [User (BackgroundChange "Studio Background");
                                 Settle 0 (Resolved "S"); User Undo]) in
  state a3 = state (app afterShirt)
  ∧ viewBackgroundModifiedImages <$> last (viewHistory (currentView (app afterShirt)))
    = Some (Some [])
  ∧ viewBackgroundModifiedImages <$> last (viewHistory (currentView a3))
    = Some (Some [(pose_at 0, "S")]).
Proof. cbv zeta. repeat split; vm_compute; reflexivity. Qed.

(** ** The busy gate *)

(** C7, as the code has it: while a generation is in flight, apply
    garment, pose select, colour change, background change, lighting
    change and magic-wand edit change nothing and issue no remote call;
    lookbook generation issues no remote call either and changes no other
    cell than the template dialog flag, which it clears, and the error
    message, which it sets. *)
Theorem busy_gate (a : App) :
  isLoading a = true →
  (∀ garmentFile g, handleGarmentSelect garmentFile g a = Returned a)
  ∧ (∀ newIndex, handlePoseSelect newIndex a = Returned a)
  ∧ (∀ index newColor, ignored (handleColorChangeAtIndex index newColor a) a)
  ∧ (∀ prompt, handleBackgroundChange prompt a = Returned a)
  ∧ (∀ prompt, handleLightingChange prompt a = Returned a)
  ∧ (∀ index instruction, ignored (handleMagicWandEditAtIndex index instruction a) a)
  ∧ (∀ templatePrompt,
       handleGenerateLookbook templatePrompt a
       = Returned (setError (Some (MsgT "app.error.lookbook.addGarment"))
                            (setIsLookbookTemplateModalOpen false a))).
Proof.
  intros Hbusy. repeat split; intros;
    unfold handleGarmentSelect, handlePoseSelect, handleColorChangeAtIndex,
           handleBackgroundChange, handleLightingChange,
           handleMagicWandEditAtIndex, handleGenerateLookbook, ignored;
    rewrite ?Hbusy, ?orb_true_r; cbn [orb]; try reflexivity.
  - destruct (editBaseImage a index); [|auto]. rewrite orb_true_r. auto.
  - destruct (editBaseImage a index); [|auto]. rewrite orb_true_r. auto.
Qed.

Lemma busy_gate_witness :
  (∀ garmentFile g, handleGarmentSelect garmentFile g (app posing) = Returned (app posing))
  ∧ handlePoseSelect 2 (app posing) = Returned (app posing)
  ∧ ignored (handleColorChangeAtIndex 1 "#EF4444" (app posing)) (app posing)
  ∧ handleGenerateLookbook "Film Strip" (app posing)
    = Returned (setError (Some (MsgT "app.error.lookbook.addGarment"))
                         (setIsLookbookTemplateModalOpen false (app posing))).
Proof.
  destruct (busy_gate (app posing)) as (Hg & Hp & Hc & _ & _ & _ & Hl);
    [reflexivity|].
  split; [exact Hg|]. split; [apply Hp|]. split; [apply Hc | apply Hl].
Defined.

(** C7 as stated fails: while the pose is still being generated, a crop
    request commits a new snapshot, and a lookbook request changes the
    error message. *)
Lemma busy_gate_counterexample :
  isLoading (app posing) = true
  ∧ ¬ busyGate (ImageCrop "X") (app posing)
  ∧ ¬ busyGate (GenerateLookbook "Film Strip") (app posing).
Proof.
  split; [reflexivity|]. split; intros H;
    destruct (H eq_refl) as [E | E]; vm_compute in E; discriminate E.
Qed.

(** ** No layer lies beyond the cursor

    Layers beyond the cursor would be needed for the reselection branch of
    [handleGarmentSelect] to run and for crop to drop anything.  No run of
    the component produces such a state, as long as every revert names
    an existing layer to go back to, which the rows of the outfit stack
    do ([revertOffered_target]). *)

Lemma cursorOnLast_next_absent (s : AppStateSnapshot) :
  cursorOnLast s → js_index (outfitHistory s) (currentOutfitIndex s + 1) = None.
Proof.
  intros [[Hpos Hlen] | [Hnil Hcur]].
  - apply js_index_None_ge. lia.
  - rewrite Hnil. unfold js_index. destruct (0 <=? _); reflexivity.
Qed.

Lemma cursorOnLast_snoc (prefix : list OutfitLayer) (x : OutfitLayer)
    (p : Z) (b l : string) :
  cursorOnLast (mkSnapshot (prefix ++ [x]) (Z.of_nat (length prefix)) p b l).
Proof.
  left. cbn [outfitHistory currentOutfitIndex].
  rewrite length_app. cbn [length]. lia.
Qed.

Lemma cursorOnLast_replace (s : AppStateSnapshot) (index : Z) :
  is_Some (js_index (outfitHistory s) index) →
  ∀ x p b l, cursorOnLast (mkSnapshot (js_slice0 (outfitHistory s) index ++ [x]) index p b l).
Proof.
  intros [layer Hlayer] x p b l. apply js_index_lt in Hlayer.
  rewrite <- (js_slice0_length (outfitHistory s) index) at 2 by lia.
  apply cursorOnLast_snoc.
Qed.

Lemma cursorOnLast_same_shape (s s' : AppStateSnapshot) :
  length (outfitHistory s') = length (outfitHistory s) →
  currentOutfitIndex s' = currentOutfitIndex s →
  cursorOnLast s → cursorOnLast s'.
Proof.
  intros Hlen Hcur [H | [Hnil H0]]; [left | right].
  - rewrite Hlen, Hcur. exact H.
  - rewrite Hcur. split; [|exact H0].
    rewrite Hnil in Hlen. destruct (outfitHistory s'); [reflexivity | discriminate].
Qed.

Lemma cursorOnLast_crop (s : AppStateSnapshot) (x : OutfitLayer) (b l : string) :
  cursorOnLast s →
  cursorOnLast (mkSnapshot (js_slice0 (outfitHistory s) (currentOutfitIndex s) ++ [x])
                           (currentOutfitIndex s) (currentPoseIndex s) b l).
Proof.
  intros [[Hpos Hlen] | [Hnil Hcur]].
  - rewrite <- (js_slice0_length (outfitHistory s) (currentOutfitIndex s)) at 2 by lia.
    apply cursorOnLast_snoc.
  - rewrite Hnil, Hcur. left. split; [reflexivity | reflexivity].
Qed.

Lemma updaters_onLast (s : AppStateSnapshot) (h : Store) :
  cursorOnLast s →
  (∀ g image, cursorOnLast (appendGarment g image s h).1)
  ∧ (∀ newIndex, cursorOnLast (switchPose newIndex s h).1)
  ∧ (∀ newIndex image, cursorOnLast (storePose newIndex image s h).1)
  ∧ (∀ index image, is_Some (js_index (outfitHistory s) index) →
                    cursorOnLast (replaceBaseAt index image s h).1)
  ∧ cursorOnLast (resetBackground s h).1
  ∧ cursorOnLast (resetLighting s h).1
  ∧ (∀ key prompt image, cursorOnLast (storeBackground key prompt image s h).1)
  ∧ (∀ key prompt image, cursorOnLast (storeLighting key prompt image s h).1)
  ∧ (∀ image, cursorOnLast (cropCurrent image s h).1).
Proof.
  intros Hs. repeat split; intros.
  - unfold appendGarment. destruct (freshLayer _ _ _ _). apply cursorOnLast_snoc.
  - eapply cursorOnLast_same_shape; [| |exact Hs]; reflexivity.
  - unfold storePose. destruct (js_index _ _); [|exact Hs].
    eapply cursorOnLast_same_shape; [| |exact Hs]; [apply length_insert | reflexivity].
  - unfold replaceBaseAt. destruct (replacedBaseLayer _ _ _ _).
    apply cursorOnLast_replace. assumption.
  - eapply cursorOnLast_same_shape; [| |exact Hs]; reflexivity.
  - eapply cursorOnLast_same_shape; [| |exact Hs]; reflexivity.
  - unfold storeBackground. destruct (js_index _ _); [|exact Hs].
    destruct (backgroundModifiedImages _); cbn [fst alloc];
      (eapply cursorOnLast_same_shape; [| |exact Hs]; [apply length_insert | reflexivity]).
  - unfold storeLighting. destruct (js_index _ _); [|exact Hs].
    destruct (lightingModifiedImages _); cbn [fst alloc];
      (eapply cursorOnLast_same_shape; [| |exact Hs]; [apply length_insert | reflexivity]).
  - unfold cropCurrent. destruct (replacedBaseLayer _ _ _ _). apply cursorOnLast_crop, Hs.
Qed.

Lemma cursorOnLast_pose (s : AppStateSnapshot) (i : Z) :
  cursorOnLast s →
  cursorOnLast (mkSnapshot (outfitHistory s) (currentOutfitIndex s) i
                           (activeBackground s) (activeLighting s)).
Proof. apply cursorOnLast_same_shape; reflexivity. Qed.

Lemma cursorOnLast_revert (a : App) (index : Z) (h : Store) :
  revertTargetExists a index = true → cursorOnLast (revertTo index (state a) h).1.
Proof.
  intros Htarget. unfold revertTargetExists in Htarget.
  apply andb_true_iff in Htarget as [Hpos Hle].
  apply Z.ltb_lt in Hpos. apply Z.leb_le in Hle.
  unfold revertTo. cbn [fst]. left. cbn [outfitHistory currentOutfitIndex].
  rewrite js_slice0_nonneg, length_take by lia. lia.
Qed.

(** The rows that show the remove button name an existing layer. *)
Lemma revertOffered_target (a : App) (index : Z) :
  revertOffered a index = true → revertTargetExists a index = true.
Proof.
  unfold revertOffered, revertTargetExists, activeOutfitLayers, js_slice0.
  intros [Hpos Hlt]%andb_true_iff. rewrite Hpos. cbn [andb].
  apply Z.ltb_lt in Hlt. apply Z.leb_le.
  destruct (_ <? 0); rewrite length_take in Hlt; lia.
Qed.

Lemma editBaseImage_present (a : App) (index : Z) (base : option string) :
  editBaseImage a index = Some base →
  is_Some (js_index (outfitHistory (state a)) index).
Proof.
  unfold editBaseImage. destruct (js_index _ _); [eauto | discriminate].
Qed.

Lemma handle_onLast (e : Event) (a : App) :
  appAll cursorOnLast a → offered a e = true →
  match handle e a with
  | Returned a' | Threw a' => appAll cursorOnLast a'
  | Awaiting a' _ k => appAll cursorOnLast a' ∧ pendingOnLast k
  end.
Proof.
  intros Ha Hoffer. pose proof Ha as (Hs & Hundo & Hredo).
  pose proof (fun h => updaters_onLast (state a) h Hs) as Hu.
  destruct e; cbn [handle offered] in *.
  - unfold handleModelFinalized. destruct (freshLayer _ _ _ _).
    split; [left; split; [reflexivity | reflexivity] | split; constructor].
  - split; [right; split; reflexivity | split; constructor].
  - unfold handleGarmentSelect, getCurrentStateSnapshot.
    destruct (_ || _); [exact Ha|].
    rewrite (cursorOnLast_next_absent _ Hs). cbn [sameGarment].
    split; [|split; [exact Hs | exact I]].
    eapply (appAll_frame cursorOnLast); eauto.
  - apply appAll_commit; auto; intros h; apply cursorOnLast_revert; assumption.
  - unfold handlePoseSelect, getCurrentStateSnapshot.
    destruct (_ || _); [exact Ha|].
    destruct (js_index _ _); [|exact Ha].
    destruct (truthy (obj_get _ _)).
    + apply appAll_commit; auto; intros h; apply Hu.
    + destruct (negb _); [exact Ha|].
      split; [|split; [exact Hs | exact I]].
      eapply (appAll_pose cursorOnLast cursorOnLast_pose); eauto.
  - unfold handleColorChangeAtIndex, getCurrentStateSnapshot.
    destruct (editBaseImage _ _) eqn:Ebase; [|exact Ha].
    destruct (_ || _); [exact Ha|].
    split; [eapply (appAll_frame cursorOnLast); eauto|].
    split; [exact Hs | eapply editBaseImage_present; eauto].
  - unfold handleBackgroundChange, getCurrentStateSnapshot.
    destruct (isLoading a); [exact Ha|].
    destruct (String.eqb _ _).
    + apply appAll_commit; auto; intros h; apply Hu.
    + destruct (negb _).
      * eapply (appAll_frame cursorOnLast); eauto.
      * split; [|split; [exact Hs | exact I]].
        eapply (appAll_frame cursorOnLast); eauto.
  - unfold handleLightingChange, getCurrentStateSnapshot.
    destruct (isLoading a); [exact Ha|].
    destruct (String.eqb _ _).
    + apply appAll_commit; auto; intros h; apply Hu.
    + destruct (negb _).
      * eapply (appAll_frame cursorOnLast); eauto.
      * split; [|split; [exact Hs | exact I]].
        eapply (appAll_frame cursorOnLast); eauto.
  - unfold handleMagicWandEditAtIndex, getCurrentStateSnapshot.
    destruct (editBaseImage _ _) eqn:Ebase; [|exact Ha].
    destruct (_ || _); [exact Ha|].
    split; [eapply (appAll_frame cursorOnLast); eauto|].
    split; [exact Hs | eapply editBaseImage_present; eauto].
  - unfold handleGenerateLookbook, getCurrentStateSnapshot.
    destruct (_ || _); [eapply (appAll_frame cursorOnLast); eauto|].
    destruct (_ <? _)%nat.
    + split; [|split; [exact Hs | exact I]].
      eapply (appAll_frame cursorOnLast); eauto.
    + eapply (appAll_frame cursorOnLast); eauto.
  - eapply (appAll_frame cursorOnLast); eauto.
  - unfold handleOpenCropModal. destruct (truthy _); [|exact Ha].
    eapply (appAll_frame cursorOnLast); eauto.
  - unfold handleImageCrop, getCurrentStateSnapshot.
    destruct (String.eqb _ _); [eapply (appAll_frame cursorOnLast); eauto|].
    apply appAll_commit; auto; intros h; apply Hu.
  - apply appAll_undo, Ha.
  - apply appAll_redo, Ha.
Qed.

Lemma resume_onLast (k : Pending) (r : RemoteResult) (a : App) :
  appAll cursorOnLast a → pendingOnLast k → appAll cursorOnLast (resume k r a).
Proof.
  intros Ha [Hk Hrest].
  pose proof (fun h => updaters_onLast (captured k) h Hk) as Hu.
  unfold resume. cbv zeta.
  destruct (rest k) as [g | newIndex | index | prompt | prompt | index | ];
    destruct r as [image | err];
    try destruct (js_index (outfitHistory (captured k)) (currentOutfitIndex (captured k)));
    apply appAll_endLoading;
    first
      [ apply appAll_commit; [exact Ha | exact Hk | intros h; apply Hu; exact Hrest]
      | apply (appAll_frame cursorOnLast a); [reflexivity | reflexivity | reflexivity | exact Ha]
      | apply (appAll_pose cursorOnLast cursorOnLast_pose a);
        [reflexivity | reflexivity | reflexivity | exact Ha]
      | eapply (appAll_frame cursorOnLast);
        [| | | apply (appAll_commit cursorOnLast (captured k) (appendGarment g image) a Ha Hk);
               intros h; apply Hu]; reflexivity ].
Qed.

Lemma uiRun_onLast (inputs : list Input) (c c' : Config) :
  configOnLast c → uiRun c inputs = Some c' → configOnLast c'.
Proof.
  revert c. induction inputs as [|[e | n r] inputs IH]; intros c [Ha Hk] Hrun;
    cbn [uiRun] in Hrun.
  - injection Hrun as <-. split; assumption.
  - destruct (offered (app c) e) eqn:Hoffer; [|discriminate].
    apply (IH _) in Hrun; [exact Hrun|]. cbn [step].
    pose proof (handle_onLast e (app c) Ha Hoffer) as H.
    destruct (handle e (app c)); split; cbn; try tauto.
    apply Forall_app. split; [exact Hk | apply Forall_singleton; tauto].
  - apply (IH _) in Hrun; [exact Hrun|]. cbn [step].
    destruct (inflight c !! n) as [k|] eqn:E; [|split; assumption].
    split; cbn.
    + apply resume_onLast; [exact Ha|]. eapply Forall_lookup_1 in Hk; eauto.
    + apply Forall_delete, Hk.
Qed.

(** X16: in every state the component reaches, the cursor is on the last
    layer of the history: no layer lies beyond it, and apply-garment never
    takes its reselection branch. *)
Lemma no_layer_beyond_cursor (inputs : list Input) (c : Config) :
  uiRun initialConfig inputs = Some c →
  js_index (outfitHistory (state (app c))) (currentOutfitIndex (state (app c)) + 1) = None
  ∧ ∀ garmentFile g,
      handleGarmentSelect garmentFile g (app c) = Returned (app c)
      ∨ ∃ a1 call k, handleGarmentSelect garmentFile g (app c) = Awaiting a1 call k.
Proof.
  intros Hrun.
  assert (Hinit : configOnLast initialConfig).
  { split; [|constructor].
    split; [right; split; reflexivity | split; constructor]. }
  apply (uiRun_onLast inputs _ c Hinit) in Hrun as [(Hs & _) _].
  pose proof (cursorOnLast_next_absent _ Hs) as Hnext.
  split; [exact Hnext|]. intros garmentFile g.
  unfold handleGarmentSelect. destruct (_ || _); [left; reflexivity|].
  rewrite Hnext. cbn [sameGarment]. right. eauto.
Qed.

(** * Further properties of the component *)

(** ** The two stacks *)

Lemma handleRedo_handleUndo_id (a : App) :
  undoStack a ≠ [] → handleRedo (handleUndo a) = a.
Proof.
  destruct a as [m s busy msg e sheet w lbOpen lb undo redo tplOpen cropOpen h].
  cbn [undoStack]. intros Hne.
  destruct undo as [|x l _] using rev_ind; [contradiction|].
  erewrite handleUndo_push by reflexivity.
  erewrite handleRedo_push by reflexivity. reflexivity.
Qed.

Lemma handleUndo_handleRedo_id (a : App) :
  redoStack a ≠ [] → handleUndo (handleRedo a) = a.
Proof.
  destruct a as [m s busy msg e sheet w lbOpen lb undo redo tplOpen cropOpen h].
  cbn [redoStack]. intros Hne.
  destruct redo as [|x l _] using rev_ind; [contradiction|].
  erewrite handleRedo_push by reflexivity.
  erewrite handleUndo_push by reflexivity. reflexivity.
Qed.

(** X1: undo followed by redo, and redo followed by undo, give back the
    whole component state, cell for cell, whenever the first of the two
    has a snapshot to pop. *)
Theorem undo_redo_round_trip :
  (∀ a, undoStack a ≠ [] → handleRedo (handleUndo a) = a)
  ∧ (∀ a, redoStack a ≠ [] → handleUndo (handleRedo a) = a).
Proof.
  split; [exact handleRedo_handleUndo_id | exact handleUndo_handleRedo_id].
Qed.

Lemma undo_redo_round_trip_witness :
  handleRedo (handleUndo (app afterScarf)) = app afterScarf
  ∧ handleUndo (handleRedo (handleUndo (app afterScarf))) = handleUndo (app afterScarf).
Proof.
  destruct undo_redo_round_trip as [Hur Hru]. split.
  - apply Hur. intros H. vm_compute in H. discriminate H.
  - apply Hru. intros H. vm_compute in H. discriminate H.
Defined.

Lemma handleUndo_iter (ss : list AppStateSnapshot) :
  ∀ (b : App) (pre : list AppStateSnapshot) (x : AppStateSnapshot),
    undoStack b = pre ++ x :: ss →
    state (Nat.iter (S (length ss)) handleUndo b) = x
    ∧ undoStack (Nat.iter (S (length ss)) handleUndo b) = pre.
Proof.
  induction ss as [|y ss IH] using rev_ind; intros b pre x Hb.
  - cbn [length Nat.iter nat_rect]. rewrite (handleUndo_push b x pre Hb). auto.
  - rewrite length_app, Nat.add_comm. cbn [length Nat.add].
    rewrite Nat.iter_succ_r.
    assert (Hb' : undoStack b = (pre ++ x :: ss) ++ [y])
      by (rewrite Hb, <- app_assoc; reflexivity).
    apply IH. rewrite (handleUndo_push b y _ Hb'). reflexivity.
Qed.

Lemma commits_undoStack (us : list Updater) :
  ∀ a u, ∃ ss,
    undoStack (commits (u :: us) a) = undoStack a ++ state a :: ss
    ∧ length ss = length us.
Proof.
  induction us as [|u' us IH]; intros a u.
  - exists []. cbn. rewrite updateStateWithHistory_undoStack. auto.
  - destruct (IH (updateStateWithHistory (state a) u a) u') as (ss & Hss & Hlen).
    exists (state (updateStateWithHistory (state a) u a) :: ss).
    change (commits (u :: u' :: us) a)
      with (commits (u' :: us) (updateStateWithHistory (state a) u a)).
    rewrite Hss, updateStateWithHistory_undoStack, <- app_assoc.
    split; [reflexivity | cbn; lia].
Qed.

Lemma undoStack_iter_length (m : nat) :
  ∀ c, (m ≤ length (undoStack c))%nat →
       length (undoStack (Nat.iter m handleUndo c)) = (length (undoStack c) - m)%nat.
Proof.
  induction m as [|m IHm]; intros c Hm; [cbn; lia|].
  specialize (IHm c ltac:(lia)). cbn [Nat.iter nat_rect].
  fold (Nat.iter m handleUndo c).
  destruct (undoStack (Nat.iter m handleUndo c)) as [|x l _] eqn:E using rev_ind.
  - cbn in IHm. lia.
  - rewrite (handleUndo_push _ x l E). cbn [undoStack applyStateSnapshot setUndoStack].
    rewrite length_app in IHm. cbn in IHm. lia.
Qed.

Lemma redo_undo_iter (n : nat) :
  ∀ b, (n ≤ length (undoStack b))%nat →
       Nat.iter n handleRedo (Nat.iter n handleUndo b) = b.
Proof.
  induction n as [|n IH]; intros b Hn; [reflexivity|].
  rewrite Nat.iter_succ_r. cbn [Nat.iter nat_rect].
  fold (Nat.iter n handleUndo b).
  rewrite handleRedo_handleUndo_id; [apply IH; lia|].
  intros E. pose proof (undoStack_iter_length n b ltac:(lia)) as Hlen.
  rewrite E in Hlen. cbn in Hlen. lia.
Qed.

(** X2: undo unwinds commits last in, first out.  After any non-empty
    sequence of commits through the snapshot manager, as many undos bring
    back the snapshot cells and the undo stack of the start, and as many
    redos after that bring back the state the commits had reached. *)
Theorem undo_unwinds_commits (us : list Updater) (a : App) :
  us ≠ [] →
  state (Nat.iter (length us) handleUndo (commits us a)) = state a
  ∧ undoStack (Nat.iter (length us) handleUndo (commits us a)) = undoStack a
  ∧ Nat.iter (length us) handleRedo (Nat.iter (length us) handleUndo (commits us a))
    = commits us a.
Proof.
  destruct us as [|u us]; [contradiction|]. intros _.
  destruct (commits_undoStack us a u) as (ss & Hss & Hlen).
  cbn [length]. rewrite <- Hlen.
  destruct (handleUndo_iter ss (commits (u :: us) a) (undoStack a) (state a) Hss)
    as [Hstate Hundo].
  split; [exact Hstate | split; [exact Hundo|]].
  apply redo_undo_iter. rewrite Hss, length_app. cbn. lia.
Qed.

Lemma undo_unwinds_commits_witness :
  let us := [revertTo 2; cropCurrent "X"; switchPose 3] in
  state (Nat.iter 3 handleUndo (commits us (app afterScarf))) = state (app afterScarf)
  ∧ undoStack (Nat.iter 3 handleUndo (commits us (app afterScarf)))
    = undoStack (app afterScarf)
  ∧ Nat.iter 3 handleRedo (Nat.iter 3 handleUndo (commits us (app afterScarf)))
    = commits us (app afterScarf).
Proof.
  intros us. apply (undo_unwinds_commits us (app afterScarf)). discriminate.
Defined.

Lemma commit_pushes (s : AppStateSnapshot) (u : Updater) (a b : App) :
  undoStack b = undoStack a → stacksPushed s a (updateStateWithHistory s u b).
Proof.
  intros Hb. split.
  - rewrite updateStateWithHistory_undoStack, Hb. reflexivity.
  - apply updateStateWithHistory_redoStack.
Qed.

(** X3: every handler other than undo and redo either leaves both stacks
    as they are, or pushes exactly the snapshot it started from and
    empties the redo stack, or (model accepted, start over) empties both;
    the part after an await either leaves both stacks as they are or
    pushes the snapshot its closure captured and empties the redo stack. *)
Theorem stack_discipline :
  (∀ e a, e ≠ Undo → e ≠ Redo →
     stacksKept a (outcomeApp (handle e a))
     ∨ stacksPushed (state a) a (outcomeApp (handle e a))
     ∨ stacksCleared (outcomeApp (handle e a)))
  ∧ (∀ k r a,
       stacksKept a (resume k r a) ∨ stacksPushed (captured k) a (resume k r a)).
Proof.
  split.
  - intros e a Hu Hr.
    destruct e; try contradiction; cbn [handle];
      unfold handleGarmentSelect, handlePoseSelect, handleColorChangeAtIndex,
             handleBackgroundChange, handleLightingChange,
             handleMagicWandEditAtIndex, handleGenerateLookbook,
             handleRevertToLayer, handleImageCrop, handleOpenCropModal,
             handleModelFinalized, getCurrentStateSnapshot;
      repeat match goal with
             | |- context [if ?b then _ else _] => destruct b
             | |- context [match ?x with _ => _ end] => destruct x
             end;
      cbn [outcomeApp];
      first [ left; split; reflexivity
            | right; left; apply commit_pushes; reflexivity
            | right; right; split; reflexivity ].
  - intros k r a. unfold resume. cbv zeta.
    destruct (rest k), r; try destruct (js_index _ _);
      first [ left; split; reflexivity
            | right; split; cbn [undoStack redoStack endLoading setLoadingMessage
                                 setIsLoading setWardrobe];
              [apply updateStateWithHistory_undoStack
              | apply updateStateWithHistory_redoStack] ].
Qed.

(** ** Undo by content *)

Lemma handle_returned_store (e : Event) (a a' : App) :
  handle e a = Returned a' → ∃ fresh, store a' = store a ++ fresh.
Proof.
  intros H.
  assert (Hsame : ∀ b, store b = store a → ∃ fresh, store b = store a ++ fresh).
  { intros b ->. exists []. rewrite app_nil_r. reflexivity. }
  destruct e; cbn [handle] in H;
    unfold handleGarmentSelect, handlePoseSelect, handleColorChangeAtIndex,
           handleBackgroundChange, handleLightingChange,
           handleMagicWandEditAtIndex, handleGenerateLookbook,
           handleRevertToLayer, handleImageCrop, handleOpenCropModal,
           handleOpenLookbookTemplates, getCurrentStateSnapshot in H;
    split_guards H; injection H as <-;
    try (apply Hsame; reflexivity).
  - (* model accepted *)
    unfold handleModelFinalized. rewrite freshLayer_spec. eexists. reflexivity.
  - (* crop *)
    rewrite updateStateWithHistory_store. unfold cropCurrent.
    destruct (replacedBaseLayer_single
                (js_index (outfitHistory (state a)) (currentOutfitIndex (state a)))
                (pose_at (currentPoseIndex (state a))) croppedImageUrl (store a))
      as (_ & _ & Hstore).
    destruct (replacedBaseLayer _ _ _ _). cbn [snd fst store setIsCropModalOpen] in *.
    eexists. exact Hstore.
  - apply Hsame. unfold handleUndo. destruct (_ =? _)%nat; [reflexivity|].
    destruct (js_last _); reflexivity.
  - apply Hsame. unfold handleRedo. destruct (_ =? _)%nat; [reflexivity|].
    destruct (js_last _); reflexivity.
Qed.

Lemma undo_pushed_view (a a' : App) (fresh : Store) :
  snapshotClosed (store a) (state a) →
  undoStack a' = undoStack a ++ [state a] →
  store a' = store a ++ fresh →
  currentView (handleUndo a') = currentView a.
Proof.
  intros Hclosed Hundo Hstore.
  rewrite (handleUndo_push a' (state a) (undoStack a) Hundo).
  unfold currentView. cbn [state store applyStateSnapshot setUndoStack setRedoStack].
  rewrite Hstore. apply viewSnapshot_app, Hclosed.
Qed.

(** X4: undo restores the content of the previous snapshot after every
    operation that builds its result from fresh objects: any handler that
    commits before it returns (revert, crop, switching to a cached pose,
    resetting a modifier, reselection), and a colour change or magic-wand
    edit once its remote call has succeeded. *)
Theorem undo_restores_content (a : App) :
  snapshotClosed (store a) (state a) →
  (∀ e a', handle e a = Returned a' → stacksPushed (state a) a a' →
           currentView (handleUndo a') = currentView a)
  ∧ (∀ index newColor image a1 call k,
       handleColorChangeAtIndex index newColor a = Awaiting a1 call k →
       currentView (handleUndo (resume k (Resolved image) a1)) = currentView a)
  ∧ (∀ index instruction image a1 call k,
       handleMagicWandEditAtIndex index instruction a = Awaiting a1 call k →
       currentView (handleUndo (resume k (Resolved image) a1)) = currentView a).
Proof.
  intros Hclosed.
  assert (Hedit : ∀ index image msg,
            currentView (handleUndo (endLoading (updateStateWithHistory (state a)
                           (replaceBaseAt index image) (beginLoading msg a))))
            = currentView a).
  { intros index image msg.
    apply (undo_pushed_view a _ [[(pose_at 0, image)]; []; []] Hclosed).
    - cbn [undoStack endLoading setLoadingMessage setIsLoading].
      rewrite updateStateWithHistory_undoStack. reflexivity.
    - cbn [store endLoading setLoadingMessage setIsLoading].
      rewrite updateStateWithHistory_store. unfold replaceBaseAt.
      destruct (replacedBaseLayer_single (js_index (outfitHistory (state a)) index)
                  (pose_at 0) image (store (beginLoading msg a))) as (_ & _ & Hstore).
      destruct (replacedBaseLayer _ _ _ _). exact Hstore. }
  split; [|split].
  - intros e a' He [Hundo _].
    destruct (handle_returned_store e a a' He) as [fresh Hstore].
    apply (undo_pushed_view a a' fresh); assumption.
  - intros index newColor image a1 call k H.
    unfold handleColorChangeAtIndex, getCurrentStateSnapshot in H. split_guards H.
    injection H as <- <- <-. apply Hedit.
  - intros index instruction image a1 call k H.
    unfold handleMagicWandEditAtIndex, getCurrentStateSnapshot in H. split_guards H.
    injection H as <- <- <-. apply Hedit.
Qed.

Ltac closed_by_computation :=
  vm_compute;
  repeat (apply Forall_cons_2; [split; [lia | split; intros ? [= <-]; lia] |]);
  apply Forall_nil_2.

Lemma stack_discipline_witness :
  stacksPushed (state (app afterShirt)) (app afterShirt)
               (outcomeApp (handle (ImageCrop "X") (app afterShirt)))
  ∧ stacksKept (app posing)
               (resume (mkPending (state (app afterShirt)) (AfterPose 1))
                       (Rejected "blocked") (app posing)).
Proof.
  destruct stack_discipline as [Hhandle Hresume]. split.
  - destruct (Hhandle (ImageCrop "X") (app afterShirt)
                      ltac:(discriminate) ltac:(discriminate))
      as [[H _] | [H | [H _]]];
      [exfalso; vm_compute in H; discriminate H
      | exact H
      | exfalso; vm_compute in H; discriminate H].
  - destruct (Hresume (mkPending (state (app afterShirt)) (AfterPose 1))
                      (Rejected "blocked") (app posing)) as [H | [H _]];
      [exact H | vm_compute in H; discriminate H].
Defined.

Lemma undo_restores_content_witness :
  currentView (handleUndo (handleImageCrop "X" (app afterScarf)))
  = currentView (app afterScarf)
  ∧ currentView (handleUndo (handleRevertToLayer 1 (app afterScarf)))
    = currentView (app afterScarf).
Proof.
  destruct (undo_restores_content (app afterScarf)) as (Hsync & _ & _);
    [closed_by_computation|].
  split.
  - apply (Hsync (ImageCrop "X")); [reflexivity | split; vm_compute; reflexivity].
  - apply (Hsync (RevertToLayer 1)); [reflexivity | split; vm_compute; reflexivity].
Defined.

(** ** What is displayed after an operation *)

Lemma singleImageLayer_caches (h : Store) (layer : OutfitLayer) (key image k : string) :
  singleImageLayer h layer key image →
  cache_get h (lightingModifiedImages layer) k = None
  ∧ cache_get h (backgroundModifiedImages layer) k = None
  ∧ pose_or_first (deref h (poseImages layer)) k = Some image.
Proof.
  intros (Hp & Hb & Hl). unfold cache_get, pose_or_first. rewrite Hp.
  destruct (backgroundModifiedImages layer) as [b|]; [|discriminate].
  destruct (lightingModifiedImages layer) as [l|]; [|discriminate].
  injection Hb as ->. injection Hl as ->. cbn.
  destruct (String.eqb k key); auto.
Qed.

(** A state whose cursor is on a last layer holding a single image and
    empty caches displays that image, whatever the pose index and the
    modifiers are. *)
Lemma display_single (a : App) (prefix : list OutfitLayer) (layer : OutfitLayer)
    (key image : string) :
  outfitHistory (state a) = prefix ++ [layer] →
  currentOutfitIndex (state a) = Z.of_nat (length prefix) →
  singleImageLayer (store a) layer key image →
  displayImageUrl a = Some image.
Proof.
  intros Hhist Hcur Hsingle. unfold displayImageUrl.
  rewrite Hhist, Hcur, js_index_app_end, length_app. cbn [length].
  destruct (Nat.eqb_spec (length prefix + 1) 0); [lia|].
  destruct (singleImageLayer_caches _ _ _ _ (pose_at (currentPoseIndex (state a))) Hsingle)
    as (-> & -> & ->).
  cbn [truthy]. rewrite !andb_false_r. reflexivity.
Qed.

Lemma freshLayer_single (g : option WardrobeItem) (key image : string) (h : Store) :
  singleImageLayer (freshLayer g key image h).2 (freshLayer g key image h).1 key image.
Proof.
  apply (replacedBaseLayer_single (Some (mkLayer g 0%nat None None)) key image h).
Qed.

(** X5: after the model image is accepted, after a garment is applied,
    after a colour change or a magic-wand edit succeeds, and after a
    crop, the displayed image is the new image, whatever pose index and
    modifiers were active before. *)
Theorem new_image_is_displayed :
  (∀ url a, displayImageUrl (handleModelFinalized url a) = Some url)
  ∧ (∀ garmentFile g image a a1 call k,
       handleGarmentSelect garmentFile g a = Awaiting a1 call k →
       displayImageUrl (resume k (Resolved image) a1) = Some image)
  ∧ (∀ index newColor image a a1 call k,
       handleColorChangeAtIndex index newColor a = Awaiting a1 call k →
       displayImageUrl (resume k (Resolved image) a1) = Some image)
  ∧ (∀ index instruction image a a1 call k,
       handleMagicWandEditAtIndex index instruction a = Awaiting a1 call k →
       displayImageUrl (resume k (Resolved image) a1) = Some image)
  ∧ (∀ image a layer,
       image ≠ "" →
       js_index (outfitHistory (state a)) (currentOutfitIndex (state a)) = Some layer →
       displayImageUrl (handleImageCrop image a) = Some image).
Proof.
  assert (Hedit : ∀ index image a msg,
            is_Some (js_index (outfitHistory (state a)) index) →
            displayImageUrl (endLoading (updateStateWithHistory (state a)
                               (replaceBaseAt index image) (beginLoading msg a)))
            = Some image).
  { intros index image a msg [layer Hlayer]. apply js_index_lt in Hlayer.
    pose proof (replacedBaseLayer_single (js_index (outfitHistory (state a)) index)
                  (pose_at 0) image (store (beginLoading msg a))) as (Hsingle & _ & _).
    destruct (replacedBaseLayer (js_index (outfitHistory (state a)) index)
                (pose_at 0) image (store (beginLoading msg a))) as [edited h'] eqn:E.
    apply (display_single _ (js_slice0 (outfitHistory (state a)) index)
                          edited (pose_at 0) image);
      cbn [state store endLoading setLoadingMessage setIsLoading];
      rewrite ?updateStateWithHistory_state, ?updateStateWithHistory_store;
      unfold replaceBaseAt; rewrite E;
      [reflexivity
      | cbn [fst currentOutfitIndex]; rewrite js_slice0_length by lia; reflexivity
      | exact Hsingle]. }
  split; [|split; [|split; [|split]]].
  - intros url a. pose proof (freshLayer_single None (pose_at 0) url (store a)) as Hsingle.
    unfold handleModelFinalized.
    destruct (freshLayer None (pose_at 0) url (store a)) as [base h].
    apply (display_single _ [] base (pose_at 0) url);
      [reflexivity | reflexivity | exact Hsingle].
  - intros garmentFile g image a a1 call k H.
    unfold handleGarmentSelect, getCurrentStateSnapshot in H. split_guards H.
    injection H as <- <- <-. unfold resume. cbn [rest captured].
    set (a1 := beginLoading (MsgTWith "app.loading.adding" (name g)) a).
    pose proof (freshLayer_single (Some g) (pose_at 0) image (store a1)) as Hsingle.
    destruct (freshLayer (Some g) (pose_at 0) image (store a1)) as [newLayer h'] eqn:E.
    apply (display_single _ (js_slice0 (outfitHistory (state a))
                                       (currentOutfitIndex (state a) + 1))
                          newLayer (pose_at 0) image);
      cbn [state store endLoading setLoadingMessage setIsLoading setWardrobe];
      rewrite ?updateStateWithHistory_state, ?updateStateWithHistory_store;
      unfold appendGarment; rewrite E;
      [reflexivity | reflexivity | exact Hsingle].
  - intros index newColor image a a1 call k H.
    unfold handleColorChangeAtIndex, getCurrentStateSnapshot in H.
    destruct (editBaseImage a index) eqn:Ebase; [|discriminate].
    apply editBaseImage_present in Ebase.
    destruct (_ || _); [discriminate|]. injection H as <- <- <-. apply Hedit, Ebase.
  - intros index instruction image a a1 call k H.
    unfold handleMagicWandEditAtIndex, getCurrentStateSnapshot in H.
    destruct (editBaseImage a index) eqn:Ebase; [|discriminate].
    apply editBaseImage_present in Ebase.
    destruct (_ || _); [discriminate|]. injection H as <- <- <-. apply Hedit, Ebase.
  - intros image a layer Himage Hlayer. pose proof (js_index_lt _ _ _ Hlayer) as Hcur.
    unfold handleImageCrop, getCurrentStateSnapshot.
    destruct (String.eqb_spec image ""); [contradiction|].
    set (a0 := setIsCropModalOpen false a).
    pose proof (replacedBaseLayer_single
                  (js_index (outfitHistory (state a)) (currentOutfitIndex (state a)))
                  (pose_at (currentPoseIndex (state a))) image (store a0))
      as (Hsingle & _ & _).
    destruct (replacedBaseLayer
                (js_index (outfitHistory (state a)) (currentOutfitIndex (state a)))
                (pose_at (currentPoseIndex (state a))) image (store a0))
      as [cropped h'] eqn:E.
    apply (display_single _ (js_slice0 (outfitHistory (state a))
                                       (currentOutfitIndex (state a)))
                          cropped (pose_at (currentPoseIndex (state a))) image);
      rewrite ?updateStateWithHistory_state, ?updateStateWithHistory_store;
      unfold cropCurrent; rewrite E;
      [reflexivity
      | cbn [fst currentOutfitIndex]; rewrite js_slice0_length by lia; reflexivity
      | exact Hsingle].
Qed.

Lemma new_image_is_displayed_witness :
  displayImageUrl (handleModelFinalized "M" (app litUp)) = Some "M"
  ∧ displayImageUrl (handleImageCrop "X" (app litUp)) = Some "X"
  ∧ displayImageUrl
      (resume (mkPending (state (app litUp)) (AfterColor 1)) (Resolved "R")
              (beginLoading (MsgTWith "app.loading.coloring" "#EF4444") (app litUp)))
    = Some "R".
Proof.
  destruct new_image_is_displayed as (Hmodel & _ & Hcolor & _ & Hcrop).
  split; [apply Hmodel|]. split.
  - apply (Hcrop "X" (app litUp) (mkLayer (Some shirt) 3%nat (Some 4%nat) (Some 5%nat)));
      [discriminate | reflexivity].
  - apply (Hcolor 1 "#EF4444" "R" (app litUp)
                  (beginLoading (MsgTWith "app.loading.coloring" "#EF4444") (app litUp))
                  (changeGarmentColor "B" "#EF4444")).
    vm_compute. reflexivity.
Defined.

Lemma Object_keys_obj_set_new (k v : string) (m : PoseMap) :
  obj_get k m = None → Object_keys (obj_set k v m) = Object_keys m ++ [k].
Proof.
  induction m as [|[k' v'] m IH]; cbn; [reflexivity|].
  destruct (String.eqb k k'); [discriminate|]. intros H. cbn.
  unfold Object_keys in IH. rewrite IH by exact H. reflexivity.
Qed.

Lemma js_index_insert {A} (l : list A) (i : Z) (x y : A) :
  js_index l i = Some y → js_index (<[Z.to_nat i := x]> l) i = Some x.
Proof.
  intros [Hi Hy]%js_index_Some. apply js_index_Some. split; [exact Hi|].
  apply list_lookup_insert_eq. eapply lookup_lt_Some; eauto.
Qed.

(** X6: when pose selection went to the generator and the call
    succeeded, the pose index is the requested one, the displayed image
    is the generated image, and the requested pose, if the layer had no
    entry for it, is added last to the available poses. *)
Theorem generated_pose_is_displayed
    (newIndex : Z) (image : string) (a a1 : App) (call : RemoteCall) (k : Pending) :
  handlePoseSelect newIndex a = Awaiting a1 call k →
  currentPoseIndex (state (resume k (Resolved image) a1)) = newIndex
  ∧ displayImageUrl (resume k (Resolved image) a1) = Some image
  ∧ (∀ layer,
       js_index (outfitHistory (state a)) (currentOutfitIndex (state a)) = Some layer →
       obj_get (pose_at newIndex) (deref (store a) (poseImages layer)) = None →
       availablePoseKeys (resume k (Resolved image) a1)
       = availablePoseKeys a ++ [pose_at newIndex]).
Proof.
  intros H. unfold handlePoseSelect, getCurrentStateSnapshot in H.
  destruct (_ || _) eqn:Eguard; [discriminate|].
  destruct (js_index _ _) as [layer|] eqn:Hlayer; [|discriminate].
  destruct (truthy (obj_get _ _)) eqn:Hcached; [discriminate|].
  destruct (negb _) eqn:Hbase; [discriminate|].
  injection H as <- <- <-.
  assert (Hvalid : (poseImages layer < length (store a))%nat).
  { apply deref_nonempty_valid. intros E. rewrite E in Hbase. discriminate Hbase. }
  assert (Hlen : (length (outfitHistory (state a)) =? 0)%nat = false).
  { apply js_index_lt in Hlayer. apply Nat.eqb_neq. lia. }
  unfold resume. cbn [rest captured]. rewrite Hlayer.
  set (a1 := setCurrentPoseIndex newIndex (beginLoading (MsgT "app.loading.posing") a)).
  set (a2 := endLoading (updateStateWithHistory (state a) (storePose newIndex image) a1)).
  assert (Hstate : state a2
            = mkSnapshot (<[Z.to_nat (currentOutfitIndex (state a)) := layer]>
                            (outfitHistory (state a)))
                         (currentOutfitIndex (state a)) newIndex "Default" "Default").
  { unfold a2. cbn [state endLoading setLoadingMessage setIsLoading].
    rewrite updateStateWithHistory_state. unfold storePose. rewrite Hlayer.
    destruct layer. reflexivity. }
  assert (Hstore : store a2
            = assign (poseImages layer) (pose_at newIndex) image (store a)).
  { unfold a2. cbn [store endLoading setLoadingMessage setIsLoading].
    rewrite updateStateWithHistory_store. unfold storePose. rewrite Hlayer.
    reflexivity. }
  assert (Hlayer' : js_index (outfitHistory (state a2)) (currentOutfitIndex (state a2))
                    = Some layer).
  { rewrite Hstate. cbn [outfitHistory currentOutfitIndex].
    eapply js_index_insert, Hlayer. }
  assert (Hlen' : (length (outfitHistory (state a2)) =? 0)%nat = false).
  { rewrite Hstate. cbn [outfitHistory]. rewrite length_insert. exact Hlen. }
  split; [rewrite Hstate; reflexivity|]. split.
  - unfold displayImageUrl. rewrite Hlen', Hlayer', Hstore.
    rewrite Hstate. cbn [activeLighting activeBackground currentPoseIndex].
    cbn [String.eqb negb andb]. unfold pose_or_first.
    rewrite deref_assign_same by exact Hvalid. rewrite obj_get_set_eq. reflexivity.
  - intros layer0 Hlayer0 Hnone. injection Hlayer0 as <-.
    unfold availablePoseKeys. rewrite Hlen, Hlen', Hlayer, Hlayer', Hstore.
    rewrite deref_assign_same by exact Hvalid.
    apply Object_keys_obj_set_new, Hnone.
Qed.

Lemma generated_pose_is_displayed_witness :
  let k := mkPending (state (app afterShirt)) (AfterPose 1) in
  currentPoseIndex (state (resume k (Resolved "C") (app posing))) = 1
  ∧ displayImageUrl (resume k (Resolved "C") (app posing)) = Some "C"
  ∧ availablePoseKeys (resume k (Resolved "C") (app posing)) = [pose_at 0; pose_at 1].
Proof.
  intros k.
  destruct (generated_pose_is_displayed 1 "C" (app afterShirt) (app posing)
              (generatePoseVariation "B" (pose_at 1)) k) as (Hpose & Hshown & Hkeys).
  { vm_compute. reflexivity. }
  split; [exact Hpose|]. split; [exact Hshown|].
  apply (Hkeys (mkLayer (Some shirt) 3%nat (Some 4%nat) (Some 5%nat)));
    vm_compute; reflexivity.
Defined.

Lemma snapshotClosed_layer (h : Store) (s : AppStateSnapshot) (i : Z) (layer : OutfitLayer) :
  snapshotClosed h s → js_index (outfitHistory s) i = Some layer → layerClosed h layer.
Proof.
  intros Hclosed [_ Hlayer]%js_index_Some.
  eapply Forall_lookup_1; eauto.
Qed.

(** The cache written by a modifier change: the layer's own object, or a
    fresh one when the layer has none. *)
Lemma modifier_cache_entry (cache : option Ref) (key image : string) (h : Store) :
  (∀ r, cache = Some r → (r < length h)%nat) →
  let '(c, h1) := match cache with Some r => (r, h) | None => alloc [] h end in
  obj_get key (deref (assign c key image h1) c) = Some image.
Proof.
  intros Hvalid. destruct cache as [r|]; cbn [alloc].
  - rewrite deref_assign_same by (apply Hvalid; reflexivity). apply obj_get_set_eq.
  - rewrite deref_assign_same by (rewrite length_app; cbn; lia). apply obj_get_set_eq.
Qed.

(** X7: when a background change or a lighting change with a prompt
    other than "Default" succeeds with a non-empty image, that image is
    what is displayed. *)
Theorem modifier_image_is_displayed
    (prompt image : string) (a a1 : App) (call : RemoteCall) (k : Pending) :
  snapshotClosed (store a) (state a) →
  image ≠ "" →
  (handleBackgroundChange prompt a = Awaiting a1 call k →
   displayImageUrl (resume k (Resolved image) a1) = Some image)
  ∧ (handleLightingChange prompt a = Awaiting a1 call k →
     displayImageUrl (resume k (Resolved image) a1) = Some image).
Proof.
  intros Hclosed Himage.
  pose proof (truthy_Some_nonempty image Himage) as Htruthy.
  split; intros H.
  - unfold handleBackgroundChange, getCurrentStateSnapshot in H.
    destruct (isLoading a); [discriminate|].
    destruct (String.eqb_spec prompt "Default") as [|Hprompt]; [discriminate|].
    destruct (negb _) eqn:Hbase; [discriminate|]. injection H as <- <- <-.
    apply negb_false_iff, baseImage_layer_present in Hbase as [layer Hlayer].
    pose proof (snapshotClosed_layer _ _ _ _ Hclosed Hlayer) as (_ & Hvalid & _).
    pose proof (modifier_cache_entry (backgroundModifiedImages layer)
                  (pose_at (currentPoseIndex (state a))) image (store a) Hvalid) as Hentry.
    unfold resume. cbn [rest captured]. unfold displayImageUrl.
    cbn [state store endLoading setLoadingMessage setIsLoading].
    rewrite updateStateWithHistory_state, updateStateWithHistory_store.
    unfold storeBackground. rewrite Hlayer. cbn [store beginLoading setLoadingMessage
                                                 setIsLoading setError].
    destruct (match backgroundModifiedImages layer with
              | Some r => (r, store a)
              | None => alloc [] (store a)
              end) as [c h1].
    cbn [fst snd outfitHistory currentOutfitIndex currentPoseIndex activeLighting
         activeBackground].
    rewrite length_insert.
    destruct (Nat.eqb_spec (length (outfitHistory (state a))) 0) as [E|_];
      [apply js_index_lt in Hlayer; lia|].
    rewrite (js_index_insert _ _ _ _ Hlayer).
    cbn [lightingModifiedImages backgroundModifiedImages cache_get String.eqb negb andb].
    destruct (String.eqb_spec prompt "Default"); [contradiction|].
    rewrite Hentry, Htruthy. reflexivity.
  - unfold handleLightingChange, getCurrentStateSnapshot in H.
    destruct (isLoading a); [discriminate|].
    destruct (String.eqb_spec prompt "Default") as [|Hprompt]; [discriminate|].
    destruct (negb _) eqn:Hbase; [discriminate|]. injection H as <- <- <-.
    apply negb_false_iff, baseImage_layer_present in Hbase as [layer Hlayer].
    pose proof (snapshotClosed_layer _ _ _ _ Hclosed Hlayer) as (_ & _ & Hvalid).
    pose proof (modifier_cache_entry (lightingModifiedImages layer)
                  (pose_at (currentPoseIndex (state a))) image (store a) Hvalid) as Hentry.
    unfold resume. cbn [rest captured]. unfold displayImageUrl.
    cbn [state store endLoading setLoadingMessage setIsLoading].
    rewrite updateStateWithHistory_state, updateStateWithHistory_store.
    unfold storeLighting. rewrite Hlayer. cbn [store beginLoading setLoadingMessage
                                               setIsLoading setError].
    destruct (match lightingModifiedImages layer with
              | Some r => (r, store a)
              | None => alloc [] (store a)
              end) as [c h1].
    cbn [fst snd outfitHistory currentOutfitIndex currentPoseIndex activeLighting
         activeBackground].
    rewrite length_insert.
    destruct (Nat.eqb_spec (length (outfitHistory (state a))) 0) as [E|_];
      [apply js_index_lt in Hlayer; lia|].
    rewrite (js_index_insert _ _ _ _ Hlayer).
    cbn [lightingModifiedImages cache_get].
    destruct (String.eqb_spec prompt "Default"); [contradiction|].
    cbn [negb andb]. rewrite Hentry, Htruthy. reflexivity.
Qed.

Lemma modifier_image_is_displayed_witness :
  displayImageUrl
    (resume (mkPending (state (app afterShirt)) (AfterBackground "A lush botanical garden"))
            (Resolved "G")
            (beginLoading (MsgT "app.loading.background") (app afterShirt)))
  = Some "G".
Proof.
  destruct (modifier_image_is_displayed "A lush botanical garden" "G" (app afterShirt)
              (beginLoading (MsgT "app.loading.background") (app afterShirt))
              (changeBackground "B" "A lush botanical garden")
              (mkPending (state (app afterShirt))
                         (AfterBackground "A lush botanical garden")))
    as [Hbackground _];
    [closed_by_computation | discriminate |].
  apply Hbackground. vm_compute. reflexivity.
Defined.

(** ** The garments worn *)

Lemma truthy_ids_prefix (l1 l2 : list OutfitLayer) :
  l1 `prefix_of` l2 →
  omap (fun v => v) (List.filter truthy ((fun layer => id <$> garment layer) <$> l1))
  `prefix_of`
  omap (fun v => v) (List.filter truthy ((fun layer => id <$> garment layer) <$> l2)).
Proof.
  intros [k ->]. rewrite fmap_app, List.filter_app, omap_app. eexists. reflexivity.
Qed.

(** X8: a garment applied with success adds its id, unless the id is the
    empty string, at the end of the active garment ids (the list that
    disables its wardrobe entry); a revert to a layer at or below the
    cursor leaves a prefix of the active garment ids. *)
Theorem worn_garments :
  (∀ garmentFile g image a a1 call k,
     handleGarmentSelect garmentFile g a = Awaiting a1 call k →
     activeGarmentIds (state (resume k (Resolved image) a1))
     = activeGarmentIds (state a) ++ (if String.eqb (id g) "" then [] else [id g]))
  ∧ (∀ index a,
       0 ≤ index ≤ currentOutfitIndex (state a) + 1 →
       activeGarmentIds (state (handleRevertToLayer index a))
         `prefix_of` activeGarmentIds (state a)).
Proof.
  split.
  - intros garmentFile g image a a1 call k H.
    unfold handleGarmentSelect, getCurrentStateSnapshot in H. split_guards H.
    injection H as <- <- <-. unfold resume. cbn [rest captured].
    cbn [state endLoading setLoadingMessage setIsLoading setWardrobe].
    rewrite updateStateWithHistory_state. unfold appendGarment.
    destruct (freshLayer _ _ _ _) as [newLayer h'] eqn:E.
    assert (Hg : garment newLayer = Some g).
    { rewrite freshLayer_spec in E. injection E as <- _. reflexivity. }
    unfold activeGarmentIds at 1. unfold activeOutfitLayers at 1.
    cbn [fst outfitHistory currentOutfitIndex].
    fold (activeOutfitLayers (state a)).
    rewrite js_slice0_nonneg by lia.
    rewrite take_ge by (rewrite length_app; cbn [length]; lia).
    rewrite fmap_app, List.filter_app, omap_app. f_equal.
    cbn [fmap list_fmap List.filter]. rewrite Hg. cbn [fmap option_fmap option_map truthy].
    destruct (String.eqb (id g) ""); reflexivity.
  - intros index a Hindex. unfold handleRevertToLayer, getCurrentStateSnapshot.
    rewrite updateStateWithHistory_state. unfold revertTo, activeGarmentIds.
    apply truthy_ids_prefix. unfold activeOutfitLayers.
    cbn [fst outfitHistory currentOutfitIndex].
    replace (index - 1 + 1) with index by lia.
    rewrite !js_slice0_nonneg by lia. rewrite take_take, Nat.min_id.
    exists (drop (Z.to_nat index)
                 (take (Z.to_nat (currentOutfitIndex (state a) + 1))
                       (outfitHistory (state a)))).
    rewrite <- (take_drop (Z.to_nat index)
                          (take (Z.to_nat (currentOutfitIndex (state a) + 1))
                                (outfitHistory (state a)))) at 1.
    rewrite take_take. f_equal. f_equal. lia.
Qed.

Lemma worn_garments_witness :
  activeGarmentIds
    (state (resume (mkPending (state (app afterShirt)) (AfterTryOn scarf)) (Resolved "D")
                   (beginLoading (MsgTWith "app.loading.adding" "Scarf") (app afterShirt))))
  = activeGarmentIds (state (app afterShirt))
    ++ (if String.eqb (id scarf) "" then [] else [id scarf])
  ∧ activeGarmentIds (state (app afterShirt)) = ["shirt-1"]
  ∧ activeGarmentIds (state (handleRevertToLayer 2 (app afterScarf)))
      `prefix_of` activeGarmentIds (state (app afterScarf)).
Proof.
  destruct worn_garments as [Happly Hrevert]. split; [|split].
  - apply (Happly "scarf.png" scarf "D" (app afterShirt)
                  (beginLoading (MsgTWith "app.loading.adding" "Scarf") (app afterShirt))
                  (generateVirtualTryOnImage "B" "scarf.png" scarf)).
    vm_compute. reflexivity.
  - vm_compute. reflexivity.
  - apply Hrevert. vm_compute. split; discriminate.
Defined.

(** ** The busy flag *)

Lemma awaiting_busy (e : Event) (a a1 : App) (call : RemoteCall) (k : Pending) :
  handle e a = Awaiting a1 call k →
  isLoading a = false ∧ isLoading a1 = true ∧ error a1 = None.
Proof.
  intros H.
  destruct e; cbn [handle] in H; try discriminate H;
    unfold handleGarmentSelect, handlePoseSelect, handleColorChangeAtIndex,
           handleBackgroundChange, handleLightingChange,
           handleMagicWandEditAtIndex, handleGenerateLookbook in H;
    split_guards H; injection H as <- <- <-; cbn;
    repeat match goal with
           | G : _ || _ = false |- _ => apply orb_false_iff in G as [? ?]
           end;
    auto.
Qed.

Lemma resume_not_busy (k : Pending) (r : RemoteResult) (a : App) :
  isLoading (resume k r a) = false ∧ loadingMessage (resume k r a) = MsgEmpty.
Proof.
  unfold resume. cbv zeta.
  destruct (rest k), r; try destruct (js_index _ _); split; reflexivity.
Qed.

(** X9: a handler suspends at a remote call only from a state that is
    not busy, and leaves the state busy with the error cleared; whatever
    the call settles with, the rest of the handler leaves the state not
    busy, with an empty progress message. *)
Theorem busy_flag_discipline :
  (∀ e a a1 call k,
     handle e a = Awaiting a1 call k →
     isLoading a = false ∧ isLoading a1 = true ∧ error a1 = None)
  ∧ (∀ k r a,
       isLoading (resume k r a) = false ∧ loadingMessage (resume k r a) = MsgEmpty).
Proof. split; [exact awaiting_busy | exact resume_not_busy]. Qed.

Lemma busy_flag_discipline_witness :
  isLoading (app afterShirt) = false ∧ isLoading (app posing) = true
  ∧ error (app posing) = None.
Proof.
  destruct busy_flag_discipline as [Hawait _].
  apply (Hawait (PoseSelect 1) (app afterShirt) (app posing)
                (generatePoseVariation "B" (pose_at 1))
                (mkPending (state (app afterShirt)) (AfterPose 1))).
  vm_compute. reflexivity.
Defined.

Lemma updateStateWithHistory_isLoading_aux (s : AppStateSnapshot) (u : Updater) (a : App) :
  isLoading (updateStateWithHistory s u a) = isLoading a.
Proof. unfold updateStateWithHistory. destruct (u s (store a)). reflexivity. Qed.

Lemma returned_keeps_busy (e : Event) (a a' : App) :
  e ≠ StartOver →
  handle e a = Returned a' ∨ handle e a = Threw a' →
  isLoading a' = isLoading a.
Proof.
  intros Hstart [H | H];
    destruct e; try contradiction; cbn [handle] in H; try discriminate H;
    unfold handleGarmentSelect, handlePoseSelect, handleColorChangeAtIndex,
           handleBackgroundChange, handleLightingChange,
           handleMagicWandEditAtIndex, handleGenerateLookbook,
           handleRevertToLayer, handleImageCrop, handleOpenCropModal,
           handleModelFinalized, handleUndo, handleRedo, getCurrentStateSnapshot in H;
    split_guards H; injection H as <-;
    rewrite ?updateStateWithHistory_isLoading_aux;
    repeat match goal with
           | G : _ || _ = false |- _ => apply orb_false_iff in G as [? ?]
           end;
    cbn; congruence.
Qed.

Lemma step_singleFlight (c : Config) (i : Input) :
  i ≠ User StartOver → singleFlight c → singleFlight (step c i).
Proof.
  intros Hi Hc. destruct i as [e | n r]; cbn [step].
  - assert (He : e ≠ StartOver) by congruence.
    destruct (handle e (app c)) as [a' | a' | a' call k] eqn:E.
    + unfold singleFlight. cbn [app inflight].
      rewrite (returned_keeps_busy e (app c) a' He (or_introl E)). exact Hc.
    + unfold singleFlight. cbn [app inflight].
      rewrite (returned_keeps_busy e (app c) a' He (or_intror E)). exact Hc.
    + destruct (awaiting_busy _ _ _ _ _ E) as (Hidle & Hbusy & _).
      destruct Hc as [[Hc _] | [_ Hc]]; [congruence|].
      left. cbn [app inflight]. rewrite Hc. auto.
  - destruct (inflight c !! n) as [k|] eqn:E; [|exact Hc].
    destruct Hc as [[_ Hone] | [_ Hnone]].
    + right. cbn [app inflight]. split; [apply resume_not_busy|].
      destruct (inflight c) as [|k0 [|k1 l]]; try discriminate.
      destruct n; [reflexivity | discriminate].
    + rewrite Hnone in E. discriminate.
Qed.

(** X10: as long as the user does not start over, and with every
    handler running on the state current at its invocation, at most one
    remote call is outstanding at any time, and one is outstanding
    exactly when the busy flag is set. *)
Theorem single_flight (inputs : list Input) :
  Forall (fun i => i ≠ User StartOver) inputs →
  singleFlight (run initialConfig inputs).
Proof.
  assert (Hinit : singleFlight initialConfig) by (right; auto).
  revert Hinit. generalize initialConfig.
  induction inputs as [|i inputs IH]; intros c Hc Hall; [exact Hc|].
  apply Forall_cons in Hall as [Hi Hall]. cbn [run foldl].
  apply IH; [apply step_singleFlight; assumption | exact Hall].
Qed.

Lemma single_flight_witness :
  singleFlight
    (run initialConfig
       [User (ModelFinalized "A"); User (PoseSelect 1);
        User (GarmentSelect "shirt.png" shirt); User (RevertToLayer 1)]).
Proof.
  apply single_flight.
  repeat (apply Forall_cons_2; [discriminate|]). apply Forall_nil_2.
Defined.

(** ** What is sent to the generator *)

(** X11: the image a handler sends is never empty.  Apply-garment sends
    the image currently displayed; pose selection sends the first image
    of the current layer; colour change and magic wand send the edited
    layer's default-pose image, else its first image; background and
    lighting changes send the current layer's image for the current pose,
    the background prompt "Studio Background" being replaced by a studio
    description and every other prompt passed on as it is. *)
Theorem remote_call_arguments (a a1 : App) (call : RemoteCall) (k : Pending) :
  (∀ garmentFile g,
     handleGarmentSelect garmentFile g a = Awaiting a1 call k →
     ∃ image, image ≠ "" ∧ displayImageUrl a = Some image
              ∧ call = generateVirtualTryOnImage image garmentFile g)
  ∧ (∀ newIndex,
       handlePoseSelect newIndex a = Awaiting a1 call k →
       ∃ layer image,
         js_index (outfitHistory (state a)) (currentOutfitIndex (state a)) = Some layer
         ∧ head (Object_values (deref (store a) (poseImages layer))) = Some image
         ∧ image ≠ "" ∧ call = generatePoseVariation image (pose_at newIndex))
  ∧ (∀ index newColor,
       handleColorChangeAtIndex index newColor a = Awaiting a1 call k →
       ∃ layer image,
         js_index (outfitHistory (state a)) index = Some layer
         ∧ pose_or_first (deref (store a) (poseImages layer)) (pose_at 0) = Some image
         ∧ image ≠ "" ∧ call = changeGarmentColor image newColor)
  ∧ (∀ index instruction,
       handleMagicWandEditAtIndex index instruction a = Awaiting a1 call k →
       ∃ layer image,
         js_index (outfitHistory (state a)) index = Some layer
         ∧ pose_or_first (deref (store a) (poseImages layer)) (pose_at 0) = Some image
         ∧ image ≠ "" ∧ call = magicWandEdit image instruction)
  ∧ (∀ prompt,
       handleBackgroundChange prompt a = Awaiting a1 call k →
       ∃ image,
         baseImageForModification a = Some image ∧ image ≠ ""
         ∧ call = changeBackground image
                    (if String.eqb prompt "Studio Background"
                     then "a clean, neutral studio backdrop (light gray, #f0f0f0)"
                     else prompt))
  ∧ (∀ prompt,
       handleLightingChange prompt a = Awaiting a1 call k →
       ∃ image,
         baseImageForModification a = Some image ∧ image ≠ ""
         ∧ call = changeLighting image prompt).
Proof.
  assert (Htruthy : ∀ o, negb (truthy o) = false → ∃ v, o = Some v ∧ v ≠ "").
  { intros [v|]; cbn; [|discriminate].
    destruct (String.eqb_spec v ""); [discriminate | eauto]. }
  repeat split; intros; 
    match goal with
    | H : _ = Awaiting _ _ _ |- _ =>
        unfold handleGarmentSelect, handlePoseSelect, handleColorChangeAtIndex,
               handleMagicWandEditAtIndex, handleBackgroundChange,
               handleLightingChange, editBaseImage in H;
        split_guards H; injection H as <- <- <-
    end;
    repeat match goal with
           | G : _ || _ = false |- _ => apply orb_false_iff in G as [? ?]
           end;
    repeat match goal with
           | G : context [match ?x with _ => _ end] |- _ =>
               destruct x eqn:?; try discriminate G
           end;
    repeat match goal with G : Some _ = Some _ |- _ => injection G as <- end;
    match goal with
    | G : negb (truthy ?o) = false |- _ =>
        destruct (Htruthy o G) as (v & Hv & Hne)
    end;
    rewrite ?Hv; cbn [default from_option Datatypes.id]; eauto 10.
Qed.

Lemma remote_call_arguments_witness :
  (∃ image, image ≠ "" ∧ displayImageUrl (app litUp) = Some image
            ∧ generateVirtualTryOnImage "L" "scarf.png" scarf
              = generateVirtualTryOnImage image "scarf.png" scarf)
  ∧ (∃ image,
       baseImageForModification (app afterShirt) = Some image ∧ image ≠ ""
       ∧ changeBackground "B" "a clean, neutral studio backdrop (light gray, #f0f0f0)"
         = changeBackground image
             (if String.eqb "Studio Background" "Studio Background"
              then "a clean, neutral studio backdrop (light gray, #f0f0f0)"
              else "Studio Background")).
Proof.
  split.
  - destruct (remote_call_arguments (app litUp)
                (beginLoading (MsgTWith "app.loading.adding" "Scarf") (app litUp))
                (generateVirtualTryOnImage "L" "scarf.png" scarf)
                (mkPending (state (app litUp)) (AfterTryOn scarf))) as (Hgarment & _).
    apply (Hgarment "scarf.png" scarf). vm_compute. reflexivity.
  - destruct (remote_call_arguments (app afterShirt)
                (beginLoading (MsgT "app.loading.background") (app afterShirt))
                (changeBackground "B"
                   "a clean, neutral studio backdrop (light gray, #f0f0f0)")
                (mkPending (state (app afterShirt)) (AfterBackground "Studio Background")))
      as (_ & _ & _ & _ & Hbackground & _).
    apply (Hbackground "Studio Background"). vm_compute. reflexivity.
Defined.

(** ** The lookbook *)

Lemma lookbookImages_nonempty (a : App) :
  Forall (fun image => image ≠ "") (lookbookImages a)
  ∧ (length (lookbookImages a) ≤ length (activeOutfitLayers (state a)))%nat.
Proof.
  unfold lookbookImages. generalize (activeOutfitLayers (state a)).
  induction l as [|layer l [IH1 IH2]]; cbn; [split; [constructor | lia]|].
  destruct (truthy (head (Object_values (deref (store a) (poseImages layer))))) eqn:E.
  - destruct (head _) as [v|]; [|discriminate E]. cbn. split; [|lia].
    constructor; [|exact IH1]. intros ->. discriminate E.
  - destruct (head _); cbn; split; auto; lia.
Qed.

(** X12: a lookbook request never touches the edit history, the two
    stacks, the stored images or the wardrobe, whether it is refused,
    fails or succeeds; when it reaches the generator it sends at least
    two images, none of them empty, at most one per active layer. *)
Theorem lookbook_outside_history (templatePrompt : string) (a : App) :
  historyUntouched a (outcomeApp (handleGenerateLookbook templatePrompt a))
  ∧ (∀ a1 call k,
       handleGenerateLookbook templatePrompt a = Awaiting a1 call k →
       call = generateLookbook (lookbookImages a) templatePrompt
       ∧ (2 ≤ length (lookbookImages a))%nat
       ∧ Forall (fun image => image ≠ "") (lookbookImages a)
       ∧ (length (lookbookImages a) ≤ length (activeOutfitLayers (state a)))%nat
       ∧ ∀ r, historyUntouched a (resume k r a1)).
Proof.
  split.
  - unfold handleGenerateLookbook.
    destruct (_ || _); [repeat split|]. destruct (_ <? _)%nat; repeat split.
  - intros a1 call k H. unfold handleGenerateLookbook, getCurrentStateSnapshot in H.
    destruct (_ || _); [discriminate|].
    destruct (Nat.ltb_spec 1 (length (lookbookImages a))) as [Hlen|]; [|discriminate].
    injection H as <- <- <-.
    destruct (lookbookImages_nonempty a) as [Hne Hle].
    repeat split; try assumption; try lia; destruct r; reflexivity.
Qed.

Lemma lookbook_outside_history_witness :
  historyUntouched (app afterScarf)
    (outcomeApp (handleGenerateLookbook "A vertical or horizontal film strip sequence."
                                        (app afterScarf)))
  ∧ lookbookImages (app afterScarf) = ["A"; "B"; "D"]
  ∧ ∀ r, historyUntouched (app afterScarf)
           (resume (mkPending (state (app afterScarf)) AfterLookbook) r
                   (beginLoading (MsgT "app.loading.lookbook")
                      (setIsLookbookTemplateModalOpen false (app afterScarf)))).
Proof.
  destruct (lookbook_outside_history "A vertical or horizontal film strip sequence."
              (app afterScarf)) as [Hframe Hcall].
  split; [exact Hframe|]. split; [vm_compute; reflexivity|].
  apply (Hcall _ (generateLookbook ["A"; "B"; "D"]
                    "A vertical or horizontal film strip sequence.")).
  vm_compute. reflexivity.
Defined.

(** ** The wardrobe *)

Lemma mergeWardrobe_NoDup (g : WardrobeItem) (items : list WardrobeItem) :
  NoDup (id <$> items) → NoDup (id <$> mergeWardrobe g items).
Proof.
  intros Hitems. unfold mergeWardrobe.
  destruct (existsb _ items) eqn:E; [exact Hitems|].
  rewrite fmap_app. apply NoDup_app. split; [exact Hitems|]. split.
  - intros x Hx Hg. cbn in Hg. apply list_elem_of_singleton in Hg. subst x.
    apply list_elem_of_fmap in Hx as (item & Hid & Hin).
    assert (Hex : existsb (fun item => String.eqb (id item) (id g)) items = true).
    { apply existsb_exists. exists item. split; [apply list_elem_of_In, Hin|].
      apply String.eqb_eq. auto. }
    congruence.
  - cbn. apply NoDup_singleton.
Qed.

Lemma mergeWardrobe_known (g : WardrobeItem) (items : list WardrobeItem) :
  (∃ item, item ∈ items ∧ id item = id g) → mergeWardrobe g items = items.
Proof.
  intros (item & Hin & Hid). unfold mergeWardrobe.
  destruct (existsb _ items) eqn:E; [reflexivity|].
  assert (Hex : existsb (fun item => String.eqb (id item) (id g)) items = true).
  { apply existsb_exists. exists item. split; [apply list_elem_of_In, Hin|].
    apply String.eqb_eq. exact Hid. }
  congruence.
Qed.

Lemma handle_wardrobe (e : Event) (a : App) :
  wardrobe (outcomeApp (handle e a)) = wardrobe a
  ∨ wardrobe (outcomeApp (handle e a)) = [].
Proof.
  destruct e; cbn [handle];
    unfold handleGarmentSelect, handlePoseSelect, handleColorChangeAtIndex,
           handleBackgroundChange, handleLightingChange,
           handleMagicWandEditAtIndex, handleGenerateLookbook,
           handleRevertToLayer, handleImageCrop, handleOpenCropModal,
           handleModelFinalized, handleUndo, handleRedo, getCurrentStateSnapshot;
    repeat match goal with
           | |- context [if ?b then _ else _] => destruct b
           | |- context [match ?x with _ => _ end] => destruct x
           end;
    cbn [outcomeApp]; rewrite ?updateStateWithHistory_wardrobe; auto.
Qed.

Lemma resume_wardrobe (k : Pending) (r : RemoteResult) (a : App) :
  wardrobe (resume k r a) = wardrobe a
  ∨ ∃ g, wardrobe (resume k r a) = mergeWardrobe g (wardrobe a).
Proof.
  unfold resume. cbv zeta.
  destruct (rest k), r; try destruct (js_index _ _);
    cbn [wardrobe endLoading setLoadingMessage setIsLoading setWardrobe setError
         setCurrentPoseIndex applyStateSnapshot setIsLookbookModalOpen setLookbookUrl];
    rewrite ?updateStateWithHistory_wardrobe; eauto.
Qed.

(** X13: no two wardrobe entries ever share an id; a garment whose id
    is already in the wardrobe is not added again, whatever its other
    fields are. *)
Theorem wardrobe_ids_unique :
  (∀ inputs, NoDup (id <$> wardrobe (app (run initialConfig inputs))))
  ∧ (∀ g items,
       (∃ item, item ∈ items ∧ id item = id g) → mergeWardrobe g items = items).
Proof.
  split; [|exact mergeWardrobe_known].
  assert (Hinit : NoDup (id <$> wardrobe (app initialConfig))) by constructor.
  revert Hinit. generalize initialConfig.
  intros c Hc inputs. revert c Hc.
  induction inputs as [|i inputs IH]; intros c Hc; [exact Hc|].
  cbn [run foldl]. apply IH. destruct i as [e | n r]; cbn [step].
  - pose proof (handle_wardrobe e (app c)) as Hw.
    destruct (handle e (app c)); cbn [outcomeApp app] in *;
      destruct Hw as [-> | ->]; first [exact Hc | constructor].
  - destruct (inflight c !! n) as [k|]; [|exact Hc]. cbn [app].
    destruct (resume_wardrobe k r (app c)) as [-> | [g ->]];
      [exact Hc | apply mergeWardrobe_NoDup, Hc].
Qed.

Lemma wardrobe_ids_unique_witness :
  mergeWardrobe (mkWardrobeItem "shirt-1" "Another shirt" "blob:other" top)
                (wardrobe (app afterScarf))
  = wardrobe (app afterScarf).
Proof.
  destruct wardrobe_ids_unique as [_ Hknown]. apply Hknown.
  exists shirt. split; [|reflexivity]. vm_compute. apply list_elem_of_here.
Defined.

(** ** Stored images *)

Lemma storeNonEmpty_alloc (m : PoseMap) (h : Store) :
  Forall (fun entry : string * string => entry.2 ≠ "") m →
  storeNonEmpty h → storeNonEmpty (alloc m h).2.
Proof.
  intros Hm Hh. unfold storeNonEmpty, alloc. cbn [snd].
  apply Forall_app. split; [exact Hh | apply Forall_singleton, Hm].
Qed.

Lemma obj_set_nonempty (k v : string) (m : PoseMap) :
  v ≠ "" →
  Forall (fun entry : string * string => entry.2 ≠ "") m →
  Forall (fun entry : string * string => entry.2 ≠ "") (obj_set k v m).
Proof.
  intros Hv. induction m as [|[k' v'] m IH]; intros Hm; cbn.
  - apply Forall_singleton. exact Hv.
  - apply Forall_cons in Hm as [Hv' Hm].
    destruct (String.eqb k k'); apply Forall_cons; auto.
Qed.

Lemma deref_nonempty (h : Store) (r : Ref) :
  storeNonEmpty h → Forall (fun entry : string * string => entry.2 ≠ "") (deref h r).
Proof.
  intros Hh. unfold deref. destruct (h !! r) as [m|] eqn:E; cbn; [|constructor].
  eapply Forall_lookup_1; eauto.
Qed.

Lemma storeNonEmpty_assign (r : Ref) (k v : string) (h : Store) :
  v ≠ "" → storeNonEmpty h → storeNonEmpty (assign r k v h).
Proof.
  intros Hv Hh. unfold assign. apply Forall_insert; [exact Hh|].
  apply obj_set_nonempty; [exact Hv | apply deref_nonempty, Hh].
Qed.

Lemma storeNonEmpty_freshLayer (g : option WardrobeItem) (key image : string) (h : Store) :
  image ≠ "" → storeNonEmpty h → storeNonEmpty (freshLayer g key image h).2.
Proof.
  intros Himage Hh. rewrite freshLayer_spec. cbn [snd].
  apply Forall_app. split; [exact Hh|].
  apply Forall_cons_2; [apply Forall_singleton; exact Himage|].
  apply Forall_cons_2; [apply Forall_nil_2|].
  apply Forall_cons_2; [apply Forall_nil_2|]. apply Forall_nil_2.
Qed.

Lemma updaters_nonempty (s : AppStateSnapshot) (h : Store) (image : string) :
  image ≠ "" → storeNonEmpty h →
  (∀ g, storeNonEmpty (appendGarment g image s h).2)
  ∧ (∀ newIndex, storeNonEmpty (storePose newIndex image s h).2)
  ∧ (∀ index, storeNonEmpty (replaceBaseAt index image s h).2)
  ∧ (∀ key prompt, storeNonEmpty (storeBackground key prompt image s h).2)
  ∧ (∀ key prompt, storeNonEmpty (storeLighting key prompt image s h).2)
  ∧ storeNonEmpty (cropCurrent image s h).2.
Proof.
  intros Himage Hh.
  pose proof (fun g key => storeNonEmpty_freshLayer g key image h Himage Hh) as Hfresh.
  assert (Hempty : storeNonEmpty (alloc [] h).2)
    by (apply storeNonEmpty_alloc; [constructor | exact Hh]).
  repeat split; intros;
    unfold appendGarment, storePose, replaceBaseAt, storeBackground, storeLighting,
           cropCurrent, replacedBaseLayer.
  - specialize (Hfresh (Some g) (pose_at 0)). destruct (freshLayer _ _ _ _). exact Hfresh.
  - destruct (js_index _ _); [|exact Hh]. apply storeNonEmpty_assign; assumption.
  - match goal with |- context [freshLayer ?g ?key image h] =>
      specialize (Hfresh g key); destruct (freshLayer g key image h) end. exact Hfresh.
  - destruct (js_index _ _) as [layer|]; [|exact Hh].
    destruct (backgroundModifiedImages layer); cbn [snd fst alloc] in *;
      apply storeNonEmpty_assign; assumption.
  - destruct (js_index _ _) as [layer|]; [|exact Hh].
    destruct (lightingModifiedImages layer); cbn [snd fst alloc] in *;
      apply storeNonEmpty_assign; assumption.
  - match goal with |- context [freshLayer ?g ?key image h] =>
      specialize (Hfresh g key); destruct (freshLayer g key image h) end. exact Hfresh.
Qed.

Lemma step_storeNonEmpty (c : Config) (i : Input) :
  imageInput i → storeNonEmpty (store (app c)) → storeNonEmpty (store (app (step c i))).
Proof.
  intros Hi Hc. destruct i as [e | n r]; cbn [step].
  - assert (He : storeNonEmpty (store (outcomeApp (handle e (app c))))).
    { destruct e as [modelUrl | | garmentFile g | index | newIndex | index newColor
                    | prompt | prompt | index instruction | templatePrompt
                    | | | cropped | | ];
        cbn [handle imageInput] in *;
        unfold handleGarmentSelect, handlePoseSelect, handleColorChangeAtIndex,
               handleBackgroundChange, handleLightingChange,
               handleMagicWandEditAtIndex, handleGenerateLookbook,
               handleRevertToLayer, handleImageCrop, handleOpenCropModal,
               handleUndo, handleRedo, getCurrentStateSnapshot;
        [ unfold handleModelFinalized;
          pose proof (storeNonEmpty_freshLayer None (pose_at 0) modelUrl
                        (store (app c)) Hi Hc) as Hfresh;
          destruct (freshLayer _ _ _ _); exact Hfresh
        | .. ];
        try (destruct (String.eqb_spec cropped ""); [exact Hc|];
             cbn [outcomeApp]; rewrite updateStateWithHistory_store;
             apply (updaters_nonempty _ _ cropped); assumption);
        repeat match goal with
               | |- context [if ?b then _ else _] => destruct b
               | |- context [match ?x with _ => _ end] => destruct x
               end;
        cbn [outcomeApp]; rewrite ?updateStateWithHistory_store; exact Hc. }
    destruct (handle e (app c)); exact He.
  - destruct (inflight c !! n) as [k|]; [|exact Hc]. cbn [app].
    unfold resume. cbv zeta.
    destruct r as [image | err]; cbn [imageInput] in Hi.
    + pose proof (updaters_nonempty (captured k) (store (app c)) image Hi Hc)
        as (Hg & Hp & Hr & Hb & Hl & _).
      destruct (rest k); try destruct (js_index _ _);
        cbn [store endLoading setLoadingMessage setIsLoading setWardrobe setError
             setCurrentPoseIndex applyStateSnapshot setIsLookbookModalOpen
             setLookbookUrl];
        rewrite ?updateStateWithHistory_store; auto.
    + destruct (rest k); exact Hc.
Qed.

Lemma obj_get_elem (k v : string) (m : PoseMap) :
  obj_get k m = Some v → ∃ k', (k', v) ∈ m.
Proof.
  induction m as [|[k' v'] m IH]; cbn; [discriminate|].
  destruct (String.eqb k k').
  - intros [= ->]. exists k'. apply list_elem_of_here.
  - intros H. destruct (IH H) as [k0 Hin]. exists k0. apply list_elem_of_further, Hin.
Qed.

(** X14: when the accepted model image and the results of the remote
    calls are non-empty strings, no object ever holds an empty image: a
    cache entry that exists is a usable image, so the presence tests of
    the display and of the handlers never skip an existing entry. *)
Theorem stored_images_nonempty (inputs : list Input) :
  Forall imageInput inputs →
  storeNonEmpty (store (app (run initialConfig inputs)))
  ∧ ∀ cache key, entryNonEmpty (store (app (run initialConfig inputs))) cache key.
Proof.
  intros Hinputs.
  assert (Hstore : storeNonEmpty (store (app (run initialConfig inputs)))).
  { assert (Hinit : storeNonEmpty (store (app initialConfig))) by constructor.
    revert Hinit. generalize initialConfig. induction Hinputs as [|i inputs Hi _ IH];
      intros c Hc; [exact Hc|].
    cbn [run foldl]. apply IH, step_storeNonEmpty; assumption. }
  split; [exact Hstore|].
  intros cache key image Hget. destruct cache as [r|]; [|discriminate Hget].
  apply obj_get_elem in Hget as [k' Hin].
  pose proof (deref_nonempty _ r Hstore) as Hall.
  rewrite Forall_forall in Hall. apply (Hall _ Hin).
Qed.

Lemma stored_images_nonempty_witness :
  let inputs :=
    [User (ModelFinalized "A");
     User (GarmentSelect "shirt.png" shirt); Settle 0 (Resolved "B");
     User (LightingChange "Bright studio lighting"); Settle 0 (Resolved "L")] in
  storeNonEmpty (store (app (run initialConfig inputs)))
  ∧ ∀ cache key, entryNonEmpty (store (app (run initialConfig inputs))) cache key.
Proof.
  intros inputs. apply (stored_images_nonempty inputs).
  repeat (apply Forall_cons_2; [first [exact I | discriminate] |]). apply Forall_nil_2.
Defined.

(** ** Changes made while a call is outstanding *)

(** X15: when a remote call of an edit succeeds, the snapshot installed
    is computed from the snapshot the handler started from, and that
    snapshot is the one pushed on the undo stack: whatever happened to
    the live snapshot in between (a revert or a start over, whose buttons
    stay enabled while busy, or an undo or redo, which the handlers
    themselves do not refuse) is overwritten and cannot be undone to. *)
Theorem settlement_overwrites
    (e : Event) (a a1 b : App) (call : RemoteCall) (k : Pending) (image : string) :
  handle e a = Awaiting a1 call k →
  (∀ templatePrompt, e ≠ GenerateLookbook templatePrompt) →
  store b = store a1 →
  state (resume k (Resolved image) b) = state (resume k (Resolved image) a1)
  ∧ undoStack (resume k (Resolved image) b) = undoStack b ++ [state a]
  ∧ redoStack (resume k (Resolved image) b) = [].
Proof.
  intros H Hlook Hstore.
  destruct e; cbn [handle] in H; try discriminate H;
    try (exfalso; eapply Hlook; reflexivity);
    unfold handleGarmentSelect, handlePoseSelect, handleColorChangeAtIndex,
           handleBackgroundChange, handleLightingChange,
           handleMagicWandEditAtIndex, getCurrentStateSnapshot in H;
    repeat match type of H with
           | context [if ?c then _ else _] => destruct c eqn:?
           | context [match ?x with _ => _ end] => destruct x eqn:?
           end;
    try discriminate H; injection H as <- <- <-;
    unfold resume; cbn [rest captured];
    repeat match goal with
           | G : js_index _ _ = Some _ |- _ => rewrite G
           end;
    cbn [state undoStack redoStack endLoading setLoadingMessage setIsLoading setWardrobe];
    rewrite !updateStateWithHistory_state, ?updateStateWithHistory_undoStack,
            ?updateStateWithHistory_redoStack, Hstore;
    auto.
Qed.


Lemma settlement_overwrites_witness :
  let k := mkPending (state (app afterScarf)) (AfterColor 2) in
  let a1 := beginLoading (MsgTWith "app.loading.coloring" "#EF4444") (app afterScarf) in
  let b := handleRevertToLayer 1 a1 in
  length (outfitHistory (state b)) = 1%nat
  ∧ state (resume k (Resolved "R") b) = state (resume k (Resolved "R") a1)
  ∧ undoStack (resume k (Resolved "R") b) = undoStack b ++ [state (app afterScarf)]
  ∧ redoStack (resume k (Resolved "R") b) = [].
Proof.
  intros k a1 b. split; [vm_compute; reflexivity|].
  refine (settlement_overwrites (ColorChangeAtIndex 2 "#EF4444") (app afterScarf) a1 b
           (changeGarmentColor "D" "#EF4444") k "R" _ _ _).
  - vm_compute. reflexivity.
  - discriminate.
  - vm_compute. reflexivity.
Defined.

(** ** Witnesses for the invariants stated earlier *)

Lemma no_layer_beyond_cursor_witness :
  let inputs :=
    [User (ModelFinalized "A");
     User (GarmentSelect "shirt.png" shirt); Settle 0 (Resolved "B");
     User (ImageCrop "X"); User Undo; User (RevertToLayer 1)] in
  let c := run initialConfig inputs in
  js_index (outfitHistory (state (app c))) (currentOutfitIndex (state (app c)) + 1) = None
  ∧ ∀ garmentFile g,
      handleGarmentSelect garmentFile g (app c) = Returned (app c)
      ∨ ∃ a1 call k, handleGarmentSelect garmentFile g (app c) = Awaiting a1 call k.
Proof.
  intros inputs c.
  refine (no_layer_beyond_cursor inputs c _).
  vm_compute. reflexivity.
Defined.

Lemma undo_after_pose_generation_witness :
  let k := mkPending (state (app afterShirt)) (AfterPose 1) in
  let a3 := handleUndo (resume k (Resolved "C") (app posing)) in
  state a3 = state (app afterShirt)
  ∧ ∃ layer,
      js_index (outfitHistory (state (app afterShirt)))
               (currentOutfitIndex (state (app afterShirt))) = Some layer
      ∧ truthy (obj_get (pose_at 1) (deref (store (app afterShirt)) (poseImages layer)))
        = false
      ∧ obj_get (pose_at 1) (deref (store a3) (poseImages layer)) = Some "C".
Proof.
  intros k.
  refine (undo_after_pose_generation 1 "C" (app afterShirt) (app posing)
           (generatePoseVariation "B" (pose_at 1)) k _).
  vm_compute. reflexivity.
Defined.

Lemma awaiting_layer_present_witness :
  let k := mkPending (state (app afterShirt)) (AfterPose 1) in
  captured k = state (app afterShirt)
  ∧ match rest k with
    | AfterPose _ | AfterBackground _ | AfterLighting _ =>
        is_Some (js_index (outfitHistory (state (app afterShirt)))
                          (currentOutfitIndex (state (app afterShirt))))
    | AfterColor index | AfterMagicWand index =>
        is_Some (js_index (outfitHistory (state (app afterShirt))) index)
    | AfterTryOn _ | AfterLookbook => True
    end.
Proof.
  intros k.
  refine (awaiting_layer_present (PoseSelect 1) (app afterShirt) (app posing)
           (generatePoseVariation "B" (pose_at 1)) k _).
  vm_compute. reflexivity.
Defined.

(** ** The pose arrows *)

Lemma indexOf_from_spec (arr : list string) (x : string) (i : Z) :
  0 ≤ i →
  (indexOf_from arr x i = -1 ∧ x ∉ arr)
  ∨ ∃ j : nat, indexOf_from arr x i = i + Z.of_nat j ∧ arr !! j = Some x.
Proof.
  revert i. induction arr as [|y arr IH]; intros i Hi; cbn.
  - left. split; [reflexivity | apply not_elem_of_nil].
  - destruct (String.eqb_spec y x) as [->|Hne].
    + right. exists 0%nat. split; [lia | reflexivity].
    + destruct (IH (i + 1) ltac:(lia)) as [[-> Hnot] | (j & -> & Hj)].
      * left. split; [reflexivity|]. apply not_elem_of_cons. split; [congruence | exact Hnot].
      * right. exists (S j). split; [lia | exact Hj].
Qed.

Lemma js_indexOf_spec (arr : list string) (x : option string) :
  js_indexOf arr x = -1
  ∨ ∃ (j : nat) (s : string),
      x = Some s ∧ js_indexOf arr x = Z.of_nat j ∧ arr !! j = Some s.
Proof.
  destruct x as [s|]; [|left; reflexivity]. cbn.
  destruct (indexOf_from_spec arr s 0 ltac:(lia)) as [[-> _] | (j & -> & Hj)].
  - left. reflexivity.
  - right. exists j, s. split; [reflexivity | split; [lia | exact Hj]].
Qed.

Lemma js_indexOf_elem (arr : list string) (s : string) :
  s ∈ arr → js_indexOf arr (Some s) ≠ -1.
Proof.
  intros Hin. cbn.
  destruct (indexOf_from_spec arr s 0 ltac:(lia)) as [[_ Hnot] | (j & -> & _)];
    [contradiction | lia].
Qed.

Lemma js_index_nat {A} (arr : list A) (j : nat) :
  js_index arr (Z.of_nat j) = arr !! j.
Proof.
  unfold js_index. destruct (Z.leb_spec 0 (Z.of_nat j)); [|lia].
  rewrite Nat2Z.id. reflexivity.
Qed.

Lemma js_index_Some_range {A} (arr : list A) (i : Z) (x : A) :
  js_index arr i = Some x → 0 ≤ i < Z.of_nat (length arr).
Proof.
  unfold js_index. destruct (Z.leb_spec 0 i); [|discriminate].
  intros Hx%lookup_lt_Some. lia.
Qed.

Lemma rem_succ_range (i n : Z) :
  0 ≤ i < n → 1 < n → 0 ≤ Z.rem (i + 1) n < n ∧ Z.rem (i + 1) n ≠ i.
Proof.
  intros Hi Hn. rewrite Z.rem_mod_nonneg by lia.
  destruct (Z.eq_dec (i + 1) n) as [E|E].
  - rewrite E, Z.mod_same by lia. lia.
  - rewrite Z.mod_small by lia. lia.
Qed.

Lemma rem_pred_range (i n : Z) :
  0 ≤ i < n → 1 < n → 0 ≤ Z.rem (i - 1 + n) n < n ∧ Z.rem (i - 1 + n) n ≠ i.
Proof.
  intros Hi Hn. rewrite Z.rem_mod_nonneg by lia.
  destruct (Z.eq_dec i 0) as [->|E].
  - rewrite Z.mod_small by lia. lia.
  - replace (i - 1 + n) with (i - 1 + 1 * n) by lia.
    rewrite Z.mod_add by lia. rewrite Z.mod_small by lia. lia.
Qed.

(** X18: the next-pose arrow, when it selects a pose, selects a pose of
    the list other than the current one: either a pose that has an image
    in the current layer, or the pose after the current one, wrapping
    from the last to the first.  It always selects one when every cached
    key is a pose of the list. *)
Theorem next_pose_moves (p : Canvas.Props) :
  let n := Z.of_nat (length (Canvas.poseInstructions p)) in
  0 ≤ Canvas.currentPoseIndex p < n → 1 < n →
  NoDup (Canvas.availablePoseKeys p) →
  (∀ g, Canvas.handleNextPose p = Some g →
        0 ≤ g < n ∧ g ≠ Canvas.currentPoseIndex p
        ∧ (Canvas.cached p g ∨ g = (Canvas.currentPoseIndex p + 1) mod n))
  ∧ (Canvas.isLoading p = false →
     Forall (λ key, key ∈ Canvas.poseInstructions p) (Canvas.availablePoseKeys p) →
     is_Some (Canvas.handleNextPose p)).
Proof.
  intros n Hcur Hn Hdup.
  pose proof (rem_succ_range _ _ Hcur Hn) as [Hr Hne].
  assert (Hmod : Z.rem (Canvas.currentPoseIndex p + 1) n
                 = (Canvas.currentPoseIndex p + 1) mod n)
    by (apply Z.rem_mod_nonneg; lia).
  unfold Canvas.handleNextPose. fold n.
  destruct (Canvas.isLoading p); [split; [intros g [=] | discriminate]|].
  set (cur := js_index (Canvas.poseInstructions p) (Canvas.currentPoseIndex p)).
  destruct (js_indexOf_spec (Canvas.availablePoseKeys p) cur)
    as [-> | (j & kc & Hcurkey & -> & Hj)].
  { cbn [Z.eqb orb]. split; [intros g [= <-]; split; [lia | split; [lia | right; lia]] | eauto]. }
  destruct (Z.eqb_spec (Z.of_nat j) (-1)); [lia|].
  destruct (Z.eqb_spec (Z.of_nat (length (Canvas.availablePoseKeys p))) 0) as [E0|_].
  { apply lookup_lt_Some in Hj. lia. }
  cbn [orb].
  destruct (Z.ltb_spec (Z.of_nat j + 1) (Z.of_nat (length (Canvas.availablePoseKeys p))))
    as [Hlt|Hge].
  2:{ split; [intros g [= <-]; split; [lia | split; [lia | right; lia]] | eauto]. }
  replace (Z.of_nat j + 1) with (Z.of_nat (S j)) by lia. rewrite js_index_nat.
  destruct (Canvas.availablePoseKeys p !! S j) as [kn|] eqn:Hn'.
  2:{ apply lookup_ge_None in Hn'. lia. }
  destruct (js_indexOf_spec (Canvas.poseInstructions p) (Some kn))
    as [E | (g' & s & [= <-] & E & Hg')].
  - rewrite E. cbn. split; [intros g [=]|].
    intros _ Hall. exfalso. rewrite Forall_forall in Hall.
    eapply js_indexOf_elem; [|exact E]. apply Hall. eapply list_elem_of_lookup_2; eauto.
  - rewrite E. destruct (Z.eqb_spec (Z.of_nat g') (-1)); [lia|]. cbn [negb].
    split; [|eauto]. intros g [= <-].
    split; [apply lookup_lt_Some in Hg'; lia|].
    split.
    + intros Heq. subst cur. rewrite <- Heq, js_index_nat, Hg' in Hcurkey.
      injection Hcurkey as <-.
      pose proof (NoDup_lookup _ _ _ _ Hdup Hj Hn'). lia.
    + left. exists kn. rewrite js_index_nat. split; [exact Hg'|].
      eapply list_elem_of_lookup_2; eauto.
Qed.

Lemma js_indexOf_absent (arr : list string) (s : string) :
  js_indexOf arr (Some s) = -1 → s ∉ arr.
Proof.
  cbn. destruct (indexOf_from_spec arr s 0 ltac:(lia)) as [[_ Hnot] | (j & -> & _)];
    [auto | lia].
Qed.

Lemma js_index_nonneg {A} (arr : list A) (i : Z) :
  0 ≤ i → js_index arr i = arr !! Z.to_nat i.
Proof. unfold js_index. intros Hi. destruct (Z.leb_spec 0 i); [reflexivity | lia]. Qed.

Lemma handlePreviousPose_spec (p : Canvas.Props) (g : Z) :
  let n := Z.of_nat (length (Canvas.poseInstructions p)) in
  0 ≤ Canvas.currentPoseIndex p < n → 1 < n →
  NoDup (Canvas.availablePoseKeys p) →
  Canvas.handlePreviousPose p = Some g →
  Canvas.isLoading p = false
  ∧ 0 ≤ g < n ∧ g ≠ Canvas.currentPoseIndex p
  ∧ (Canvas.cached p (Canvas.currentPoseIndex p) → Canvas.cached p g)
  ∧ (¬ Canvas.cached p (Canvas.currentPoseIndex p) →
     g = (Canvas.currentPoseIndex p - 1) mod n).
Proof.
  intros n Hcur Hn Hdup.
  pose proof (rem_pred_range _ _ Hcur Hn) as [Hr Hne].
  assert (Hmod : Z.rem (Canvas.currentPoseIndex p - 1 + n) n
                 = (Canvas.currentPoseIndex p - 1) mod n).
  { rewrite Z.rem_mod_nonneg by lia.
    replace (Canvas.currentPoseIndex p - 1 + n)
      with (Canvas.currentPoseIndex p - 1 + 1 * n) by lia.
    apply Z.mod_add. lia. }
  unfold Canvas.handlePreviousPose. fold n.
  destruct (Canvas.isLoading p); [discriminate|]. cbn [orb].
  destruct (Z.leb_spec (Z.of_nat (length (Canvas.availablePoseKeys p))) 1) as [|Hlen];
    [discriminate|].
  destruct (js_index (Canvas.poseInstructions p) (Canvas.currentPoseIndex p))
    as [kc|] eqn:Hkc.
  2:{ unfold js_index in Hkc. destruct (Z.leb_spec 0 (Canvas.currentPoseIndex p)); [|lia].
      apply lookup_ge_None in Hkc. exfalso. unfold n in *. lia. }
  destruct (js_indexOf_spec (Canvas.availablePoseKeys p) (Some kc))
    as [E | (j & s & [= <-] & E & Hj)]; rewrite E.
  { cbn [Z.eqb]. intros [= <-]. split; [reflexivity|]. split; [lia|]. split; [lia|].
    split; [|intros _; lia].
    intros (key & Hkey & Hin). exfalso. rewrite Hkc in Hkey. injection Hkey as <-.
    apply js_indexOf_absent in E. contradiction. }
  destruct (Z.eqb_spec (Z.of_nat j) (-1)); [lia|].
  pose proof (lookup_lt_Some _ _ _ Hj) as Hjlt.
  pose proof (rem_pred_range (Z.of_nat j)
                (Z.of_nat (length (Canvas.availablePoseKeys p))) ltac:(lia) Hlen)
    as [Hpr Hpne].
  set (prev := Z.rem (Z.of_nat j - 1 + _) _) in *.
  rewrite (js_index_nonneg _ prev) by lia.
  destruct (Canvas.availablePoseKeys p !! Z.to_nat prev) as [kp|] eqn:Hkp.
  2:{ apply lookup_ge_None in Hkp. lia. }
  destruct (js_indexOf_spec (Canvas.poseInstructions p) (Some kp))
    as [E' | (g' & s & [= <-] & E' & Hg')]; rewrite E'; [discriminate|].
  destruct (Z.eqb_spec (Z.of_nat g') (-1)); [lia|]. cbn [negb]. intros [= <-].
  assert (Hcached : Canvas.cached p (Z.of_nat g')).
  { exists kp. rewrite js_index_nat. split; [exact Hg'|].
    eapply list_elem_of_lookup_2; eauto. }
  split; [reflexivity|].
  split; [apply lookup_lt_Some in Hg'; lia|].
  split; [|split; [auto|]].
  - intros Heq. rewrite <- Heq, js_index_nat, Hg' in Hkc. injection Hkc as <-.
    pose proof (NoDup_lookup _ _ _ _ Hdup Hj Hkp). lia.
  - intros Hnot. exfalso. apply Hnot. exists kc. split; [exact Hkc|].
    eapply list_elem_of_lookup_2; eauto.
Qed.

Lemma obj_get_key (key : string) (m : PoseMap) :
  key ∈ Object_keys m → ∃ v, obj_get key m = Some v.
Proof.
  unfold Object_keys. induction m as [|[k v] m IH]; cbn.
  - intros Hin. apply elem_of_nil in Hin. contradiction.
  - intros Hin. destruct (String.eqb_spec key k) as [->|Hne]; [eauto|].
    apply elem_of_cons in Hin as [->|Hin]; [contradiction | auto].
Qed.

Lemma pose_at_index (g : Z) (key : string) :
  js_index POSE_INSTRUCTIONS g = Some key → pose_at g = key.
Proof. unfold pose_at. intros ->. reflexivity. Qed.

(** X19: the previous-pose arrow never asks for a new image while the
    pose on display has one.  With the keys of the current layer's pose
    object distinct and no empty image stored, a click that selects a
    pose selects another pose of the list; when the current pose has an
    image in the current layer, so has the selected one, and pose
    selection switches to it at once, as one undoable step; otherwise
    the arrow selects the pose before the current one, wrapping from the
    first to the last. *)
Theorem previous_pose_needs_no_call (a : App) (g : Z) :
  let cur := currentPoseIndex (state a) in
  0 ≤ cur < 6 →
  NoDup (availablePoseKeys a) →
  storeNonEmpty (store a) →
  Canvas.handlePreviousPose (canvasProps a) = Some g →
  0 ≤ g < 6 ∧ g ≠ cur
  ∧ (pose_at cur ∈ availablePoseKeys a →
     pose_at g ∈ availablePoseKeys a
     ∧ handlePoseSelect g a
       = Returned (updateStateWithHistory (state a) (switchPose g) a))
  ∧ (pose_at cur ∉ availablePoseKeys a → g = (cur - 1) mod 6).
Proof.
  intros cur Hcur Hdup Hstore Hprev.
  destruct (handlePreviousPose_spec (canvasProps a) g Hcur ltac:(cbn; lia) Hdup Hprev)
    as (Hload & Hg & Hne & Hin & Hout).
  cbn [canvasProps Canvas.isLoading Canvas.poseInstructions Canvas.currentPoseIndex
       Canvas.availablePoseKeys length] in *.
  fold cur in Hne, Hin, Hout.
  assert (Hcurkey : js_index POSE_INSTRUCTIONS cur = Some (pose_at cur)).
  { unfold pose_at. destruct (js_index POSE_INSTRUCTIONS cur) eqn:E; [reflexivity|].
    unfold js_index in E. destruct (Z.leb_spec 0 cur); [|lia].
    apply lookup_ge_None in E. cbn in E. lia. }
  split; [exact Hg|]. split; [exact Hne|]. split.
  - intros Hcached.
    destruct Hin as (key & Hkey & Hkeyin).
    { exists (pose_at cur). split; [exact Hcurkey | exact Hcached]. }
    cbn [Canvas.poseInstructions Canvas.availablePoseKeys canvasProps] in Hkey, Hkeyin.
    apply pose_at_index in Hkey. subst key. split; [exact Hkeyin|].
    unfold handlePoseSelect, getCurrentStateSnapshot. rewrite Hload. cbn [orb].
    unfold availablePoseKeys in Hkeyin.
    destruct (length (outfitHistory (state a)) =? 0)%nat;
      [apply elem_of_nil in Hkeyin; contradiction|].
    destruct (Z.eqb_spec g (currentPoseIndex (state a))); [contradiction|]. cbn [orb].
    destruct (js_index (outfitHistory (state a)) (currentOutfitIndex (state a)))
      as [layer|]; [|apply elem_of_nil in Hkeyin; contradiction].
    destruct (obj_get_key _ _ Hkeyin) as [v Hv]. rewrite Hv.
    apply obj_get_elem in Hv as Hel. destruct Hel as [k' Hel].
    pose proof (deref_nonempty _ (poseImages layer) Hstore) as Hall.
    rewrite Forall_forall in Hall. specialize (Hall _ Hel). cbn in Hall.
    unfold truthy. destruct (String.eqb_spec v ""); [contradiction|]. reflexivity.
  - intros Hnot. apply Hout. intros (key & Hkey & Hkeyin).
    cbn [Canvas.poseInstructions Canvas.availablePoseKeys Canvas.currentPoseIndex
         canvasProps] in Hkey, Hkeyin.
    apply Hnot. rewrite Hcurkey in Hkey. injection Hkey as <-. exact Hkeyin.
Qed.

Lemma next_pose_moves_witness :
  let p := Canvas.mkProps false POSE_INSTRUCTIONS 0 [pose_at 0; pose_at 1] in
  let n := Z.of_nat (length (Canvas.poseInstructions p)) in
  Canvas.handleNextPose p = Some 1
  ∧ (∀ g, Canvas.handleNextPose p = Some g →
          0 ≤ g < n ∧ g ≠ Canvas.currentPoseIndex p
          ∧ (Canvas.cached p g ∨ g = (Canvas.currentPoseIndex p + 1) mod n))
  ∧ (Canvas.isLoading p = false →
     Forall (λ key, key ∈ Canvas.poseInstructions p) (Canvas.availablePoseKeys p) →
     is_Some (Canvas.handleNextPose p)).
Proof.
  intros p n. split; [vm_compute; reflexivity|].
  refine (next_pose_moves p _ _ _).
  - vm_compute. split; [discriminate | reflexivity].
  - vm_compute. reflexivity.
  - refine (bool_decide_unpack _ _). vm_compute. exact I.
Defined.

Lemma previous_pose_needs_no_call_witness :
  let a := app (run afterShirt [User (PoseSelect 1); Settle 0 (Resolved "C")]) in
  let cur := currentPoseIndex (state a) in
  Canvas.handlePreviousPose (canvasProps a) = Some 0
  ∧ 0 ≤ 0 < 6 ∧ 0 ≠ cur
  ∧ (pose_at cur ∈ availablePoseKeys a →
     pose_at 0 ∈ availablePoseKeys a
     ∧ handlePoseSelect 0 a
       = Returned (updateStateWithHistory (state a) (switchPose 0) a))
  ∧ (pose_at cur ∉ availablePoseKeys a → 0 = (cur - 1) mod 6).
Proof.
  intros a cur. split; [vm_compute; reflexivity|].
  refine (previous_pose_needs_no_call a 0 _ _ _ _).
  - vm_compute. split; [discriminate | reflexivity].
  - refine (bool_decide_unpack _ _). vm_compute. exact I.
  - unfold storeNonEmpty. vm_compute. repeat (constructor; try discriminate).
  - vm_compute. reflexivity.
Defined.

(** ** The generation service *)

Section DataUrl.
Import geminiService.

Lemma split_comma_free (s : jsString) :
  Forall (λ c, c ≠ 44%N) s → split 44 s = [s].
Proof.
  induction 1 as [|c s Hc _ IH]; [reflexivity|]. simpl.
  destruct (N.eqb_spec c 44); [contradiction|]. rewrite IH. reflexivity.
Qed.

Lemma split_at_comma (s t : jsString) :
  Forall (λ c, c ≠ 44%N) s → split 44 (s ++ 44%N :: t) = s :: split 44 t.
Proof.
  induction 1 as [|c s Hc _ IH]; [reflexivity|]. simpl.
  destruct (N.eqb_spec c 44); [contradiction|]. rewrite IH. reflexivity.
Qed.

Lemma split_inv (s piece : jsString) (pieces : list jsString) :
  split 44 s = piece :: pieces →
  Forall (λ c, c ≠ 44%N) piece
  ∧ ((s = piece ∧ pieces = []) ∨ ∃ t, s = piece ++ 44%N :: t ∧ pieces = split 44 t).
Proof.
  revert piece pieces. induction s as [|c s IH]; intros piece pieces; simpl.
  - intros [= <- <-]. split; [constructor | left; split; reflexivity].
  - destruct (N.eqb_spec c 44) as [->|Hc].
    + intros [= <- <-]. split; [constructor | right; exists s; split; reflexivity].
    + destruct (split 44 s) as [|p ps] eqn:E.
      * intros [= <- <-]. destruct s; cbn in E; [discriminate|].
        destruct (_ =? _)%N; [discriminate|]. destruct (split 44 s); discriminate.
      * intros [= <- <-]. destruct (IH p ps eq_refl) as [Hp Hs].
        split; [constructor; assumption|].
        destruct Hs as [[-> ->] | (t & -> & ->)]; [left | right; exists t];
          split; reflexivity.
Qed.

Lemma lazyUpToSemicolon_cons (c : N) (s : jsString) :
  lazyUpToSemicolon (c :: s)
  = if (c =? 59)%N then Some []
    else if lineTerminator c then None else cons c <$> lazyUpToSemicolon s.
Proof. reflexivity. Qed.

Lemma lazyUpToSemicolon_complete (capture rest : jsString) :
  Forall capturable capture →
  lazyUpToSemicolon (capture ++ 59%N :: rest) = Some capture.
Proof.
  induction 1 as [|c s [Hc Hlt] _ IH]; [reflexivity|].
  rewrite <- app_comm_cons, lazyUpToSemicolon_cons.
  destruct (N.eqb_spec c 59); [contradiction|]. rewrite Hlt, IH. reflexivity.
Qed.

Lemma lazyUpToSemicolon_sound (s capture : jsString) :
  lazyUpToSemicolon s = Some capture →
  Forall capturable capture ∧ ∃ rest, s = capture ++ 59%N :: rest.
Proof.
  revert capture. induction s as [|c s IH]; intros capture;
    [discriminate | rewrite lazyUpToSemicolon_cons].
  destruct (N.eqb_spec c 59) as [->|Hc].
  - intros [= <-]. split; [constructor | exists s; reflexivity].
  - destruct (lineTerminator c) eqn:Hlt; [discriminate|].
    destruct (lazyUpToSemicolon s) as [cap|]; [|discriminate].
    intros [= <-]. destruct (IH cap eq_refl) as [Hcap [rest ->]].
    split; [constructor; [split; assumption | exact Hcap] | exists rest; reflexivity].
Qed.

Lemma matchMimeType_cons (c : N) (s : jsString) :
  matchMimeType (c :: s)
  = match (if (c =? 58)%N then lazyUpToSemicolon s else None) with
    | Some capture => Some capture
    | None => matchMimeType s
    end.
Proof. reflexivity. Qed.

Lemma matchMimeType_complete (before capture rest : jsString) :
  Forall (λ c, c ≠ 58%N) before → Forall capturable capture →
  matchMimeType (before ++ 58%N :: capture ++ 59%N :: rest) = Some capture.
Proof.
  intros Hbefore Hcap. induction Hbefore as [|c s Hc _ IH].
  - rewrite app_nil_l, matchMimeType_cons, N.eqb_refl.
    rewrite lazyUpToSemicolon_complete by exact Hcap. reflexivity.
  - rewrite <- app_comm_cons, matchMimeType_cons.
    destruct (N.eqb_spec c 58); [contradiction|]. exact IH.
Qed.

Lemma matchMimeType_sound (s capture : jsString) :
  matchMimeType s = Some capture →
  Forall capturable capture
  ∧ ∃ before rest, s = before ++ 58%N :: capture ++ 59%N :: rest.
Proof.
  induction s as [|c s IH]; [discriminate | rewrite matchMimeType_cons].
  destruct (N.eqb_spec c 58) as [->|Hc].
  - destruct (lazyUpToSemicolon s) as [cap|] eqn:E.
    + intros [= <-]. apply lazyUpToSemicolon_sound in E as [Hcap [rest ->]].
      split; [exact Hcap | exists [], rest; reflexivity].
    + intros H. destruct (IH H) as [Hcap (before & rest & ->)].
      split; [exact Hcap | exists (58%N :: before), rest; reflexivity].
  - intros H. destruct (IH H) as [Hcap (before & rest & ->)].
    split; [exact Hcap | exists (c :: before), rest; reflexivity].
Qed.

Ltac literal_avoids :=
  repeat (apply Forall_cons_2; [discriminate|]); apply Forall_nil_2.

Lemma dataUrlToParts_template (mime payload : jsString) :
  mime ≠ [] →
  Forall (λ c, c ≠ 44%N ∧ capturable c) mime →
  Forall (λ c, c ≠ 44%N) payload →
  dataUrlToParts (lit "data:" ++ mime ++ lit ";base64," ++ payload)
  = Return (mime, payload).
Proof.
  intros Hne Hmime Hpayload.
  change (lit "data:") with ([100; 97; 116; 97; 58]%N).
  change (lit ";base64,") with ([59; 98; 97; 115; 101; 54; 52; 44]%N).
  unfold dataUrlToParts.
  replace ([100; 97; 116; 97; 58]%N ++ mime ++ [59; 98; 97; 115; 101; 54; 52; 44]%N ++ payload)
    with (([100; 97; 116; 97; 58]%N ++ mime ++ [59; 98; 97; 115; 101; 54; 52]%N)
            ++ 44%N :: payload)
    by (rewrite <- !app_assoc; reflexivity).
  rewrite split_at_comma by
    (apply Forall_app; split;
       [literal_avoids
       | apply Forall_app; split;
           [eapply Forall_impl; [exact Hmime | intros c [Hc _]; exact Hc]
           | literal_avoids]]).
  rewrite split_comma_free by exact Hpayload.
  cbn [length Nat.ltb Nat.leb lookup list_lookup default]. unfold Datatypes.id.
  change ([100; 97; 116; 97; 58]%N ++ mime ++ [59; 98; 97; 115; 101; 54; 52]%N)
    with ([100; 97; 116; 97]%N ++ 58%N :: mime ++ 59%N :: [98; 97; 115; 101; 54; 52]%N).
  rewrite matchMimeType_complete.
  - destruct mime; [contradiction | reflexivity].
  - literal_avoids.
  - eapply Forall_impl; [exact Hmime | intros c [_ Hc]; exact Hc].
Qed.

Lemma find_split {A} (f : A → bool) (l : list A) (x : A) :
  List.find f l = Some x →
  ∃ l1 l2, l = l1 ++ x :: l2 ∧ f x = true ∧ Forall (λ y, f y = false) l1.
Proof.
  induction l as [|y l IH]; cbn; [discriminate|].
  destruct (f y) eqn:E.
  - intros [= <-]. exists [], l. split; [reflexivity | split; [exact E | constructor]].
  - intros H. destruct (IH H) as (l1 & l2 & -> & Hx & Hl1).
    exists (y :: l1), l2. split; [reflexivity | split; [exact Hx|]].
    constructor; assumption.
Qed.

Lemma find_none_all {A} (f : A → bool) (l : list A) :
  List.find f l = None → Forall (λ y, f y = false) l.
Proof.
  induction l as [|y l IH]; cbn; [constructor|].
  destruct (f y) eqn:E; [discriminate|]. intros H. constructor; auto.
Qed.

Lemma has_inlineData_false (part : Part) :
  bool_decide (is_Some (inlineData part)) = false → inlineData part = None.
Proof.
  intros H%bool_decide_eq_false. destruct (inlineData part); [|reflexivity].
  exfalso. apply H. eauto.
Qed.

Lemma imagePartOf_none (candidate : Candidate) :
  imagePartOf candidate ≫= inlineData = None →
  ∀ c ps, content candidate = Some c → parts c = Some ps →
          Forall (λ p, inlineData p = None) ps.
Proof.
  unfold imagePartOf. intros H c ps Hc Hps. rewrite Hc, Hps in H.
  destruct (List.find _ ps) as [part|] eqn:E.
  - apply find_split in E as (l1 & l2 & _ & Hpart & _). cbn in H.
    apply bool_decide_eq_true in Hpart as [image Himage]. congruence.
  - apply find_none_all in E. eapply Forall_impl; [exact E|].
    intros part. apply has_inlineData_false.
Qed.

Lemma firstInlineData_firstImage (cs : list Candidate) (image : InlineData) :
  firstInlineData cs = Some image → firstImage cs image.
Proof.
  induction cs as [|candidate cs IH]; cbn [firstInlineData]; [discriminate|].
  destruct (imagePartOf candidate ≫= inlineData) as [found|] eqn:E.
  - intros [= ->]. unfold imagePartOf in E.
    destruct (content candidate) as [c|] eqn:Hc; [|discriminate E].
    destruct (parts c) as [ps|] eqn:Hps; [|discriminate E].
    destruct (List.find _ ps) as [part|] eqn:Hfind; [|discriminate E].
    cbn in E. apply find_split in Hfind as (ps1 & ps2 & -> & _ & Hps1).
    exists [], candidate, cs, c, ps1, part, ps2.
    split; [reflexivity|]. split; [constructor|]. split; [exact Hc|].
    split; [exact Hps|]. split; [|exact E].
    eapply Forall_impl; [exact Hps1|]. intros p. apply has_inlineData_false.
  - intros H. destruct (IH H) as (cs1 & cand & cs2 & c & ps1 & part & ps2
                                   & -> & Hcs1 & Hc & Hps & Hps1 & Hpart).
    exists (candidate :: cs1), cand, cs2, c, ps1, part, ps2.
    split; [reflexivity|]. split; [|auto].
    constructor; [apply imagePartOf_none, E | exact Hcs1].
Qed.

Lemma handleApiResponse_blocked (response : GenerateContentResponse) :
  blocked response = true → ∃ message, handleApiResponse response = Throw message.
Proof.
  unfold blocked, handleApiResponse. destruct (promptFeedback response) as [feedback|];
    [|discriminate].
  intros ->. eauto.
Qed.

Lemma handleApiResponse_not_blocked (response : GenerateContentResponse) (image : InlineData) :
  blocked response = false →
  firstInlineData (default [] (candidates response)) = Some image →
  handleApiResponse response
  = Return (lit "data:" ++ interpolate (mimeType image)
            ++ lit ";base64," ++ interpolate (data image)).
Proof.
  unfold blocked, handleApiResponse. intros Hb ->.
  destruct (promptFeedback response) as [feedback|]; [rewrite Hb|]; reflexivity.
Qed.

(** X20: an image the model returned can be sent back to it.  For a
    response that is not blocked and whose first inline-data part has a
    non-empty MIME type without comma, semicolon or line terminator and
    data without comma (as base64 data are), the service returns a data
    URL, and the part the generators rebuild from that URL carries the
    MIME type and the data the model sent. *)
Theorem generated_image_parses_back
    (response : GenerateContentResponse) (mime payload : jsString) :
  blocked response = false →
  firstInlineData (default [] (candidates response))
  = Some (mkInlineData (Some mime) (Some payload)) →
  mime ≠ [] →
  Forall (λ c, c ≠ 44%N ∧ capturable c) mime →
  Forall (λ c, c ≠ 44%N) payload →
  ∃ url, handleApiResponse response = Return url
         ∧ dataUrlToPart url = Return (mkInlineData (Some mime) (Some payload)).
Proof.
  intros Hb Hfirst Hne Hmime Hpayload.
  eexists. split; [apply handleApiResponse_not_blocked; eassumption|].
  cbn [mimeType data interpolate default]. unfold Datatypes.id, dataUrlToPart.
  rewrite dataUrlToParts_template by assumption. reflexivity.
Qed.

(** X21: the service returns an image only for a response that is not
    blocked, and the image is then the inline data of the first part
    that has some, in the first candidate that has such a part, written
    as a data URL; a blocked response fails whatever it carries. *)
Theorem image_only_from_inline_data
    (response : GenerateContentResponse) (url : jsString) :
  handleApiResponse response = Return url →
  blocked response = false
  ∧ ∃ image, firstImage (default [] (candidates response)) image
             ∧ url = lit "data:" ++ interpolate (mimeType image)
                     ++ lit ";base64," ++ interpolate (data image).
Proof.
  intros H.
  destruct (blocked response) eqn:Hb.
  { destruct (handleApiResponse_blocked response Hb) as [m Hm]. congruence. }
  split; [reflexivity|].
  destruct (firstInlineData (default [] (candidates response))) as [image|] eqn:E.
  - rewrite (handleApiResponse_not_blocked response image Hb E) in H.
    injection H as <-. exists image. split; [|reflexivity].
    apply firstInlineData_firstImage, E.
  - exfalso. unfold blocked, handleApiResponse in *. rewrite E in H.
    destruct (promptFeedback response) as [feedback|]; [rewrite Hb in H|];
      destruct (_ && _); discriminate H.
Qed.

(** X22: what the data-URL parser accepts.  A URL it splits has the form
    [before:mime;between,payload] possibly followed by a comma and more:
    the MIME type is not empty and holds no comma, semicolon or line
    terminator, the data hold no comma, whatever follows a second comma
    is dropped, and neither the scheme nor the encoding name is
    looked at. *)
Theorem dataUrlToParts_accepts (dataUrl mime payload : jsString) :
  dataUrlToParts dataUrl = Return (mime, payload) →
  mime ≠ []
  ∧ Forall (λ c, c ≠ 44%N ∧ capturable c) mime
  ∧ Forall (λ c, c ≠ 44%N) payload
  ∧ ∃ before between rest,
      dataUrl = before ++ 58%N :: mime ++ 59%N :: between ++ 44%N :: payload ++ rest
      ∧ Forall (λ c, c ≠ 44%N) (before ++ between)
      ∧ (rest = [] ∨ ∃ more, rest = 44%N :: more).
Proof.
  unfold dataUrlToParts.
  destruct (split 44 dataUrl) as [|piece pieces] eqn:E; [discriminate|].
  destruct pieces as [|second pieces]; [discriminate|].
  cbn [length Nat.ltb Nat.leb lookup list_lookup default]. unfold Datatypes.id.
  destruct (matchMimeType piece) as [[|c capture]|] eqn:Hm; try discriminate.
  intros [= <- <-].
  apply split_inv in E as [Hpiece [[_ [=]] | (t & -> & Hsplit)]].
  symmetry in Hsplit. apply split_inv in Hsplit as [Hsecond Ht].
  apply matchMimeType_sound in Hm as [Hcap (before & rest & ->)].
  apply Forall_app in Hpiece as [Hbefore Hpiece].
  apply Forall_cons in Hpiece as [_ Hpiece].
  change (c :: capture ++ 59%N :: rest) with ((c :: capture) ++ 59%N :: rest) in Hpiece.
  apply Forall_app in Hpiece as [Hmime Hpiece].
  apply Forall_cons in Hpiece as [_ Hrest].
  split; [discriminate|].
  split; [apply Forall_and; split; assumption|].
  split; [exact Hsecond|].
  destruct Ht as [[-> _] | (more & -> & _)].
  - exists before, rest, []. rewrite app_nil_r.
    split; [repeat first [rewrite <- app_assoc | rewrite <- app_comm_cons]; reflexivity|].
    split; [apply Forall_app; split; assumption | left; reflexivity].
  - exists before, rest, (44%N :: more).
    split; [repeat first [rewrite <- app_assoc | rewrite <- app_comm_cons]; reflexivity|].
    split; [apply Forall_app; split; assumption | right; eauto].
Qed.

Ltac codes_plain :=
  repeat (apply Forall_cons_2;
          [first [discriminate
                 | split; [discriminate | split; [discriminate | reflexivity]]] |]);
  apply Forall_nil_2.

Lemma generated_image_parses_back_witness :
  let mime := lit "image/png" in
  let payload := lit "iVBORw0KGgo=" in
  let response :=
    mkResponse None
      (Some [mkCandidate (Some (mkContent (Some [mkPart None])))
                         (Some (lit "STOP"));
             mkCandidate (Some (mkContent
                            (Some [mkPart None;
                                   mkPart (Some (mkInlineData (Some mime) (Some payload)))])))
                         (Some (lit "STOP"))])
      (Some (lit "Here is the image.")) in
  ∃ url, handleApiResponse response = Return url
         ∧ dataUrlToPart url = Return (mkInlineData (Some mime) (Some payload)).
Proof.
  intros mime payload response.
  refine (generated_image_parses_back response mime payload _ _ _ _ _).
  - reflexivity.
  - reflexivity.
  - discriminate.
  - vm_compute in mime. codes_plain.
  - vm_compute in payload. codes_plain.
Defined.

Lemma image_only_from_inline_data_witness :
  let image := mkInlineData (Some (lit "image/png")) (Some (lit "iVBORw0KGgo=")) in
  let response :=
    mkResponse (Some (mkPromptFeedback None None))
      (Some [mkCandidate (Some (mkContent (Some [mkPart None; mkPart (Some image)])))
                         (Some (lit "STOP"))])
      None in
  let url := lit "data:image/png;base64,iVBORw0KGgo=" in
  blocked response = false
  ∧ ∃ first, firstImage (default [] (candidates response)) first
             ∧ url = lit "data:" ++ interpolate (mimeType first)
                     ++ lit ";base64," ++ interpolate (data first).
Proof.
  intros image response url.
  refine (image_only_from_inline_data response url _).
  vm_compute. reflexivity.
Defined.

Lemma dataUrlToParts_accepts_witness :
  let dataUrl := lit "data:image/png;base64,iVBORw0KGgo=,ignored" in
  let mime := lit "image/png" in
  let payload := lit "iVBORw0KGgo=" in
  mime ≠ []
  ∧ Forall (λ c, c ≠ 44%N ∧ capturable c) mime
  ∧ Forall (λ c, c ≠ 44%N) payload
  ∧ ∃ before between rest,
      dataUrl = before ++ 58%N :: mime ++ 59%N :: between ++ 44%N :: payload ++ rest
      ∧ Forall (λ c, c ≠ 44%N) (before ++ between)
      ∧ (rest = [] ∨ ∃ more, rest = 44%N :: more).
Proof.
  intros dataUrl mime payload.
  refine (dataUrlToParts_accepts dataUrl mime payload _).
  vm_compute. reflexivity.
Defined.

End DataUrl.
